(** * MACD trading loop: bar aggregation, signal engine and portfolio ledger

    A shallow embedding of [macd_strategy.py], [data_collector.py],
    [trading_engine.py] and the manual-position route of [app.py].

    Python's [float] is IEEE-754 binary64, which is what Rocq's primitive
    [float] is, so prices, quantities and balances are embedded as [float]
    and every arithmetic step is the one the interpreter performs.  Python
    dictionaries are [gmap]s, lists are [list]s, and the objects that the
    ledger shares between several containers live in an explicit store. *)

From Stdlib Require Import Floats ZArith Lia.
From stdpp Require Import gmap strings list.

Set Warnings "-inexact-float".

(** ** Python primitives used by the three components *)

Module Py.

(** [float(z)] for a Python [int]: the nearest binary64 value. *)
Definition float_of_Z (z : Z) : float :=
  SF2Prim (binary_normalize prec emax z 0 false).

(** [math.floor(x)]: an [int]; raises on nan and on the infinities. *)
Definition floor (x : float) : option Z :=
  match Prim2SF x with
  | S754_zero _ => Some 0%Z
  | S754_finite s m e =>
      let v := if s then Z.neg m else Z.pos m in
      Some (if (0 <=? e)%Z then v * 2 ^ e else v / 2 ^ (- e))%Z
  | S754_infinity _ | S754_nan => None
  end.

(** [int(x)]: truncation toward zero; raises on nan and on the infinities. *)
Definition int (x : float) : option Z :=
  match Prim2SF x with
  | S754_zero _ => Some 0%Z
  | S754_finite s m e =>
      let v := if s then Z.neg m else Z.pos m in
      Some (if (0 <=? e)%Z then v * 2 ^ e else Z.quot v (2 ^ (- e)))%Z
  | S754_infinity _ | S754_nan => None
  end.

(** [a / b] on floats raises [ZeroDivisionError] when [b == 0]. *)
Definition truediv (a b : float) : option float :=
  if (b =? 0)%float then None else Some (a / b)%float.

(** [a / b] on ints: a float, [ZeroDivisionError] when [b == 0].  Both
    operands are converted first, which is the correctly rounded quotient
    whenever they are below 2^53 in magnitude. *)
Definition int_truediv (a b : Z) : option float :=
  if (b =? 0)%Z then None else Some (float_of_Z a / float_of_Z b)%float.

(** [a / n] for a float [a] and an int [n]: [n] is converted to a float,
    which is zero exactly when [n] is. *)
Definition truediv_int (a : float) (n : Z) : option float :=
  if (n =? 0)%Z then None else Some (a / float_of_Z n)%float.

(** [sum(l)] on a list of floats: left-to-right addition from [0], the
    algorithm of CPython before 3.12 (later versions carry a compensation
    term, which can change the last bit of an inexact sum). *)
Definition sum (l : list float) : float := fold_left PrimFloat.add l 0%float.

(** [max(a, b)] and [min(a, b)] keep the first argument unless the second
    is strictly better. *)
Definition max (a b : float) : float := if (a <? b)%float then b else a.
Definition min (a b : float) : float := if (b <? a)%float then b else a.

(** [l[-limit:]] for an [int] [limit]. *)
Definition last_slice {A} (l : list A) (limit : Z) : list A :=
  if (0 <? limit)%Z then drop (length l - Z.to_nat limit) l
  else drop (Z.to_nat (- limit)) l.

(** [l[-limit:] if limit else l], the idiom of the three history
    accessors; [None] and [0] are both falsy. *)
Definition limited {A} (l : list A) (limit : option Z) : list A :=
  match limit with
  | None => l
  | Some n => if (n =? 0)%Z then l else last_slice l n
  end.

(** A [dict] whose iteration order matters: the items in insertion order,
    with one item per key. *)
Fixpoint dict_get {V} (d : list (string * V)) (k : string) : option V :=
  match d with
  | [] => None
  | (k', v) :: d' => if decide (k' = k) then Some v else dict_get d' k
  end.

(** [d[k] = v]: the value of an existing key is replaced where it stands,
    a new key goes to the end. *)
Fixpoint dict_set {V} (d : list (string * V)) (k : string) (v : V)
  : list (string * V) :=
  match d with
  | [] => [(k, v)]
  | (k', v') :: d' =>
      if decide (k' = k) then (k, v) :: d' else (k', v') :: dict_set d' k v
  end.

End Py.

(** A [datetime] is kept as its number of microseconds since the epoch. *)
Definition Time := Z.

(** ** macd_strategy.py *)

Module MACD.

Inductive SignalType := NONE | GOLDEN_CROSS | DEAD_CROSS.

Definition signal_type_str (k : SignalType) : string :=
  match k with
  | NONE => "NONE"
  | GOLDEN_CROSS => "GOLDEN_CROSS"
  | DEAD_CROSS => "DEAD_CROSS"
  end.

Record MACDSignal := mkSignal {
  timestamp : Time;
  close : float;
  macd : float;
  signal : float;
  histogram : float;
  signal_type : SignalType
}.

Record Kline := mkKline {
  k_timestamp : Time;
  k_open : float;
  k_high : float;
  k_low : float;
  k_close : float;
  k_volume : float
}.

Record MACDStrategy := mkStrategy {
  fast_period : nat;
  slow_period : nat;
  signal_period : nat;
  klines_history : list Kline;
  macd_history : list MACDSignal;
  prev_histogram : option float
}.

(** [MACDStrategy.__init__] *)
Definition init (fast slow sig : nat) : MACDStrategy :=
  mkStrategy fast slow sig [] [] None.

Definition default_strategy : MACDStrategy := init 5 10 3.

(** The [for i in range(period, len(data))] loop of [_ema]; [prev] is
    [ema[-1]]. *)
Fixpoint ema_loop (multiplier prev : float) (rest : list float)
  : list (option float) :=
  match rest with
  | [] => []
  | x :: rest' =>
      let ema_value := (x * multiplier + prev * (1 - multiplier))%float in
      Some ema_value :: ema_loop multiplier ema_value rest'
  end.

(** [MACDStrategy._ema]; the outer [None] is a raised exception (the
    [ZeroDivisionError] of a zero period). *)
Definition _ema (data : list float) (period : nat)
  : option (list (option float)) :=
  if (length data <? period)%nat then Some (replicate (length data) None)
  else
    multiplier ← Py.int_truediv 2 (Z.of_nat period + 1);
    sma ← Py.truediv_int (Py.sum (take period data)) (Z.of_nat period);
    Some (replicate (period - 1) None
            ++ Some sma :: ema_loop multiplier sma (drop period data)).

(** [fast - slow if fast is not None and slow is not None else None]
    over [zip(ema_fast, ema_slow)]. *)
Definition macd_line (ema_fast ema_slow : list (option float))
  : list (option float) :=
  zip_with (fun fast slow =>
              match fast, slow with
              | Some f, Some s => Some (f - s)%float
              | _, _ => None
              end) ema_fast ema_slow.

(** [[v for v in macd_line if v is not None]] *)
Definition macd_values (line : list (option float)) : list float :=
  omap id line.

(** The indicator chain of [add_kline] on the closes seen so far: either
    one of the two early returns, an exception, or the three values of
    the current bar (not yet rounded). *)
Inductive Chain :=
| Warmup
| Raised
| Defined (current_macd current_signal current_histogram : float).

Definition chain (fast slow sig : nat) (closes : list float) : Chain :=
  if (Z.of_nat (length closes) <? Z.of_nat slow + Z.of_nat sig - 1)%Z
  then Warmup
  else
    match _ema closes fast with
    | None => Raised
    | Some ema_fast =>
      match _ema closes slow with
      | None => Raised
      | Some ema_slow =>
        let values := macd_values (macd_line ema_fast ema_slow) in
        if (length values <? sig)%nat then Warmup
        else
          match _ema values sig with
          | None => Raised
          | Some signal_line =>
            match last values with
            | None => Raised
            | Some current_macd =>
              let current_signal :=
                match last signal_line with
                | Some (Some s) => s
                | _ => 0%float
                end in
              Defined current_macd current_signal
                      (current_macd - current_signal)%float
            end
          end
      end
    end.

Section Builtins.

(** [round(x, ndigits)] of the interpreter. *)
Variable round : float → Z → float.

(** [MACDStrategy.add_kline].  The bar is appended first; the result is
    [None] when the call raises. *)
Definition add_kline (s : MACDStrategy) (k : Kline)
  : MACDStrategy * option MACDSignal :=
  let s1 := mkStrategy (fast_period s) (slow_period s) (signal_period s)
                       (klines_history s ++ [k])
                       (macd_history s) (prev_histogram s) in
  let closes := map k_close (klines_history s1) in
  let none_signal :=
    mkSignal (k_timestamp k) (k_close k) 0 0 0 NONE in
  match chain (fast_period s) (slow_period s) (signal_period s) closes with
  | Warmup => (s1, Some none_signal)
  | Raised => (s1, None)
  | Defined current_macd current_signal current_histogram =>
      let signal_type :=
        match prev_histogram s1 with
        | None => NONE
        | Some prev =>
            if (prev <? 0)%float && (0 <=? current_histogram)%float
            then GOLDEN_CROSS
            else if (0 <=? prev)%float && (current_histogram <? 0)%float
            then DEAD_CROSS
            else NONE
        end in
      let macd_data :=
        mkSignal (k_timestamp k) (k_close k)
                 (round current_macd 8) (round current_signal 8)
                 (round current_histogram 8) signal_type in
      (mkStrategy (fast_period s) (slow_period s) (signal_period s)
                  (klines_history s1)
                  (macd_history s1 ++ [macd_data])
                  (Some current_histogram),
       Some macd_data)
  end.

(** Feeding a sequence of bars, one [add_kline] call each. *)
Fixpoint feed (s : MACDStrategy) (bars : list Kline)
  : MACDStrategy * list (option MACDSignal) :=
  match bars with
  | [] => (s, [])
  | k :: bars' =>
      let '(s1, out) := add_kline s k in
      let '(s2, outs) := feed s1 bars' in
      (s2, out :: outs)
  end.

End Builtins.

(** [MACDStrategy.get_macd_history] *)
Definition get_macd_history (s : MACDStrategy) (limit : option Z)
  : list MACDSignal :=
  Py.limited (macd_history s) limit.

(** *** Notions of the specification, for the statements below *)

(** The smoothing factor [2 / (period + 1)]. *)
Definition smoothing (period : nat) : float :=
  (Py.float_of_Z 2 / Py.float_of_Z (Z.of_nat period + 1))%float.

(** The simple average [sum(data[:period]) / period]. *)
Definition simple_average (data : list float) (period : nat) : float :=
  (Py.sum (take period data) / Py.float_of_Z (Z.of_nat period))%float.

(** The crossover rule in the words of the specification: the kind of a
    bar from the previous defined histogram, if any, and the current one. *)
Definition crossover_rule (previous : option float) (current : float)
  : SignalType :=
  match previous with
  | None => NONE
  | Some previous =>
      if (previous <? 0)%float && (0 <=? current)%float then GOLDEN_CROSS
      else if (0 <=? previous)%float && (current <? 0)%float then DEAD_CROSS
      else NONE
  end.

(** The kinds the rule assigns along a sequence of defined histograms. *)
Fixpoint kinds_from (previous : option float) (hs : list float)
  : list SignalType :=
  match hs with
  | [] => []
  | h :: hs' => crossover_rule previous h :: kinds_from (Some h) hs'
  end.

(** The histogram of the bar that completes [closes], when defined. *)
Definition histogram_at (fast slow sig : nat) (closes : list float)
  : option float :=
  match chain fast slow sig closes with
  | Defined _ _ h => Some h
  | _ => None
  end.

(** The defined histograms met while the closes [new] are fed one by one
    after the closes [seen]. *)
Fixpoint histograms (fast slow sig : nat) (seen new : list float)
  : list float :=
  match new with
  | [] => []
  | c :: rest =>
      match histogram_at fast slow sig (seen ++ [c]) with
      | Some h => h :: histograms fast slow sig (seen ++ [c]) rest
      | None => histograms fast slow sig (seen ++ [c]) rest
      end
  end.

(** Sign of a histogram value; zero is on the rising side. *)
Inductive Sign := Neg | Pos | NotANumber.

Definition sign_of (h : float) : Sign :=
  if (h <? 0)%float then Neg
  else if (0 <=? h)%float then Pos
  else NotANumber.

(** A synthetic close series for the default periods: flat, a dip, a
    rally and a drop. *)
Definition example_closes : list float :=
  [10; 10; 10; 10; 10; 10; 10; 10; 10; 10; 10; 9; 8; 12; 14; 5]%float.

Definition example_bars : list Kline :=
  map (λ c, mkKline 0%Z c c c c 0%float) example_closes.

(** *** The remaining methods of [MACDStrategy] *)

(** [MACDStrategy.get_latest_signal] *)
Definition get_latest_signal (s : MACDStrategy) : option MACDSignal :=
  last (macd_history s).

(** [MACDStrategy.reset] *)
Definition reset (s : MACDStrategy) : MACDStrategy :=
  mkStrategy (fast_period s) (slow_period s) (signal_period s) [] [] None.

#[global] Instance SignalType_eq_dec : EqDecision SignalType.
Proof. solve_decision. Defined.

(** The crosses among a sequence of kinds, in order. *)
Definition crosses (kinds : list SignalType) : list SignalType :=
  filter (λ k, k ≠ NONE) kinds.

(** No two neighbours of the sequence are equal. *)
Fixpoint alternating (kinds : list SignalType) : Prop :=
  match kinds with
  | a :: (b :: _) as rest => a ≠ b ∧ alternating rest
  | _ => True
  end.

(** At every position the entry is absent before [warm] and present from
    [warm] on. *)
Definition defined_from (warm : nat) (l : list (option float)) : Prop :=
  ∀ i, (i < length l)%nat →
    ((i < warm)%nat → l !! i = Some None) ∧
    ((warm ≤ i)%nat → ∃ x, l !! i = Some (Some x)).

End MACD.

(** ** data_collector.py *)

Module Collector.

(** A bar: the dict built by [_update_kline]. *)
Record Bar := mkBar {
  open_time : Z;
  open : float;
  high : float;
  low : float;
  close : float;
  volume : float;
  close_time : Z
}.

(** The dict returned by [_fetch_current_price]. *)
Record PriceData := mkPriceData {
  p_timestamp : float;
  p_open : float;
  p_high : float;
  p_low : float;
  p_close : float;
  p_volume : float
}.

Record KlineCollector := mkCollector {
  kline_interval : Z;
  klines : gmap string (list Bar);
  current_kline : gmap string Bar;
  last_update : gmap string Time;
  symbols : gset string;
  is_collecting : bool
}.

(** [KlineCollector.__init__] *)
Definition init (kline_interval : Z) : KlineCollector :=
  mkCollector kline_interval ∅ ∅ ∅ ∅ false.

(** [datetime.timestamp()]: whole seconds plus [microsecond / 1e6]. *)
Definition timestamp (t : Time) : float :=
  (Py.float_of_Z (t / 1000000) + Py.float_of_Z (t mod 1000000) / 1000000)%float.

(** [int(t.timestamp() * 1000)] *)
Definition timestamp_ms (t : Time) : option Z :=
  Py.int (timestamp t * 1000)%float.

(** [(now - last_update).total_seconds()] *)
Definition total_seconds (now last : Time) : option float :=
  Py.int_truediv (now - last) 1000000.

(** The dict literal that opens a bar at [price_data['close']]. *)
Definition seeded_bar (ms : Z) (price_data : PriceData) : Bar :=
  mkBar ms (p_close price_data) (p_close price_data) (p_close price_data)
        (p_close price_data) 0 ms.

Definition with_current (c : KlineCollector) (symbol : string) (b : Bar)
  : KlineCollector :=
  mkCollector (kline_interval c) (klines c) (<[symbol := b]> (current_kline c))
              (last_update c) (symbols c) (is_collecting c).

Definition with_last_update (c : KlineCollector) (symbol : string) (t : Time)
  : KlineCollector :=
  mkCollector (kline_interval c) (klines c) (current_kline c)
              (<[symbol := t]> (last_update c)) (symbols c) (is_collecting c).

Definition with_klines (c : KlineCollector) (symbol : string) (l : list Bar)
  : KlineCollector :=
  mkCollector (kline_interval c) (<[symbol := l]> (klines c)) (current_kline c)
              (last_update c) (symbols c) (is_collecting c).

(** [self.klines[symbol]] on the [defaultdict(list)]. *)
Definition history (c : KlineCollector) (symbol : string) : list Bar :=
  default [] (klines c !! symbol).

(** The size limit applied after each append. *)
Definition capped (l : list Bar) : list Bar :=
  if (1000 <? length l)%nat then Py.last_slice l 1000 else l.

(** [KlineCollector._update_kline], with the result of
    [_fetch_current_price] and the value of [datetime.now()] as inputs.
    An exception raised inside is caught by the method: the collector is
    left as it was when the exception occurred. *)
Definition _update_kline (c : KlineCollector) (symbol : string)
    (price_data : option PriceData) (now : Time) : KlineCollector :=
  match price_data with
  | None => c
  | Some price_data =>
    match current_kline c !! symbol with
    | None =>
        match timestamp_ms now with
        | None => c
        | Some ms =>
            with_last_update (with_current c symbol (seeded_bar ms price_data))
                             symbol now
        end
    | Some cur =>
        let last_update_ := default now (last_update c !! symbol) in
        match total_seconds now last_update_ with
        | None => c
        | Some time_diff =>
          if (Py.float_of_Z (kline_interval c) <=? time_diff)%float then
            match timestamp_ms last_update_ with
            | None => c
            | Some closed_ms =>
                let finished :=
                  mkBar (open_time cur) (open cur) (high cur) (low cur)
                        (close cur) (volume cur) closed_ms in
                let c1 := with_current c symbol finished in
                let c2 :=
                  with_klines c1 symbol (capped (history c1 symbol ++ [finished])) in
                match timestamp_ms now with
                | None => c2
                | Some ms =>
                    with_last_update
                      (with_current c2 symbol (seeded_bar ms price_data))
                      symbol now
                end
            end
          else
            let high' := Py.max (high cur) (p_close price_data) in
            let low' := Py.min (low cur) (p_close price_data) in
            let updated :=
              mkBar (open_time cur) (open cur) high' low'
                    (p_close price_data) (volume cur) (close_time cur) in
            match timestamp_ms now with
            | None => with_current c symbol updated
            | Some ms =>
                with_current c symbol
                  (mkBar (open_time cur) (open cur) high' low'
                         (p_close price_data) (volume cur) ms)
            end
        end
    end
  end.

(** [KlineCollector.get_latest_kline] *)
Definition get_latest_kline (c : KlineCollector) (symbol : string)
  : option Bar :=
  last (history c symbol).

(** [KlineCollector.get_klines] *)
Definition get_klines (c : KlineCollector) (symbol : string)
    (limit : option Z) : list Bar :=
  Py.limited (history c symbol) limit.

(** *** Notions of the specification, for the statements below *)

(** One call of the collection loop for one symbol: the symbol, what
    [_fetch_current_price] returned and the clock. *)
Definition Tick : Type := string * option PriceData * Time.

(** The collector after a sequence of [_update_kline] calls. *)
Definition run (c : KlineCollector) (ticks : list Tick) : KlineCollector :=
  fold_left (λ c '(symbol, price_data, now), _update_kline c symbol price_data now)
            ticks c.

(** A bar with its closing stamp replaced. *)
Definition stamped (b : Bar) (closed_ms : Z) : Bar :=
  mkBar (open_time b) (open b) (high b) (low b) (close b) (volume b) closed_ms.

(** The clock recorded for a symbol is the one its bar in progress was
    opened at, and every stored bar carries its opening stamp as its
    closing stamp. *)
Definition stamps_agree (c : KlineCollector) : Prop :=
  (∀ symbol cur,
     current_kline c !! symbol = Some cur →
     ∃ t0, last_update c !! symbol = Some t0 ∧
           timestamp_ms t0 = Some (open_time cur)) ∧
  (∀ symbol bar, bar ∈ history c symbol → close_time bar = open_time bar).

(** A snapshot whose last price is [c]. *)
Definition snapshot (c : float) : PriceData := mkPriceData 0 c c c c 0.

(** Seconds on the clock. *)
Definition seconds (n : Z) : Time := (n * 1000000)%Z.

(** The three ticks of the aggregation example, for one symbol. *)
Definition example_ticks (symbol : string) : list Tick :=
  [(symbol, Some (snapshot 100), seconds 0);
   (symbol, Some (snapshot 105), seconds 10);
   (symbol, Some (snapshot 95), seconds 35)].

(** *** The remaining methods of [KlineCollector] *)

(** [KlineCollector.add_symbol] *)
Definition add_symbol (c : KlineCollector) (symbol : string) : KlineCollector :=
  mkCollector (kline_interval c) (klines c) (current_kline c) (last_update c)
              ({[symbol]} ∪ symbols c) (is_collecting c).

(** [KlineCollector.remove_symbol] *)
Definition remove_symbol (c : KlineCollector) (symbol : string)
  : KlineCollector :=
  mkCollector (kline_interval c) (klines c) (current_kline c) (last_update c)
              (symbols c ∖ {[symbol]}) (is_collecting c).

(** [KlineCollector.get_all_latest_klines]: one entry per monitored
    symbol, [None] for a symbol without a stored bar. *)
Definition get_all_latest_klines (c : KlineCollector)
  : gmap string (option Bar) :=
  set_to_map (λ symbol, (symbol, get_latest_kline c symbol)) (symbols c).

(** The high of a bar is never below its open or its close, and the low
    never above them. *)
Definition ordered_bar (b : Bar) : Prop :=
  (high b <? open b)%float = false ∧ (high b <? close b)%float = false ∧
  (open b <? low b)%float = false ∧ (close b <? low b)%float = false.

(** A property of every bar the collector holds for a symbol, stored or
    in progress. *)
Definition every_bar (P : Bar → Prop) (c : KlineCollector) : Prop :=
  (∀ symbol b, current_kline c !! symbol = Some b → P b) ∧
  (∀ symbol b, b ∈ history c symbol → P b).

End Collector.

(** ** trading_engine.py *)

Module Engine.

Inductive OrderStatus := PENDING | OPEN | CLOSED | CANCELLED | FAILED.

Inductive PositionSide := LONG | SHORT.

(** [PositionSide.value] *)
Definition side_value (s : PositionSide) : string :=
  match s with LONG => "BUY" | SHORT => "SELL" end.

Record Trade := mkTrade {
  trade_id : string;
  symbol : string;
  side : PositionSide;
  entry_price : float;
  entry_quantity : float;
  entry_time : Time;
  exit_price : option float;
  exit_quantity : option float;
  exit_time : option Time;
  profit_loss : float;
  profit_loss_pct : float;
  status : OrderStatus;
  macd_signal : string
}.

Record StrategyStats := mkStats {
  s_initial_capital : float;
  s_current_capital : float;
  s_available_balance : float;
  total_trades : Z;
  winning_trades : Z;
  losing_trades : Z;
  total_profit_loss : float;
  s_profit_loss_pct : float;
  win_rate : float;
  max_drawdown : float;
  roi : float;
  sharpe_ratio : float
}.

(** One point of [equity_curve]. *)
Record EquityPoint := mkPoint {
  eq_timestamp : Time;
  equity : float;
  available : float
}.

(** The texts stored in [last_error], by the statement that builds them. *)
Inductive ErrorMessage :=
| PriceUnavailable (symbol : string)
| InsufficientBalance (allocation_usdt : float)
| OrderError (error : string)
| OpenOrderNoResponse
| CloseOrderFailed
| CloseOrderNoResponse
| NoActivePosition (symbol : string).

(** What [place_order] hands back: a falsy value ([None], an empty dict)
    or a dict, of which only ['status'] and ['error'] are read. *)
Inductive OrderResult :=
| OrderFalsy
| OrderDict (status error : option string).

(** The exchange client as the engine sees it.  [latency_probe] is the
    elapsed time in milliseconds measured around the server-time call,
    [None] when that call raises. *)
Record Client := mkClient {
  get_futures_price : string → option float;
  place_order : string → string → string → float → OrderResult;
  latency_probe : option float
}.

(** A [Trade] object is shared by [trades], [active_positions] and
    [closed_trades]: the objects live in [store] and the containers hold
    their positions in it. *)
Record TradingEngine := mkEngine {
  initial_capital : float;
  available_balance : float;
  total_capital : float;
  store : list Trade;
  trades : gmap string (list nat);
  active_positions : gmap string nat;
  closed_trades : list nat;
  equity_curve : list EquityPoint;
  stats : StrategyStats;
  network_latency : float;
  last_error : option ErrorMessage
}.

(** [TradingEngine.__init__] *)
Definition init (initial_capital : float) (now : Time) : TradingEngine :=
  mkEngine initial_capital initial_capital initial_capital [] ∅ ∅ []
           [mkPoint now initial_capital initial_capital]
           (mkStats initial_capital initial_capital initial_capital
                    0 0 0 0 0 0 0 0 0)
           0 None.

Definition with_last_error (e : TradingEngine) (m : option ErrorMessage)
  : TradingEngine :=
  mkEngine (initial_capital e) (available_balance e) (total_capital e)
           (store e) (trades e) (active_positions e) (closed_trades e)
           (equity_curve e) (stats e) (network_latency e) m.

Definition with_latency (e : TradingEngine) (l : float) : TradingEngine :=
  mkEngine (initial_capital e) (available_balance e) (total_capital e)
           (store e) (trades e) (active_positions e) (closed_trades e)
           (equity_curve e) (stats e) l (last_error e).

Definition with_store (e : TradingEngine) (s : list Trade) : TradingEngine :=
  mkEngine (initial_capital e) (available_balance e) (total_capital e)
           s (trades e) (active_positions e) (closed_trades e)
           (equity_curve e) (stats e) (network_latency e) (last_error e).

Definition with_stats (e : TradingEngine) (s : StrategyStats) : TradingEngine :=
  mkEngine (initial_capital e) (available_balance e) (total_capital e)
           (store e) (trades e) (active_positions e) (closed_trades e)
           (equity_curve e) s (network_latency e) (last_error e).

(** [_allocate_position_size] *)
Definition _allocate_position_size (e : TradingEngine) (symbol : string)
    (percentage : float) : float :=
  (available_balance e * percentage)%float.

(** [_measure_network_latency] *)
Definition _measure_network_latency (e : TradingEngine) (client : Client)
  : TradingEngine :=
  with_latency e (default 0%float (latency_probe client)).

(** The [precisions] table of [_format_quantity]. *)
Definition precisions : gmap string Z :=
  <["BTCUSDT" := 3%Z]> (<["ETHUSDT" := 3%Z]>
    (<["BNBUSDT" := 2%Z]> (<["LTCUSDT" := 3%Z]> ∅))).

(** [_format_quantity]: [floor(quantity * 10**p) / 10**p]; [None] when
    [floor] raises. *)
Definition _format_quantity (symbol : string) (quantity : float)
  : option float :=
  let p := default 3%Z (precisions !! symbol) in
  n ← Py.floor (quantity * Py.float_of_Z (10 ^ p))%float;
  Py.int_truediv n (10 ^ p).

(** [TradingEngine.open_position].  [new_id] is the eight characters
    taken from [uuid4()], [now] the value of [datetime.now()].  The result
    is the new [Trade] object (its place in [store]) or [None]. *)
Definition open_position (e : TradingEngine) (client : Client)
    (new_id : string) (now : Time)
    (symbol : string) (side : PositionSide) (macd_signal : string)
  : TradingEngine * option nat :=
  let e := _measure_network_latency e client in
  let e := with_last_error e None in
  match get_futures_price client symbol with
  | None => (with_last_error e (Some (PriceUnavailable symbol)), None)
  | Some current_price =>
    if (current_price =? 0)%float
    then (with_last_error e (Some (PriceUnavailable symbol)), None)
    else
      let allocation_usdt := _allocate_position_size e symbol 0.5 in
      if (allocation_usdt <? 10)%float
      then (with_last_error e (Some (InsufficientBalance allocation_usdt)), None)
      else
        match _format_quantity symbol (allocation_usdt / current_price) with
        | None => (e, None)
        | Some entry_quantity =>
          let order :=
            place_order client symbol (side_value side) "MARKET" entry_quantity in
          match order with
          | OrderFalsy => (with_last_error e (Some OpenOrderNoResponse), None)
          | OrderDict st err =>
            if bool_decide (st = Some "FAILED")
            then (with_last_error e
                    (Some (from_option OrderError OpenOrderNoResponse err)), None)
            else
              let trade :=
                mkTrade new_id symbol side current_price entry_quantity now
                        None None None 0 0 OPEN macd_signal in
              let r := length (store e) in
              let st := stats e in
              (mkEngine (initial_capital e)
                        (available_balance e - allocation_usdt)
                        (total_capital e)
                        (store e ++ [trade])
                        (<[symbol := default [] (trades e !! symbol) ++ [r]]>
                           (trades e))
                        (<[symbol := r]> (active_positions e))
                        (closed_trades e)
                        (equity_curve e)
                        (mkStats (s_initial_capital st) (s_current_capital st)
                                 (s_available_balance st)
                                 (total_trades st + 1)
                                 (winning_trades st) (losing_trades st)
                                 (total_profit_loss st) (s_profit_loss_pct st)
                                 (win_rate st) (max_drawdown st) (roi st)
                                 (sharpe_ratio st))
                        (network_latency e) (last_error e),
               Some r)
          end
        end
  end.

(** The drawdown loop of [_update_stats] over the equities of the curve;
    [None] when the division raises. *)
Fixpoint drawdown_loop (peak max_dd : float) (curve : list float)
  : option float :=
  match curve with
  | [] => Some max_dd
  | eq :: rest =>
      let peak := if (peak <? eq)%float then eq else peak in
      dd ← Py.truediv (peak - eq) peak;
      let max_dd := if (max_dd <? dd)%float then dd else max_dd in
      drawdown_loop peak max_dd rest
  end.

(** The value assigned to [stats.max_drawdown], when the curve is not
    empty. *)
Definition compute_max_drawdown (curve : list float) : option float :=
  match curve with
  | [] => None
  | first :: _ => drawdown_loop first 0 curve
  end.

Definition refresh_capital (e : TradingEngine) (roi' : float) : StrategyStats :=
  let st := stats e in
  mkStats (s_initial_capital st) (total_capital e) (available_balance e)
          (total_trades st) (winning_trades st) (losing_trades st)
          (total_profit_loss st) (s_profit_loss_pct st) (win_rate st)
          (max_drawdown st) roi' (sharpe_ratio st).

Definition with_max_drawdown (st : StrategyStats) (dd : float) : StrategyStats :=
  mkStats (s_initial_capital st) (s_current_capital st) (s_available_balance st)
          (total_trades st) (winning_trades st) (losing_trades st)
          (total_profit_loss st) (s_profit_loss_pct st) (win_rate st)
          dd (roi st) (sharpe_ratio st).

(** [TradingEngine._update_stats]; the flag is [false] when the method
    raises, with the engine as the exception leaves it. *)
Definition _update_stats (e : TradingEngine) : TradingEngine * bool :=
  match Py.truediv (total_capital e - initial_capital e) (initial_capital e) with
  | None => (with_stats e (refresh_capital e (roi (stats e))), false)
  | Some q =>
      let e1 := with_stats e (refresh_capital e (q * 100)%float) in
      match equity_curve e1 with
      | [] => (e1, true)
      | _ :: _ =>
          match compute_max_drawdown (map equity (equity_curve e1)) with
          | None => (e1, false)
          | Some dd => (with_stats e1 (with_max_drawdown (stats e1) dd), true)
          end
      end
  end.

(** The fields of a [Trade] that [close_position] assigns before it
    computes the percentage. *)
Definition closed_trade (t : Trade) (current_price : float) (now : Time)
    (pnl : float) : Trade :=
  mkTrade (trade_id t) (symbol t) (side t) (entry_price t) (entry_quantity t)
          (entry_time t) (Some current_price) (Some (entry_quantity t))
          (Some now) pnl (profit_loss_pct t) CLOSED (macd_signal t).

Definition with_profit_loss_pct (t : Trade) (pct : float) : Trade :=
  mkTrade (trade_id t) (symbol t) (side t) (entry_price t) (entry_quantity t)
          (entry_time t) (exit_price t) (exit_quantity t) (exit_time t)
          (profit_loss t) pct (status t) (macd_signal t).

(** The counters and the running total updated by [close_position]. *)
Definition count_result (st : StrategyStats) (pnl : float) : StrategyStats :=
  let winning := if (0 <? pnl)%float then (winning_trades st + 1)%Z
                 else winning_trades st in
  let losing := if (0 <? pnl)%float then losing_trades st
                else if (pnl <? 0)%float then (losing_trades st + 1)%Z
                else losing_trades st in
  mkStats (s_initial_capital st) (s_current_capital st) (s_available_balance st)
          (total_trades st) winning losing
          (total_profit_loss st + pnl)%float (s_profit_loss_pct st) (win_rate st)
          (max_drawdown st) (roi st) (sharpe_ratio st).

Definition with_rates (st : StrategyStats) (pct : float) : StrategyStats :=
  let rate :=
    if (0 <? total_trades st)%Z
    then default (win_rate st)
                 (Py.int_truediv (winning_trades st) (total_trades st))
    else win_rate st in
  mkStats (s_initial_capital st) (s_current_capital st) (s_available_balance st)
          (total_trades st) (winning_trades st) (losing_trades st)
          (total_profit_loss st) pct rate
          (max_drawdown st) (roi st) (sharpe_ratio st).

(** [TradingEngine.close_position].  [now] is the value of
    [datetime.now()] stamped on the trade, [now'] the one stamped on the
    equity point.  Every exception is caught by the method, which then
    returns [None] with the engine as the exception leaves it. *)
Definition close_position (e : TradingEngine) (client : Client)
    (now now' : Time) (symbol : string) (macd_signal : string)
  : TradingEngine * option nat :=
  let e := with_last_error e None in
  match active_positions e !! symbol with
  | None => (with_last_error e (Some (NoActivePosition symbol)), None)
  | Some r =>
    let e := _measure_network_latency e client in
    match store e !! r with
    | None => (e, None)
    | Some trade =>
      match get_futures_price client symbol with
      | None => (with_last_error e (Some (PriceUnavailable symbol)), None)
      | Some current_price =>
        if (current_price =? 0)%float
        then (with_last_error e (Some (PriceUnavailable symbol)), None)
        else
          let opposite_side :=
            match side trade with LONG => SHORT | SHORT => LONG end in
          match _format_quantity symbol (entry_quantity trade) with
          | None => (e, None)
          | Some quantity =>
            let order :=
              place_order client symbol (side_value opposite_side) "MARKET"
                          quantity in
            match order with
            | OrderFalsy => (with_last_error e (Some CloseOrderNoResponse), None)
            | OrderDict st err =>
              if bool_decide (st = Some "FAILED")
              then (with_last_error e
                      (Some (from_option OrderError CloseOrderFailed err)), None)
              else
                let pnl :=
                  match side trade with
                  | LONG => ((current_price - entry_price trade)
                             * entry_quantity trade)%float
                  | SHORT => ((entry_price trade - current_price)
                              * entry_quantity trade)%float
                  end in
                let trade1 := closed_trade trade current_price now pnl in
                let e1 := with_store e (<[r := trade1]> (store e)) in
                match Py.truediv pnl (entry_price trade * entry_quantity trade) with
                | None => (e1, None)
                | Some q =>
                  let trade2 := with_profit_loss_pct trade1 (q * 100) in
                  let exit_amount := (current_price * entry_quantity trade)%float in
                  let st1 := count_result (stats e) pnl in
                  let e2 :=
                    mkEngine (initial_capital e)
                             (available_balance e + exit_amount)
                             (total_capital e + pnl)
                             (<[r := trade2]> (store e))
                             (trades e) (active_positions e) (closed_trades e)
                             (equity_curve e) st1
                             (network_latency e) (last_error e) in
                  match Py.truediv (total_profit_loss st1) (initial_capital e) with
                  | None => (e2, None)
                  | Some q' =>
                    let e3 :=
                      mkEngine (initial_capital e2) (available_balance e2)
                               (total_capital e2) (store e2) (trades e2)
                               (delete symbol (active_positions e2))
                               (closed_trades e2 ++ [r])
                               (equity_curve e2
                                  ++ [mkPoint now' (total_capital e2)
                                              (available_balance e2)])
                               (with_rates st1 (q' * 100))
                               (network_latency e2) (last_error e2) in
                    match _update_stats e3 with
                    | (e4, true) => (e4, Some r)
                    | (e4, false) => (e4, None)
                    end
                  end
                end
            end
          end
      end
    end
  end.

Section Builtins.

(** [round(x, ndigits)] and [datetime.isoformat()] of the interpreter. *)
Variable round : float → Z → float.
Variable isoformat : Time → string.

(** [OrderStatus.value] *)
Definition status_value (s : OrderStatus) : string :=
  match s with
  | PENDING => "pending"
  | OPEN => "open"
  | CLOSED => "closed"
  | CANCELLED => "cancelled"
  | FAILED => "failed"
  end.

(** The dict built by [Trade.to_dict]. *)
Record TradeDict := mkTradeDict {
  d_trade_id : string;
  d_symbol : string;
  d_side : string;
  d_entry_price : float;
  d_entry_quantity : float;
  d_entry_time : string;
  d_exit_price : option float;
  d_exit_quantity : option float;
  d_exit_time : option string;
  d_profit_loss : float;
  d_profit_loss_pct : float;
  d_status : string;
  d_macd_signal : string
}.

(** [Trade.to_dict] *)
Definition to_dict (t : Trade) : TradeDict :=
  mkTradeDict (trade_id t) (symbol t) (side_value (side t))
              (entry_price t) (entry_quantity t) (isoformat (entry_time t))
              (exit_price t) (exit_quantity t) (isoformat <$> exit_time t)
              (round (profit_loss t) 2) (round (profit_loss_pct t) 4)
              (status_value (status t)) (macd_signal t).

(** The [Trade] objects a list of references stands for. *)
Definition deref (e : TradingEngine) (rs : list nat) : list Trade :=
  omap (λ r, store e !! r) rs.

(** [TradingEngine.get_closed_trades] *)
Definition get_closed_trades (e : TradingEngine) (limit : option Z)
  : list TradeDict :=
  map to_dict (deref e (Py.limited (closed_trades e) limit)).

(** [TradingEngine.get_active_positions], keyed by symbol. *)
Definition get_active_positions (e : TradingEngine) : gmap string TradeDict :=
  omap (λ r, to_dict <$> store e !! r) (active_positions e).

End Builtins.

(** *** Notions of the specification, for the statements below *)

(** The portfolio state of the ledger: balances, the trade objects and the
    containers that refer to them, the equity curve and the statistics. *)
Definition portfolio (e : TradingEngine) :=
  (initial_capital e, available_balance e, total_capital e, store e,
   trades e, active_positions e, closed_trades e, equity_curve e, stats e).

(** An answer of [place_order] that the engine takes as an accepted order. *)
Definition accepted (order : OrderResult) : bool :=
  match order with
  | OrderFalsy => false
  | OrderDict st _ => negb (bool_decide (st = Some "FAILED"))
  end.

(** A price answer that the engine takes as missing. *)
Definition price_missing (current_price : option float) : bool :=
  match current_price with
  | None => true
  | Some p => (p =? 0)%float
  end.

(** The running peak: the highest equity seen so far, starting from
    [peak]. *)
Fixpoint running_peaks (peak : float) (curve : list float) : list float :=
  match curve with
  | [] => []
  | eq :: rest => Py.max peak eq :: running_peaks (Py.max peak eq) rest
  end.

(** The drawdown [(peak - equity) / peak] at every point of the curve. *)
Definition drawdowns (curve : list float) : list (option float) :=
  match curve with
  | [] => []
  | first :: _ =>
      zip_with (λ peak eq, Py.truediv (peak - eq) peak)
               (running_peaks first curve) curve
  end.

(** All the values of a list, when none is missing. *)
Fixpoint sequence (l : list (option float)) : option (list float) :=
  match l with
  | [] => Some []
  | o :: rest => x ← o; xs ← sequence rest; Some (x :: xs)
  end.

(** The maximum of the drawdowns over the curve. *)
Definition maximum_drawdown (curve : list float) : option float :=
  match curve with
  | [] => None
  | _ :: _ => dds ← sequence (drawdowns curve); Some (fold_left Py.max dds 0%float)
  end.

(** A client that quotes [price] for every symbol and fills every order. *)
Definition example_client (price : float) : Client :=
  mkClient (λ _, Some price) (λ _ _ _ _, OrderDict (Some "FILLED") None)
           (Some 1%float).

(** The messages that report a rejected or unanswered order. *)
Definition order_error (m : ErrorMessage) : bool :=
  match m with
  | OrderError _ | OpenOrderNoResponse | CloseOrderFailed
  | CloseOrderNoResponse => true
  | _ => false
  end.

(** The engine of the lifecycle example once its long position is open. *)
Definition example_open_engine : TradingEngine :=
  (open_position (init 3000 0%Z) (example_client 50000) "a1b2c3d4" 1%Z
                 "BTCUSDT" LONG "GOLDEN_CROSS").1.

(** An engine whose equity curve is 3000, 3030, 2900. *)
Definition example_curve_engine : TradingEngine :=
  mkEngine 3000 2900 2900 [] ∅ ∅ []
           [mkPoint 0%Z 3000 3000; mkPoint 1%Z 3030 3030; mkPoint 2%Z 2900 2900]
           (mkStats 3000 3030 3030 2 1 1 (-100) 0 0.5 0 0 0)
           0 None.

(** *** The remaining methods of [TradingEngine] *)

Section Reports.

(** [round(x, ndigits)] and [datetime.isoformat()] of the interpreter. *)
Variable round : float → Z → float.
Variable isoformat : Time → string.

(** The dict built by [StrategyStats.to_dict]. *)
Record StatsDict := mkStatsDict {
  sd_initial_capital : float;
  sd_current_capital : float;
  sd_available_balance : float;
  sd_total_trades : Z;
  sd_winning_trades : Z;
  sd_losing_trades : Z;
  sd_total_profit_loss : float;
  sd_profit_loss_pct : float;
  sd_win_rate : float;
  sd_max_drawdown : float;
  sd_roi : float;
  sd_sharpe_ratio : float
}.

(** [StrategyStats.to_dict] *)
Definition stats_to_dict (st : StrategyStats) : StatsDict :=
  mkStatsDict (round (s_initial_capital st) 2) (round (s_current_capital st) 2)
              (round (s_available_balance st) 2)
              (total_trades st) (winning_trades st) (losing_trades st)
              (round (total_profit_loss st) 2) (round (s_profit_loss_pct st) 4)
              (round (win_rate st) 4) (round (max_drawdown st) 4)
              (round (roi st) 4) (round (sharpe_ratio st) 4).

(** [TradingEngine.get_stats]: the stats are refreshed, then reported;
    [None] when the refresh raises. *)
Definition get_stats (e : TradingEngine) : TradingEngine * option StatsDict :=
  match _update_stats e with
  | (e', true) => (e', Some (stats_to_dict (stats e')))
  | (e', false) => (e', None)
  end.

(** One reported point of the equity curve. *)
Record CurvePoint := mkCurvePoint {
  cp_timestamp : string;
  cp_equity : float;
  cp_available : float
}.

(** [TradingEngine.get_equity_curve] *)
Definition get_equity_curve (e : TradingEngine) (limit : option Z)
  : list CurvePoint :=
  map (λ point, mkCurvePoint (isoformat (eq_timestamp point))
                             (round (equity point) 2)
                             (round (available point) 2))
      (Py.limited (equity_curve e) limit).

(** [TradingEngine.get_all_trades] for a given symbol, that is the branch
    [if symbol:], which a symbol other than the empty string takes. *)
Definition get_all_trades (e : TradingEngine) (symbol : string)
  : list (TradeDict) :=
  map (to_dict round isoformat) (deref e (default [] (trades e !! symbol))).

(** The reports [ds] are the dicts of the trades that the references [rs]
    stand for, one report per reference and in the same order. *)
Definition reports_of (e : TradingEngine) (rs : list nat)
    (ds : list TradeDict) : Prop :=
  Forall2 (λ r d, ∃ t, store e !! r = Some t ∧ d = to_dict round isoformat t)
          rs ds.

End Reports.

(** *** Sequences of ledger operations *)

(** A call of [open_position] or of [close_position] with everything it
    reads from outside. *)
Inductive Call :=
| CallOpen (client : Client) (new_id : string) (now : Time)
           (symbol : string) (side : PositionSide) (macd_signal : string)
| CallClose (client : Client) (now now' : Time)
            (symbol : string) (macd_signal : string).

(** The engine after one call. *)
Definition after (e : TradingEngine) (c : Call) : TradingEngine :=
  match c with
  | CallOpen client new_id now symbol side macd_signal =>
      (open_position e client new_id now symbol side macd_signal).1
  | CallClose client now now' symbol macd_signal =>
      (close_position e client now now' symbol macd_signal).1
  end.

(** The engine after a sequence of calls. *)
Definition after_all (e : TradingEngine) (calls : list Call) : TradingEngine :=
  fold_left after calls e.

(** The profits recorded on the closed trades, oldest first. *)
Definition closed_profits (e : TradingEngine) : list float :=
  omap (λ r, profit_loss <$> store e !! r) (closed_trades e).

(** The references of the ledger are sound: the counter of trades is the
    number of trade objects, every active position and every entry of a
    trade log is a trade of its symbol, and a closed trade is a closed
    object that is listed once and is no longer active. *)
Definition sound (e : TradingEngine) : Prop :=
  total_trades (stats e) = Z.of_nat (length (store e)) ∧
  (∀ symbol r, active_positions e !! symbol = Some r →
     ∃ t, store e !! r = Some t ∧ Engine.symbol t = symbol) ∧
  (∀ symbol rs r, trades e !! symbol = Some rs → r ∈ rs →
     ∃ t, store e !! r = Some t ∧ Engine.symbol t = symbol) ∧
  (∀ r, r ∈ closed_trades e →
     (∃ t, store e !! r = Some t ∧ status t = CLOSED) ∧
     ∀ symbol, active_positions e !! symbol ≠ Some r) ∧
  NoDup (closed_trades e).

(** The books of the ledger agree: the total capital is the initial
    capital plus the recorded profits of the closed trades, added in the
    order of closing, the running total of the statistics is their sum
    from zero, and the equity curve has one point per closed trade after
    its initial point, the last one at the total capital. *)
Definition balanced (e : TradingEngine) : Prop :=
  total_capital e
    = fold_left PrimFloat.add (closed_profits e) (initial_capital e) ∧
  total_profit_loss (stats e)
    = fold_left PrimFloat.add (closed_profits e) 0%float ∧
  length (equity_curve e) = S (length (closed_trades e)) ∧
  equity <$> last (equity_curve e) = Some (total_capital e).

(** Two round trips on one symbol, a long one and a short one, for the
    examples. *)
Definition example_calls : list Call :=
  [CallOpen (example_client 50000) "a1b2c3d4" 1%Z "BTCUSDT" LONG "GOLDEN_CROSS";
   CallClose (example_client 51000) 2%Z 3%Z "BTCUSDT" "DEAD_CROSS";
   CallOpen (example_client 51000) "e5f6a7b8" 4%Z "BTCUSDT" SHORT "MANUAL";
   CallClose (example_client 52000) 5%Z 6%Z "BTCUSDT" "MANUAL"].

(** Projections of an engine written out field by field. *)
Ltac fields :=
  cbn [with_last_error with_latency with_store with_stats
       initial_capital available_balance total_capital store trades
       active_positions closed_trades equity_curve stats network_latency
       last_error fst snd init].

End Engine.

(** ** app.py: the manual-position route *)

Module App.

Import Engine.

(** The JSON answers of [manual_position] that matter here. *)
Inductive Response :=
| Success (trade : nat)
| Failed400 (error : option ErrorMessage)
| AlreadyHasPosition (symbol : string)
| NoPositionToClose (symbol : string).

(** [manual_position(symbol, 'open')] with [side_str] read from the
    request body. *)
Definition manual_open (e : TradingEngine) (client : Client)
    (new_id : string) (now : Time) (symbol side_str : string)
  : TradingEngine * Response :=
  match active_positions e !! symbol with
  | Some _ => (e, AlreadyHasPosition symbol)
  | None =>
      let side := if bool_decide (side_str = "BUY") then LONG else SHORT in
      match open_position e client new_id now symbol side "MANUAL" with
      | (e', Some trade) => (e', Success trade)
      | (e', None) => (e', Failed400 (last_error e'))
      end
  end.

(** [manual_position(symbol, 'close')] *)
Definition manual_close (e : TradingEngine) (client : Client)
    (now now' : Time) (symbol : string) : TradingEngine * Response :=
  match active_positions e !! symbol with
  | None => (e, NoPositionToClose symbol)
  | Some _ =>
      match close_position e client now now' symbol "MANUAL" with
      | (e', Some trade) => (e', Success trade)
      | (e', None) => (e', Failed400 (last_error e'))
      end
  end.

End App.

(** ** macd_strategy.py: the registry of strategies *)

Module Multi.

Import MACD.

(** [MultiSymbolMACDStrategy]: the [strategies] dict, in insertion order. *)
Record MultiSymbolMACDStrategy := mkMulti {
  strategies : list (string * MACDStrategy)
}.

(** [MultiSymbolMACDStrategy.__init__] *)
Definition init : MultiSymbolMACDStrategy := mkMulti [].

(** [MultiSymbolMACDStrategy.add_symbol] *)
Definition add_symbol (m : MultiSymbolMACDStrategy) (symbol : string)
  : MultiSymbolMACDStrategy * MACDStrategy :=
  match Py.dict_get (strategies m) symbol with
  | Some s => (m, s)
  | None =>
      (mkMulti (Py.dict_set (strategies m) symbol default_strategy),
       default_strategy)
  end.

(** [MultiSymbolMACDStrategy.get_strategy] *)
Definition get_strategy (m : MultiSymbolMACDStrategy) (symbol : string)
  : option MACDStrategy :=
  Py.dict_get (strategies m) symbol.

Section Builtins.

(** [round(x, ndigits)] of the interpreter. *)
Variable round : float → Z → float.

(** [MultiSymbolMACDStrategy.update_kline]: the strategy of the symbol is
    created when missing, then fed; the result is [None] when [add_kline]
    raises. *)
Definition update_kline (m : MultiSymbolMACDStrategy) (symbol : string)
    (k : Kline) : MultiSymbolMACDStrategy * option MACDSignal :=
  let m1 := (add_symbol m symbol).1 in
  match Py.dict_get (strategies m1) symbol with
  | None => (m1, None)
  | Some s =>
      let '(s', out) := add_kline round s k in
      (mkMulti (Py.dict_set (strategies m1) symbol s'), out)
  end.

End Builtins.

(** [MultiSymbolMACDStrategy.get_signals]: the latest signal of every
    strategy that has one. *)
Definition get_signals (m : MultiSymbolMACDStrategy)
  : list (string * MACDSignal) :=
  omap (λ '(symbol, s), (λ latest, (symbol, latest)) <$> get_latest_signal s)
       (strategies m).

(** The loop shared by [get_buy_signals] and [get_sell_signals]. *)
Definition signals_of_kind (kind : SignalType) (m : MultiSymbolMACDStrategy)
  : list (string * MACDSignal) :=
  omap (λ '(symbol, s),
          match get_latest_signal s with
          | Some latest =>
              if decide (signal_type latest = kind)
              then Some (symbol, latest) else None
          | None => None
          end)
       (strategies m).

(** [MultiSymbolMACDStrategy.get_buy_signals] *)
Definition get_buy_signals (m : MultiSymbolMACDStrategy)
  : list (string * MACDSignal) :=
  signals_of_kind GOLDEN_CROSS m.

(** [MultiSymbolMACDStrategy.get_sell_signals] *)
Definition get_sell_signals (m : MultiSymbolMACDStrategy)
  : list (string * MACDSignal) :=
  signals_of_kind DEAD_CROSS m.

(** A registry in which BTCUSDT has been fed the first fourteen example
    bars, the last of which is a golden cross. *)
Definition example_registry : MultiSymbolMACDStrategy :=
  fold_left (λ m k, (update_kline (λ x _, x) m "BTCUSDT" k).1)
            (take 14 example_bars) init.

End Multi.

(** ** app.py: the signal loop *)

Module Loop.

Import MACD Engine.

(** The entries of [STRATEGY_CONFIG] that the loop reads. *)
Record Config := mkConfig {
  enabled : bool;
  symbols : list string;
  max_positions : Z
}.

(** What one turn of the loop reads from outside: the clock stamped on the
    bar, the exchange client, and the identifier and clocks that
    [open_position] and [close_position] would use. *)
Record Outside := mkOutside {
  clock : Time;
  client : Client;
  new_id : string;
  open_clock : Time;
  close_clock : Time;
  close_clock' : Time
}.

Section Builtins.

(** [round(x, ndigits)] of the interpreter. *)
Variable round : float → Z → float.

(** The body of the [for symbol in STRATEGY_CONFIG['symbols']] loop of
    [strategy_check_signals].  The flag is [false] when the body raises
    (a symbol without a strategy, or [add_kline] raising), which ends the
    loop. *)
Definition check_symbol (latest_klines : gmap string (option Collector.Bar))
    (max_positions : Z) (m : Multi.MultiSymbolMACDStrategy) (e : TradingEngine)
    (symbol : string) (o : Outside)
  : Multi.MultiSymbolMACDStrategy * TradingEngine * bool :=
  match latest_klines !! symbol with
  | None | Some None => (m, e, true)
  | Some (Some kline) =>
    match Py.dict_get (Multi.strategies m) symbol with
    | None => (m, e, false)
    | Some s =>
      let '(s', out) :=
        add_kline round s
          (mkKline (clock o) (Collector.open kline) (Collector.high kline)
                   (Collector.low kline) (Collector.close kline)
                   (Collector.volume kline)) in
      let m' := Multi.mkMulti (Py.dict_set (Multi.strategies m) symbol s') in
      match out with
      | None => (m', e, false)
      | Some signal =>
        let has_position := bool_decide (is_Some (active_positions e !! symbol)) in
        if bool_decide (signal_type signal = GOLDEN_CROSS) && negb has_position
        then
          if (Z.of_nat (size (active_positions e)) <? max_positions)%Z
          then (m',
                (open_position e (client o) (new_id o) (open_clock o) symbol LONG
                               (signal_type_str (signal_type signal))).1,
                true)
          else (m', e, true)
        else if bool_decide (signal_type signal = DEAD_CROSS) && has_position
        then (m',
              (close_position e (client o) (close_clock o) (close_clock' o)
                              symbol (signal_type_str (signal_type signal))).1,
              true)
        else (m', e, true)
      end
    end
  end.

(** The loop over the configured symbols; turn [i] reads [outside i]. *)
Fixpoint check_symbols (latest_klines : gmap string (option Collector.Bar))
    (max_positions : Z) (m : Multi.MultiSymbolMACDStrategy) (e : TradingEngine)
    (symbols : list string) (outside : nat → Outside) (i : nat)
  : Multi.MultiSymbolMACDStrategy * TradingEngine :=
  match symbols with
  | [] => (m, e)
  | symbol :: rest =>
      match check_symbol latest_klines max_positions m e symbol (outside i) with
      | (m', e', true) =>
          check_symbols latest_klines max_positions m' e' rest outside (S i)
      | (m', e', false) => (m', e')
      end
  end.

(** [strategy_check_signals] *)
Definition strategy_check_signals (config : Config)
    (collector : Collector.KlineCollector)
    (m : Multi.MultiSymbolMACDStrategy) (e : TradingEngine)
    (outside : nat → Outside)
  : Multi.MultiSymbolMACDStrategy * TradingEngine :=
  if enabled config
  then check_symbols (Collector.get_all_latest_klines collector)
                     (max_positions config) m e (symbols config) outside 0
  else (m, e).

End Builtins.

(** The loop [for symbol in list(trading_engine.active_positions.keys())]
    of [stop_strategy]: [keys] is the snapshot of the keys taken before the
    loop, in the order of the dict, and turn [i] reads [outside i].  The
    signal is the default of [close_position], the empty string. *)
Fixpoint close_all (e : TradingEngine) (keys : list string)
    (outside : nat → Outside) (i : nat) : TradingEngine :=
  match keys with
  | [] => e
  | symbol :: rest =>
      close_all
        (close_position e (client (outside i)) (close_clock (outside i))
                        (close_clock' (outside i)) symbol EmptyString).1
        rest outside (S i)
  end.

(** [stop_strategy]: the strategy is disabled, then every position of the
    snapshot is closed. *)
Definition stop_strategy (config : Config) (e : TradingEngine)
    (keys : list string) (outside : nat → Outside) : Config * TradingEngine :=
  (mkConfig false (symbols config) (max_positions config),
   close_all e keys outside 0).

(** What the examples read from outside, and a map of latest bars with
    one stored bar for BTCUSDT. *)
Definition example_outside (clock : Time) : Outside :=
  mkOutside clock (example_client 50000) "a1b2c3d4" clock clock clock.

Definition example_latest : gmap string (option Collector.Bar) :=
  {[ "BTCUSDT" := Some (Collector.mkBar 0 100 105 100 105 0 0) ]}.

End Loop.

(** * Properties *)

(** ** The signal engine *)

Module MACDFacts.

Import MACD.

Lemma ema_loop_length k prev rest :
  length (ema_loop k prev rest) = length rest.
Proof.
  revert prev. induction rest as [|x rest IH]; intros prev; simpl; auto.
Qed.

Lemma ema_loop_lookup rest : ∀ k prev i x,
  rest !! i = Some x →
  ∃ pv, (Some prev :: ema_loop k prev rest) !! i = Some (Some pv) ∧
        ema_loop k prev rest !! i = Some (Some (x * k + pv * (1 - k))%float).
Proof.
  induction rest as [|a rest IH]; intros k prev i x Hx.
  - destruct i; discriminate.
  - destruct i as [|i]; simpl in Hx.
    + injection Hx as ->. exists prev. split; reflexivity.
    + destruct (IH k (a * k + prev * (1 - k))%float i x Hx) as (pv & H1 & H2).
      exists pv. split; assumption.
Qed.

Lemma ema_unfold data p :
  (1 ≤ p)%nat → (p ≤ length data)%nat →
  _ema data p =
    Some (replicate (p - 1) None
            ++ Some (simple_average data p)
            :: ema_loop (smoothing p) (simple_average data p) (drop p data)).
Proof.
  intros Hp Hlen. unfold _ema, Py.int_truediv, Py.truediv_int.
  destruct (Nat.ltb_spec (length data) p) as [?|_]; [lia|].
  destruct (Z.eqb_spec (Z.of_nat p + 1) 0) as [?|_]; [lia|].
  destruct (Z.eqb_spec (Z.of_nat p) 0) as [?|_]; [lia|].
  reflexivity.
Qed.

Lemma ema_short data p :
  (length data < p)%nat → _ema data p = Some (replicate (length data) None).
Proof.
  intros H. unfold _ema.
  destruct (Nat.ltb_spec (length data) p) as [_|?]; [reflexivity|lia].
Qed.

Lemma ema_length data p out :
  (1 ≤ p)%nat → _ema data p = Some out → length out = length data.
Proof.
  intros Hp H. destruct (Nat.lt_ge_cases (length data) p) as [Hlt|Hge].
  - rewrite ema_short in H by assumption. injection H as <-.
    apply length_replicate.
  - rewrite ema_unfold in H by assumption. injection H as <-.
    rewrite length_app, length_replicate. simpl.
    rewrite ema_loop_length, length_drop. lia.
Qed.

(** C6: for every sequence and every period [p >= 1], [_ema] returns one
    entry per element; the entry is absent at every position reached
    before [p] elements have been seen (so a sequence shorter than [p] is
    absent throughout); the entry at position [p - 1] is the simple
    average of the first [p] elements; and every later entry is
    [current * k + previous * (1 - k)] with [k = 2 / (p + 1)]. *)
Theorem ema_absent_average_recurrence (data : list float) (p : nat) :
  (1 ≤ p)%nat →
  ∃ out,
    _ema data p = Some out ∧
    length out = length data ∧
    (∀ i, (i < length data)%nat → (i + 1 < p)%nat → out !! i = Some None) ∧
    ((length data < p)%nat → out = replicate (length data) None) ∧
    ((p ≤ length data)%nat →
       out !! (p - 1)%nat = Some (Some (simple_average data p))) ∧
    (∀ i x, (p ≤ i)%nat → data !! i = Some x →
       ∃ previous,
         out !! (i - 1)%nat = Some (Some previous) ∧
         out !! i
           = Some (Some (x * smoothing p + previous * (1 - smoothing p))%float)).
Proof.
  intros Hp. destruct (Nat.lt_ge_cases (length data) p) as [Hlt|Hge].
  - exists (replicate (length data) None).
    split; [apply ema_short; assumption|].
    split; [apply length_replicate|].
    split; [intros i Hi _; apply lookup_replicate_2; assumption|].
    split; [reflexivity|].
    split; [lia|].
    intros i x Hi Hx. apply lookup_lt_Some in Hx. lia.
  - eexists. split; [apply ema_unfold; assumption|].
    split.
    { rewrite length_app, length_replicate. simpl.
      rewrite ema_loop_length, length_drop. lia. }
    split.
    { intros i _ Hi. rewrite lookup_app_l by (rewrite length_replicate; lia).
      apply lookup_replicate_2. lia. }
    split; [lia|].
    split.
    { intros _. rewrite lookup_app_r by (rewrite length_replicate; lia).
      rewrite length_replicate, Nat.sub_diag. reflexivity. }
    intros i x Hi Hx.
    assert (Hd : drop p data !! (i - p)%nat = Some x).
    { rewrite lookup_drop. replace (p + (i - p))%nat with i by lia. exact Hx. }
    destruct (ema_loop_lookup _ (smoothing p) (simple_average data p) _ _ Hd)
      as (pv & H1 & H2).
    exists pv. split.
    + rewrite lookup_app_r by (rewrite length_replicate; lia).
      rewrite length_replicate.
      replace (i - 1 - (p - 1))%nat with (i - p)%nat by lia. exact H1.
    + rewrite lookup_app_r by (rewrite length_replicate; lia).
      rewrite length_replicate.
      replace (i - (p - 1))%nat with (S (i - p)) by lia. exact H2.
Qed.

Lemma ema_absent_average_recurrence_witness :
  (1 ≤ 3)%nat ∧
  ∃ out,
    _ema [1; 2; 3; 4]%float 3 = Some out ∧
    length out = 4%nat ∧
    out !! 1%nat = Some None ∧
    out !! 2%nat = Some (Some (simple_average [1; 2; 3; 4]%float 3)) ∧
    ∃ previous,
      out !! 2%nat = Some (Some previous) ∧
      out !! 3%nat
        = Some (Some (4 * smoothing 3 + previous * (1 - smoothing 3))%float).
Proof.
  split; [lia|].
  destruct (ema_absent_average_recurrence [1; 2; 3; 4]%float 3)
    as (out & Hout & Hlen & Habsent & _ & Havg & Hrec); [lia|].
  exists out. split; [exact Hout|]. split; [exact Hlen|].
  split; [apply Habsent; simpl; lia|].
  split; [apply Havg; simpl; lia|].
  apply (Hrec 3%nat 4%float); [lia|reflexivity].
Defined.

Lemma ema_loop_constant k v n :
  (v * k + v * (1 - k))%float = v →
  ema_loop k v (replicate n v) = replicate n (Some v).
Proof.
  intros Hstep. induction n as [|n IH]; simpl; [reflexivity|].
  rewrite Hstep, IH. reflexivity.
Qed.

(** C9, as the code has it: on a series of [n >= p] copies of [v], every
    defined entry of [_ema] is [v] whenever the two float computations
    involved reproduce [v] exactly, namely the average of [p] copies of
    [v] and one smoothing step [v * k + v * (1 - k)]. *)
Theorem ema_constant_series_when_exact (v : float) (p n : nat) :
  (1 ≤ p)%nat → (p ≤ n)%nat →
  simple_average (replicate p v) p = v →
  (v * smoothing p + v * (1 - smoothing p))%float = v →
  _ema (replicate n v) p
    = Some (replicate (p - 1) None ++ replicate (n - p + 1) (Some v)).
Proof.
  intros Hp Hn Havg Hstep.
  rewrite ema_unfold by (rewrite ?length_replicate; lia).
  assert (Hsma : simple_average (replicate n v) p = v).
  { unfold simple_average in *. rewrite take_replicate in *.
    rewrite Nat.min_id in Havg. rewrite Nat.min_l by lia. exact Havg. }
  rewrite Hsma, drop_replicate, ema_loop_constant by exact Hstep.
  replace (n - p + 1)%nat with (S (n - p)) by lia. reflexivity.
Qed.

Lemma ema_constant_series_when_exact_witness :
  ((1 ≤ 5)%nat ∧ (5 ≤ 8)%nat ∧
   simple_average (replicate 5 100%float) 5 = 100%float ∧
   (100 * smoothing 5 + 100 * (1 - smoothing 5))%float = 100%float) ∧
  _ema (replicate 8 100%float) 5
    = Some (replicate 4 None ++ replicate 4 (Some 100%float)).
Proof.
  split.
  - split; [lia|split; [lia|split; vm_compute; reflexivity]].
  - apply (ema_constant_series_when_exact 100%float 5 8);
      try lia; vm_compute; reflexivity.
Defined.

(** C9 as stated fails: six bars at 15 with period 5 give a second defined
    value that is not 15 (the smoothing step rounds). *)
Lemma ema_constant_series_counterexample :
  ¬ (∀ (v : float) (p n i : nat) (out : list (option float)) (y : float),
       (1 ≤ p)%nat → (p ≤ n)%nat →
       _ema (replicate n v) p = Some out → out !! i = Some (Some y) →
       (y =? v)%float = true).
Proof.
  intros claim.
  destruct (_ema (replicate 6 15%float) 5) as [out|] eqn:Hout;
    [|vm_compute in Hout; discriminate].
  destruct (out !! 5%nat) as [[y|]|] eqn:Hy;
    vm_compute in Hout; injection Hout as <-;
    vm_compute in Hy; try discriminate.
  injection Hy as <-.
  specialize (claim 15%float 5%nat 6%nat 5%nat _ _ ltac:(lia) ltac:(lia)
                    eq_refl eq_refl).
  vm_compute in claim. discriminate.
Qed.

Lemma negative_not_rising h :
  (h <? 0)%float = true → (0 <=? h)%float = false.
Proof.
  rewrite FloatAxioms.ltb_spec, FloatAxioms.leb_spec.
  unfold SFltb, SFleb.
  replace (Prim2SF 0) with (S754_zero false) by reflexivity.
  destruct (Prim2SF h) as [s|s| |s m e]; simpl; try discriminate;
    destruct s; simpl; congruence.
Qed.

Lemma ema_defined data p :
  (1 ≤ p)%nat → ∃ out, _ema data p = Some out ∧ length out = length data.
Proof.
  intros Hp. destruct (_ema data p) as [out|] eqn:H.
  - exists out. split; [reflexivity|]. exact (ema_length _ _ _ Hp H).
  - destruct (Nat.lt_ge_cases (length data) p) as [Hlt|Hge].
    + rewrite ema_short in H by assumption. discriminate.
    + rewrite ema_unfold in H by assumption. discriminate.
Qed.

Lemma chain_not_raised fast slow sig closes :
  (1 ≤ fast)%nat → (1 ≤ slow)%nat → (1 ≤ sig)%nat →
  chain fast slow sig closes ≠ Raised.
Proof.
  intros Hf Hs Hg. unfold chain.
  destruct (_ <? _)%Z; [discriminate|].
  destruct (ema_defined closes fast Hf) as (ef & -> & _).
  destruct (ema_defined closes slow Hs) as (es & -> & _).
  cbv zeta.
  destruct (Nat.ltb_spec (length (macd_values (macd_line ef es))) sig)
    as [?|Hlen]; [discriminate|].
  destruct (ema_defined (macd_values (macd_line ef es)) sig Hg) as (sl & -> & _).
  destruct (last (macd_values (macd_line ef es))) eqn:Hlast; [discriminate|].
  apply last_None in Hlast. rewrite Hlast in Hlen. simpl in Hlen. lia.
Qed.

Lemma sign_neg h :
  sign_of h = Neg → (h <? 0)%float = true ∧ (0 <=? h)%float = false.
Proof.
  unfold sign_of. destruct (h <? 0)%float eqn:Hlt.
  - intros _. split; [reflexivity|]. apply negative_not_rising, Hlt.
  - destruct (0 <=? h)%float; discriminate.
Qed.

Lemma sign_pos h :
  sign_of h = Pos → (h <? 0)%float = false ∧ (0 <=? h)%float = true.
Proof.
  unfold sign_of. destruct (h <? 0)%float; [discriminate|].
  destruct (0 <=? h)%float; [auto|discriminate].
Qed.

Lemma kinds_of_signs hs :
  map sign_of hs = [Neg; Neg; Pos; Pos; Neg] →
  kinds_from None hs = [NONE; NONE; GOLDEN_CROSS; NONE; DEAD_CROSS].
Proof.
  destruct hs as [|h1 [|h2 [|h3 [|h4 [|h5 [|h6 hs]]]]]]; try discriminate.
  intros H. injection H as H1 H2 H3 H4 H5.
  apply sign_neg in H1 as [L1 R1]. apply sign_neg in H2 as [L2 R2].
  apply sign_pos in H3 as [L3 R3]. apply sign_pos in H4 as [L4 R4].
  apply sign_neg in H5 as [L5 R5].
  simpl. rewrite L1, L2, L3, L4, L5, R1, R2, R3, R4. reflexivity.
Qed.

Lemma add_kline_defined round s k m sg h :
  chain (fast_period s) (slow_period s) (signal_period s)
        (map k_close (klines_history s) ++ [k_close k]) = Defined m sg h →
  add_kline round s k =
    (mkStrategy (fast_period s) (slow_period s) (signal_period s)
       (klines_history s ++ [k])
       (macd_history s
          ++ [mkSignal (k_timestamp k) (k_close k) (round m 8%Z) (round sg 8%Z)
                       (round h 8%Z) (crossover_rule (prev_histogram s) h)])
       (Some h),
     Some (mkSignal (k_timestamp k) (k_close k) (round m 8%Z) (round sg 8%Z)
                    (round h 8%Z) (crossover_rule (prev_histogram s) h))).
Proof.
  intros H. unfold add_kline. cbn [klines_history prev_histogram macd_history].
  rewrite map_app. cbn [map]. rewrite H. unfold crossover_rule.
  destruct (prev_histogram s); reflexivity.
Qed.

Lemma add_kline_warmup round s k :
  chain (fast_period s) (slow_period s) (signal_period s)
        (map k_close (klines_history s) ++ [k_close k]) = Warmup →
  add_kline round s k =
    (mkStrategy (fast_period s) (slow_period s) (signal_period s)
       (klines_history s ++ [k]) (macd_history s) (prev_histogram s),
     Some (mkSignal (k_timestamp k) (k_close k) 0 0 0 NONE)).
Proof.
  intros H. unfold add_kline. cbn [klines_history prev_histogram macd_history].
  rewrite map_app. cbn [map]. rewrite H. reflexivity.
Qed.

Lemma feed_cons_state round s k bars :
  (feed round s (k :: bars)).1 = (feed round (add_kline round s k).1 bars).1.
Proof.
  cbn [feed]. destruct (add_kline round s k) as [s1 out]. cbn [fst].
  destruct (feed round s1 bars) as [s2 outs]. reflexivity.
Qed.

Lemma feed_kinds round bars : ∀ s,
  (1 ≤ fast_period s)%nat → (1 ≤ slow_period s)%nat →
  (1 ≤ signal_period s)%nat →
  map signal_type (macd_history (feed round s bars).1)
    = map signal_type (macd_history s)
        ++ kinds_from (prev_histogram s)
             (histograms (fast_period s) (slow_period s) (signal_period s)
                         (map k_close (klines_history s)) (map k_close bars)).
Proof.
  induction bars as [|k bars IH]; intros s Hf Hs Hg.
  - simpl. rewrite app_nil_r. reflexivity.
  - rewrite feed_cons_state. cbn [map histograms]. unfold histogram_at.
    destruct (chain (fast_period s) (slow_period s) (signal_period s)
                    (map k_close (klines_history s) ++ [k_close k]))
      as [| |m sg h] eqn:Hc.
    + rewrite (add_kline_warmup _ _ _ Hc). cbn [fst].
      rewrite IH by assumption.
      cbn [fast_period slow_period signal_period klines_history macd_history
           prev_histogram].
      rewrite map_app. reflexivity.
    + exfalso. exact (chain_not_raised _ _ _ _ Hf Hs Hg Hc).
    + rewrite (add_kline_defined _ _ _ _ _ _ Hc). cbn [fst].
      rewrite IH by assumption.
      cbn [fast_period slow_period signal_period klines_history macd_history
           prev_histogram kinds_from].
      rewrite !map_app. cbn [map signal_type]. rewrite <- app_assoc.
      reflexivity.
Qed.

(** C5: on a bar whose histogram [h] is defined, [add_kline] emits the
    kind that the crossover rule assigns to the stored previous histogram
    and [h], and stores [h]; on a bar without a defined histogram it emits
    NONE and keeps the stored value, so the stored value is always the
    previous defined histogram.  Hence a fresh engine emits, over the bars
    with a defined histogram, the kinds of the rule run from no
    predecessor: the first is NONE, and signs [neg, neg, pos, pos, neg]
    give [NONE, NONE, GOLDEN_CROSS, NONE, DEAD_CROSS]. *)
Theorem crossover_determined_by_previous_histogram :
  (∀ round s k m sg h,
     chain (fast_period s) (slow_period s) (signal_period s)
           (map k_close (klines_history s) ++ [k_close k]) = Defined m sg h →
     ∃ s' out,
       add_kline round s k = (s', Some out) ∧
       signal_type out = crossover_rule (prev_histogram s) h ∧
       prev_histogram s' = Some h ∧
       macd_history s' = macd_history s ++ [out]) ∧
  (∀ round s k,
     chain (fast_period s) (slow_period s) (signal_period s)
           (map k_close (klines_history s) ++ [k_close k]) = Warmup →
     ∃ s' out,
       add_kline round s k = (s', Some out) ∧
       signal_type out = NONE ∧
       prev_histogram s' = prev_histogram s ∧
       macd_history s' = macd_history s) ∧
  (∀ current, crossover_rule None current = NONE) ∧
  (∀ round fast slow sig bars,
     (1 ≤ fast)%nat → (1 ≤ slow)%nat → (1 ≤ sig)%nat →
     map signal_type (macd_history (feed round (init fast slow sig) bars).1)
       = kinds_from None (histograms fast slow sig [] (map k_close bars))) ∧
  (∀ round fast slow sig bars,
     (1 ≤ fast)%nat → (1 ≤ slow)%nat → (1 ≤ sig)%nat →
     map sign_of (histograms fast slow sig [] (map k_close bars))
       = [Neg; Neg; Pos; Pos; Neg] →
     map signal_type (macd_history (feed round (init fast slow sig) bars).1)
       = [NONE; NONE; GOLDEN_CROSS; NONE; DEAD_CROSS]).
Proof.
  split; [|split; [|split; [|split]]].
  - intros round s k m sg h Hc. do 2 eexists.
    split; [apply add_kline_defined; exact Hc|]. auto.
  - intros round s k Hc. do 2 eexists.
    split; [apply add_kline_warmup; exact Hc|]. auto.
  - reflexivity.
  - intros round fast slow sig bars Hf Hs Hg.
    apply (feed_kinds round bars (init fast slow sig)); assumption.
  - intros round fast slow sig bars Hf Hs Hg Hsigns.
    rewrite (feed_kinds round bars (init fast slow sig)) by assumption.
    apply kinds_of_signs, Hsigns.
Qed.

Lemma crossover_determined_by_previous_histogram_witness :
  ((1 ≤ 5)%nat ∧ (1 ≤ 10)%nat ∧ (1 ≤ 3)%nat ∧
   map sign_of (histograms 5 10 3 [] (map k_close example_bars))
     = [Neg; Neg; Pos; Pos; Neg]) ∧
  map signal_type
      (macd_history (feed (λ x _, x) (init 5 10 3) example_bars).1)
    = [NONE; NONE; GOLDEN_CROSS; NONE; DEAD_CROSS].
Proof.
  split.
  - split; [lia|split; [lia|split; [lia|vm_compute; reflexivity]]].
  - destruct crossover_determined_by_previous_histogram
      as (_ & _ & _ & _ & Hsigns).
    apply Hsigns; try lia. vm_compute. reflexivity.
Defined.
End MACDFacts.

(** ** The bar aggregator *)

Module CollectorFacts.

Import Collector.

Lemma update_creates c symbol price_data now ms :
  current_kline c !! symbol = None →
  timestamp_ms now = Some ms →
  _update_kline c symbol (Some price_data) now
    = with_last_update (with_current c symbol (seeded_bar ms price_data))
                       symbol now.
Proof. intros Hc Hms. unfold _update_kline. rewrite Hc, Hms. reflexivity. Qed.

Lemma update_within c symbol price_data now cur t0 d ms :
  current_kline c !! symbol = Some cur →
  last_update c !! symbol = Some t0 →
  total_seconds now t0 = Some d →
  (Py.float_of_Z (kline_interval c) <=? d)%float = false →
  timestamp_ms now = Some ms →
  _update_kline c symbol (Some price_data) now
    = with_current c symbol
        (mkBar (open_time cur) (open cur)
               (Py.max (high cur) (p_close price_data))
               (Py.min (low cur) (p_close price_data))
               (p_close price_data) (volume cur) ms).
Proof.
  intros Hc Hl Hd Hlt Hms. unfold _update_kline.
  rewrite Hc, Hl. cbn [from_option id]. cbv zeta. rewrite Hd, Hlt, Hms. reflexivity.
Qed.

Lemma update_finalizes c symbol price_data now cur t0 d closed_ms ms :
  current_kline c !! symbol = Some cur →
  last_update c !! symbol = Some t0 →
  total_seconds now t0 = Some d →
  (Py.float_of_Z (kline_interval c) <=? d)%float = true →
  timestamp_ms t0 = Some closed_ms →
  timestamp_ms now = Some ms →
  _update_kline c symbol (Some price_data) now
    = with_last_update
        (with_current
           (with_klines (with_current c symbol (stamped cur closed_ms)) symbol
              (capped (history c symbol ++ [stamped cur closed_ms])))
           symbol (seeded_bar ms price_data))
        symbol now.
Proof.
  intros Hc Hl Hd Hge Hcl Hms. unfold _update_kline.
  rewrite Hc, Hl. cbn [from_option id]. cbv zeta. rewrite Hd, Hge, Hcl.
  cbn [with_current with_klines history klines current_kline kline_interval
       last_update symbols is_collecting].
  rewrite Hms. reflexivity.
Qed.

Lemma capped_short l : (length l ≤ 1000)%nat → capped l = l.
Proof.
  intros H. unfold capped.
  destruct (Nat.ltb_spec 1000 (length l)); [lia|reflexivity].
Qed.

Lemma capped_subseteq l : capped l ⊆ l.
Proof.
  unfold capped, Py.last_slice. destruct (1000 <? length l)%nat; [|done].
  cbn. intros x Hx. apply list_elem_of_lookup in Hx as [i Hi].
  rewrite lookup_drop in Hi. apply list_elem_of_lookup. eauto.
Qed.

Lemma stamps_agree_init interval : stamps_agree (init interval).
Proof.
  split.
  - intros symbol cur H. cbn in H. rewrite lookup_empty in H. discriminate.
  - intros symbol bar. unfold history. cbn. rewrite lookup_empty. cbn.
    intros H. apply elem_of_nil in H. contradiction.
Qed.

Lemma stamps_agree_current c symbol b :
  stamps_agree c →
  (∃ t0, last_update c !! symbol = Some t0 ∧
         timestamp_ms t0 = Some (open_time b)) →
  stamps_agree (with_current c symbol b).
Proof.
  intros [Ha Hb] Hnew. split; [|exact Hb].
  intros s cur. cbn [with_current current_kline last_update].
  destruct (decide (symbol = s)) as [<-|Hne].
  - rewrite lookup_insert_eq. intros [= <-]. exact Hnew.
  - rewrite lookup_insert_ne by exact Hne. apply Ha.
Qed.

Lemma stamps_agree_opened c symbol ms price_data now :
  stamps_agree c →
  timestamp_ms now = Some ms →
  stamps_agree
    (with_last_update (with_current c symbol (seeded_bar ms price_data))
                      symbol now).
Proof.
  intros [Ha Hb] Hms. split; [|exact Hb].
  intros s cur. cbn [with_last_update with_current current_kline last_update].
  destruct (decide (symbol = s)) as [<-|Hne].
  - rewrite !lookup_insert_eq. intros [= <-]. exists now. auto.
  - rewrite !lookup_insert_ne by exact Hne. apply Ha.
Qed.

Lemma stamps_agree_stored c symbol bar :
  stamps_agree c →
  close_time bar = open_time bar →
  stamps_agree (with_klines c symbol (capped (history c symbol ++ [bar]))).
Proof.
  intros [Ha Hb] Hbar. split; [exact Ha|].
  intros s b. unfold history. cbn [with_klines klines].
  destruct (decide (symbol = s)) as [<-|Hne].
  - rewrite lookup_insert_eq. cbn [from_option id]. intros Hin.
    apply capped_subseteq in Hin. apply elem_of_app in Hin as [Hin|Hin].
    + apply (Hb symbol), Hin.
    + apply list_elem_of_singleton in Hin as ->. exact Hbar.
  - rewrite lookup_insert_ne by exact Hne. apply Hb.
Qed.

Lemma stamps_agree_update c symbol price_data now :
  stamps_agree c → stamps_agree (_update_kline c symbol price_data now).
Proof.
  intros Hinv. unfold _update_kline.
  destruct price_data as [price_data|]; [|exact Hinv].
  destruct (current_kline c !! symbol) as [cur|] eqn:Hcur.
  - destruct (proj1 Hinv _ _ Hcur) as (t0 & Hl & Ht0).
    rewrite Hl. cbn [from_option id]. cbv zeta.
    destruct (total_seconds now t0) as [d|]; [|exact Hinv].
    destruct (Py.float_of_Z (kline_interval c) <=? d)%float.
    + rewrite Ht0.
      assert (Hstored : stamps_agree
                (with_klines (with_current c symbol (stamped cur (open_time cur)))
                   symbol
                   (capped (history (with_current c symbol
                                       (stamped cur (open_time cur))) symbol
                              ++ [stamped cur (open_time cur)])))).
      { apply stamps_agree_stored; [|reflexivity].
        apply stamps_agree_current; [exact Hinv|]. exists t0. auto. }
      destruct (timestamp_ms now) as [ms|] eqn:Hms; [|exact Hstored].
      apply stamps_agree_opened; assumption.
    + destruct (timestamp_ms now) as [ms|];
        (apply stamps_agree_current; [exact Hinv|]; exists t0; auto).
  - destruct (timestamp_ms now) as [ms|] eqn:Hms; [|exact Hinv].
    apply stamps_agree_opened; assumption.
Qed.

Lemma stamps_agree_run ticks : ∀ c, stamps_agree c → stamps_agree (run c ticks).
Proof.
  induction ticks as [|[[symbol price_data] now] ticks IH]; intros c Hc.
  - exact Hc.
  - apply IH, stamps_agree_update, Hc.
Qed.

(** C2 (the code departs from it): every bar that [_update_kline] stores
    carries a closing stamp equal to its opening stamp, so
    [open_time < close_time] holds for none of them; with interval 30 and
    ticks at 0, 10 and 35 seconds the stored bar has both stamps at 0. *)
Theorem finalized_bar_close_time_is_open_time :
  (∀ interval ticks symbol,
     Forall (λ bar, close_time bar = open_time bar)
            (history (run (init interval) ticks) symbol)) ∧
  history (run (init 30) (example_ticks "BTCUSDT")) "BTCUSDT"
    = [mkBar 0 100 105 100 105 0 0] ∧
  Forall (λ bar, ¬ (open_time bar < close_time bar)%Z)
         (history (run (init 30) (example_ticks "BTCUSDT")) "BTCUSDT").
Proof.
  split; [|split].
  - intros interval ticks symbol. apply Forall_forall. intros bar Hbar.
    exact (proj2 (stamps_agree_run ticks _ (stamps_agree_init interval))
                 symbol bar Hbar).
  - vm_compute. reflexivity.
  - apply Forall_forall. intros bar Hbar.
    pose proof (proj2 (stamps_agree_run (example_ticks "BTCUSDT") _
                         (stamps_agree_init 30)) _ _ Hbar) as Heq.
    lia.
Qed.

Lemma example_run symbol :
  run (init 30) (example_ticks symbol)
    = with_last_update
        (with_current
           (with_klines
              (with_current
                 (with_current
                    (with_last_update
                       (with_current (init 30) symbol
                                     (seeded_bar 0 (snapshot 100)))
                       symbol (seconds 0))
                    symbol (mkBar 0 100 105 100 105 0 10000))
                 symbol (mkBar 0 100 105 100 105 0 0))
              symbol [mkBar 0 100 105 100 105 0 0])
           symbol (seeded_bar 35000 (snapshot 95)))
        symbol (seconds 35).
Proof.
  unfold run, example_ticks. cbn [fold_left].
  rewrite (update_creates (init 30) symbol (snapshot 100) (seconds 0) 0);
    [|cbn; apply lookup_empty|reflexivity].
  erewrite (update_within _ symbol (snapshot 105) (seconds 10) _ (seconds 0)
                          10%float 10000);
    [|cbn; apply lookup_insert_eq|cbn; apply lookup_insert_eq
     |reflexivity|reflexivity|reflexivity].
  erewrite (update_finalizes _ symbol (snapshot 95) (seconds 35) _ (seconds 0)
                             35%float 0 35000);
    [|cbn; apply lookup_insert_eq|cbn; apply lookup_insert_eq
     |reflexivity|reflexivity|reflexivity|reflexivity].
  unfold history.
  cbn [with_current with_last_update with_klines klines current_kline
       last_update kline_interval symbols is_collecting init].
  rewrite lookup_empty. reflexivity.
Qed.

(** C7: for every symbol, a tick with no bar in progress opens one with
    open = high = low = close = the snapshot close and volume 0; a tick
    closer than the interval to the recorded clock of the bar raises the
    high to [max(high, close)], lowers the low to [min(low, close)] and
    sets the close; a tick at or beyond the interval appends the bar in
    progress to the history and opens a new one seeded from the snapshot
    close.  With interval 30 and ticks (0, 100), (10, 105), (35, 95) the
    history holds the bar 100/105/100/105 and the bar in progress is
    95/95/95/95. *)
Theorem tick_opens_updates_finalizes :
  (∀ c symbol price_data now ms,
     current_kline c !! symbol = None →
     timestamp_ms now = Some ms →
     let c' := _update_kline c symbol (Some price_data) now in
     current_kline c' !! symbol
       = Some (mkBar ms (p_close price_data) (p_close price_data)
                     (p_close price_data) (p_close price_data) 0 ms) ∧
     last_update c' !! symbol = Some now ∧
     klines c' = klines c) ∧
  (∀ c symbol price_data now cur t0 elapsed ms,
     current_kline c !! symbol = Some cur →
     last_update c !! symbol = Some t0 →
     total_seconds now t0 = Some elapsed →
     (Py.float_of_Z (kline_interval c) <=? elapsed)%float = false →
     timestamp_ms now = Some ms →
     let c' := _update_kline c symbol (Some price_data) now in
     current_kline c' !! symbol
       = Some (mkBar (open_time cur) (open cur)
                     (Py.max (high cur) (p_close price_data))
                     (Py.min (low cur) (p_close price_data))
                     (p_close price_data) (volume cur) ms) ∧
     last_update c' = last_update c ∧
     klines c' = klines c) ∧
  (∀ c symbol price_data now cur t0 elapsed closed_ms ms,
     current_kline c !! symbol = Some cur →
     last_update c !! symbol = Some t0 →
     total_seconds now t0 = Some elapsed →
     (Py.float_of_Z (kline_interval c) <=? elapsed)%float = true →
     timestamp_ms t0 = Some closed_ms →
     timestamp_ms now = Some ms →
     let c' := _update_kline c symbol (Some price_data) now in
     history c' symbol = capped (history c symbol ++ [stamped cur closed_ms]) ∧
     current_kline c' !! symbol
       = Some (mkBar ms (p_close price_data) (p_close price_data)
                     (p_close price_data) (p_close price_data) 0 ms) ∧
     last_update c' !! symbol = Some now) ∧
  (∀ symbol,
     current_kline (run (init 30) (take 1 (example_ticks symbol))) !! symbol
       = Some (mkBar 0 100 100 100 100 0 0) ∧
     current_kline (run (init 30) (take 2 (example_ticks symbol))) !! symbol
       = Some (mkBar 0 100 105 100 105 0 10000) ∧
     history (run (init 30) (take 2 (example_ticks symbol))) symbol = [] ∧
     (∃ stamp,
        history (run (init 30) (example_ticks symbol)) symbol
          = [mkBar 0 100 105 100 105 0 stamp]) ∧
     current_kline (run (init 30) (example_ticks symbol)) !! symbol
       = Some (mkBar 35000 95 95 95 95 0 35000)).
Proof.
  split; [|split; [|split]].
  - intros c symbol price_data now ms Hc Hms c'. subst c'.
    rewrite (update_creates _ _ _ _ _ Hc Hms).
    cbn [with_last_update with_current current_kline last_update klines].
    rewrite !lookup_insert_eq. auto.
  - intros c symbol price_data now cur t0 d ms Hc Hl Hd Hlt Hms c'. subst c'.
    rewrite (update_within _ _ _ _ _ _ _ _ Hc Hl Hd Hlt Hms).
    cbn [with_current current_kline last_update klines].
    rewrite lookup_insert_eq. auto.
  - intros c symbol price_data now cur t0 d closed_ms ms Hc Hl Hd Hge Hcl Hms c'.
    subst c'. rewrite (update_finalizes _ _ _ _ _ _ _ _ _ Hc Hl Hd Hge Hcl Hms).
    unfold history.
    cbn [with_last_update with_current with_klines current_kline last_update
         klines].
    rewrite !lookup_insert_eq. auto.
  - intros symbol. split; [|split; [|split; [|split]]].
    + unfold run, example_ticks. cbn [take fold_left].
      rewrite (update_creates (init 30) symbol (snapshot 100) (seconds 0) 0);
        [|cbn; apply lookup_empty|reflexivity].
      cbn. apply lookup_insert_eq.
    + unfold run, example_ticks. cbn [take fold_left].
      rewrite (update_creates (init 30) symbol (snapshot 100) (seconds 0) 0);
        [|cbn; apply lookup_empty|reflexivity].
      erewrite (update_within _ symbol (snapshot 105) (seconds 10) _ (seconds 0)
                              10%float 10000);
        [|cbn; apply lookup_insert_eq|cbn; apply lookup_insert_eq
         |reflexivity|reflexivity|reflexivity].
      cbn. apply lookup_insert_eq.
    + unfold run, example_ticks. cbn [take fold_left].
      rewrite (update_creates (init 30) symbol (snapshot 100) (seconds 0) 0);
        [|cbn; apply lookup_empty|reflexivity].
      erewrite (update_within _ symbol (snapshot 105) (seconds 10) _ (seconds 0)
                              10%float 10000);
        [|cbn; apply lookup_insert_eq|cbn; apply lookup_insert_eq
         |reflexivity|reflexivity|reflexivity].
      unfold history. cbn. rewrite lookup_empty. reflexivity.
    + exists 0%Z. rewrite example_run. unfold history.
      cbn [with_last_update with_current with_klines klines].
      rewrite lookup_insert_eq. reflexivity.
    + rewrite example_run.
      cbn [with_last_update with_current current_kline].
      rewrite lookup_insert_eq. reflexivity.
Qed.

Lemma tick_opens_updates_finalizes_witness :
  let c0 := init 30 in
  let c1 := run c0 (take 1 (example_ticks "BTCUSDT")) in
  let c2 := run c0 (take 2 (example_ticks "BTCUSDT")) in
  let c3 := _update_kline c2 "BTCUSDT" (Some (snapshot 95)) (seconds 35) in
  (current_kline c0 !! "BTCUSDT" = None ∧
   timestamp_ms (seconds 0) = Some 0%Z) ∧
  (current_kline c1 !! "BTCUSDT" = Some (mkBar 0 100 100 100 100 0 0) ∧
   last_update c1 !! "BTCUSDT" = Some (seconds 0) ∧
   total_seconds (seconds 10) (seconds 0) = Some 10%float ∧
   (Py.float_of_Z (kline_interval c1) <=? 10)%float = false ∧
   timestamp_ms (seconds 10) = Some 10000%Z) ∧
  (current_kline c2 !! "BTCUSDT" = Some (mkBar 0 100 105 100 105 0 10000) ∧
   last_update c2 !! "BTCUSDT" = Some (seconds 0) ∧
   total_seconds (seconds 35) (seconds 0) = Some 35%float ∧
   (Py.float_of_Z (kline_interval c2) <=? 35)%float = true ∧
   timestamp_ms (seconds 35) = Some 35000%Z) ∧
  current_kline (_update_kline c0 "BTCUSDT" (Some (snapshot 100)) (seconds 0))
    !! "BTCUSDT" = Some (mkBar 0 100 100 100 100 0 0) ∧
  current_kline (_update_kline c1 "BTCUSDT" (Some (snapshot 105)) (seconds 10))
    !! "BTCUSDT" = Some (mkBar 0 100 105 100 105 0 10000) ∧
  history c3 "BTCUSDT"
    = capped (history c2 "BTCUSDT"
                ++ [stamped (mkBar 0 100 105 100 105 0 10000) 0]) ∧
  current_kline c3 !! "BTCUSDT" = Some (mkBar 35000 95 95 95 95 0 35000).
Proof.
  intros c0 c1 c2 c3.
  destruct tick_opens_updates_finalizes as (Hopen & Hupdate & Hfinal & _).
  assert (H0 : current_kline c0 !! "BTCUSDT" = None ∧
               timestamp_ms (seconds 0) = Some 0%Z)
    by (split; vm_compute; reflexivity).
  assert (H1 : current_kline c1 !! "BTCUSDT" = Some (mkBar 0 100 100 100 100 0 0) ∧
               last_update c1 !! "BTCUSDT" = Some (seconds 0) ∧
               total_seconds (seconds 10) (seconds 0) = Some 10%float ∧
               (Py.float_of_Z (kline_interval c1) <=? 10)%float = false ∧
               timestamp_ms (seconds 10) = Some 10000%Z)
    by (repeat apply conj; vm_compute; reflexivity).
  assert (H2 : current_kline c2 !! "BTCUSDT"
                 = Some (mkBar 0 100 105 100 105 0 10000) ∧
               last_update c2 !! "BTCUSDT" = Some (seconds 0) ∧
               total_seconds (seconds 35) (seconds 0) = Some 35%float ∧
               (Py.float_of_Z (kline_interval c2) <=? 35)%float = true ∧
               timestamp_ms (seconds 35) = Some 35000%Z)
    by (repeat apply conj; vm_compute; reflexivity).
  split; [exact H0|]. split; [exact H1|]. split; [exact H2|].
  destruct H0 as (A1 & A2).
  destruct H1 as (B1 & B2 & B3 & B4 & B5).
  destruct H2 as (C1 & C2 & C3 & C4 & C5).
  split; [exact (proj1 (Hopen c0 _ (snapshot 100) _ _ A1 A2))|].
  split; [exact (proj1 (Hupdate c1 _ (snapshot 105) _ _ _ _ _ B1 B2 B3 B4 B5))|].
  destruct (Hfinal c2 _ (snapshot 95) _ _ _ _ _ _ C1 C2 C3 C4
                   (eq_refl : timestamp_ms (seconds 0) = Some 0%Z) C5)
    as (D1 & D2 & _).
  split; [exact D1|exact D2].
Defined.
End CollectorFacts.

(** ** The portfolio ledger *)

Module EngineFacts.

Import Engine.

Lemma drawdown_loop_spec curve : ∀ peak max_dd,
  drawdown_loop peak max_dd curve
    = (dds ← sequence (zip_with (λ peak eq, Py.truediv (peak - eq) peak)
                                (running_peaks peak curve) curve);
       Some (fold_left Py.max dds max_dd)).
Proof.
  induction curve as [|eq rest IH]; intros peak max_dd; [reflexivity|].
  cbn [drawdown_loop running_peaks zip_with sequence].
  change (if (peak <? eq)%float then eq else peak) with (Py.max peak eq).
  destruct (Py.truediv (Py.max peak eq - eq) (Py.max peak eq)) as [dd|];
    [|reflexivity].
  cbn [mbind option_bind]. rewrite IH.
  destruct (sequence _) as [dds|]; reflexivity.
Qed.

Lemma compute_max_drawdown_spec curve :
  compute_max_drawdown curve = maximum_drawdown curve.
Proof.
  destruct curve as [|first rest]; [reflexivity|].
  unfold compute_max_drawdown, maximum_drawdown, drawdowns.
  apply drawdown_loop_spec.
Qed.

Lemma update_stats_max_drawdown e e' :
  _update_stats e = (e', true) →
  equity_curve e ≠ [] →
  compute_max_drawdown (map equity (equity_curve e))
    = Some (max_drawdown (stats e')).
Proof.
  unfold _update_stats. intros H Hne.
  destruct (Py.truediv _ _) as [q|]; [|discriminate].
  cbn [with_stats equity_curve] in H.
  destruct (equity_curve e) as [|pt curve] eqn:Hcurve; [contradiction|].
  destruct (compute_max_drawdown (map equity (pt :: curve))) as [dd|];
    [|discriminate].
  injection H as <-. reflexivity.
Qed.

(** C8: the value that a stats update stores as the maximum drawdown is
    the maximum, over the whole equity curve, of
    [(running peak - equity) / running peak], the running peak being the
    highest equity seen so far; for the curve 3000, 3030, 2900 the running
    peaks are 3000, 3030, 3030, the drawdowns 0, 0, (3030 - 2900) / 3030,
    and the result is (3030 - 2900) / 3030, between 0.0429 and 0.0430. *)
Theorem max_drawdown_rescans_equity_curve :
  (∀ curve, compute_max_drawdown curve = maximum_drawdown curve) ∧
  (∀ e e',
     _update_stats e = (e', true) →
     equity_curve e ≠ [] →
     maximum_drawdown (map equity (equity_curve e))
       = Some (max_drawdown (stats e'))) ∧
  running_peaks 3000 [3000; 3030; 2900]%float = [3000; 3030; 3030]%float ∧
  drawdowns [3000; 3030; 2900]%float
    = [Some 0; Some 0; Some ((3030 - 2900) / 3030)]%float ∧
  compute_max_drawdown [3000; 3030; 2900]%float
    = Some ((3030 - 2900) / 3030)%float ∧
  (0.0429 <=? (3030 - 2900) / 3030)%float = true ∧
  ((3030 - 2900) / 3030 <=? 0.0430)%float = true.
Proof.
  split; [exact compute_max_drawdown_spec|].
  split.
  { intros e e' H Hne. rewrite <- compute_max_drawdown_spec.
    apply update_stats_max_drawdown; assumption. }
  repeat apply conj; vm_compute; reflexivity.
Qed.

Lemma max_drawdown_rescans_equity_curve_witness :
  (_update_stats example_curve_engine
     = (with_stats example_curve_engine
          (mkStats 3000 2900 2900 2 1 1 (-100) 0 0.5
                   ((3030 - 2900) / 3030) ((2900 - 3000) / 3000 * 100) 0),
        true) ∧
   equity_curve example_curve_engine ≠ []) ∧
  maximum_drawdown (map equity (equity_curve example_curve_engine))
    = Some ((3030 - 2900) / 3030)%float.
Proof.
  assert (H : _update_stats example_curve_engine
     = (with_stats example_curve_engine
          (mkStats 3000 2900 2900 2 1 1 (-100) 0 0.5
                   ((3030 - 2900) / 3030) ((2900 - 3000) / 3000 * 100) 0),
        true) ∧
   equity_curve example_curve_engine ≠ [])
    by (split; [vm_compute; reflexivity|discriminate]).
  split; [exact H|].
  destruct H as [Hrun Hne].
  exact (proj1 (proj2 max_drawdown_rescans_equity_curve) _ _ Hrun Hne).
Defined.

Lemma precision_two_or_three symbol :
  default 3%Z (precisions !! symbol) = 2%Z ∨
  default 3%Z (precisions !! symbol) = 3%Z.
Proof.
  unfold precisions.
  repeat (rewrite lookup_insert; case_decide; [cbn; auto|]).
  rewrite lookup_empty. cbn. auto.
Qed.

Lemma format_quantity_three_hundredths symbol :
  _format_quantity symbol 0.03 = Some 0.03%float.
Proof.
  unfold _format_quantity.
  destruct (precision_two_or_three symbol) as [-> | ->]; reflexivity.
Qed.

Lemma open_position_accepted e client new_id now symbol side signal p q :
  get_futures_price client symbol = Some p →
  (p =? 0)%float = false →
  (available_balance e * 0.5 <? 10)%float = false →
  _format_quantity symbol (available_balance e * 0.5 / p) = Some q →
  accepted (place_order client symbol (side_value side) "MARKET" q) = true →
  open_position e client new_id now symbol side signal
    = (mkEngine (initial_capital e)
                (available_balance e - available_balance e * 0.5)
                (total_capital e)
                (store e
                   ++ [mkTrade new_id symbol side p q now None None None 0 0
                               OPEN signal])
                (<[symbol := default [] (trades e !! symbol)
                               ++ [length (store e)]]> (trades e))
                (<[symbol := length (store e)]> (active_positions e))
                (closed_trades e) (equity_curve e)
                (mkStats (s_initial_capital (stats e))
                         (s_current_capital (stats e))
                         (s_available_balance (stats e))
                         (total_trades (stats e) + 1)
                         (winning_trades (stats e)) (losing_trades (stats e))
                         (total_profit_loss (stats e))
                         (s_profit_loss_pct (stats e))
                         (win_rate (stats e)) (max_drawdown (stats e))
                         (roi (stats e)) (sharpe_ratio (stats e)))
                (default 0%float (latency_probe client)) None,
       Some (length (store e))).
Proof.
  intros Hp Hnz Halloc Hq Hacc. unfold open_position.
  unfold _allocate_position_size, _measure_network_latency.
  cbn [with_last_error with_latency available_balance initial_capital
       total_capital store trades active_positions closed_trades equity_curve
       stats network_latency last_error].
  rewrite Hp, Hnz, Halloc, Hq.
  destruct (place_order client symbol (side_value side) "MARKET" q)
    as [|st err]; [discriminate|].
  cbn [accepted] in Hacc. destruct (bool_decide (st = Some "FAILED"));
    [discriminate|]. reflexivity.
Qed.

(** C4: with initial capital 3000 and the allocation fraction 0.5, an
    accepted long open at price 50000 allocates 1500, buys the truncated
    quantity 0.03 and leaves 1500 available; an accepted close at 51000
    then records the profit (51000 - 50000) * 0.03 = 30, brings the
    available balance to 1500 + 51000 * 0.03 = 3030 and the total capital
    to 3030, takes the trade out of the active positions, appends it to
    the closed trades and appends the equity point (3030, 3030). *)
Theorem position_lifecycle_example
    (symbol id signal signal' : string) (t0 t1 t2 t3 : Time)
    (buy sell : Client) :
  get_futures_price buy symbol = Some 50000%float →
  accepted (place_order buy symbol "BUY" "MARKET" 0.03) = true →
  get_futures_price sell symbol = Some 51000%float →
  accepted (place_order sell symbol "SELL" "MARKET" 0.03) = true →
  let e0 := init 3000 t0 in
  let opened := open_position e0 buy id t1 symbol LONG signal in
  let closed := close_position opened.1 sell t2 t3 symbol signal' in
  _allocate_position_size e0 symbol 0.5 = 1500%float ∧
  _format_quantity symbol (1500 / 50000) = Some 0.03%float ∧
  opened.2 = Some 0%nat ∧
  store opened.1
    = [mkTrade id symbol LONG 50000 0.03 t1 None None None 0 0 OPEN signal] ∧
  available_balance opened.1 = 1500%float ∧
  active_positions opened.1 !! symbol = Some 0%nat ∧
  closed.2 = Some 0%nat ∧
  store closed.1
    = [mkTrade id symbol LONG 50000 0.03 t1 (Some 51000%float)
               (Some 0.03%float) (Some t2) 30 2 CLOSED signal] ∧
  ((51000 - 50000) * 0.03)%float = 30%float ∧
  (1500 + 51000 * 0.03)%float = 3030%float ∧
  available_balance closed.1 = 3030%float ∧
  total_capital closed.1 = 3030%float ∧
  active_positions closed.1 !! symbol = None ∧
  closed_trades closed.1 = [0%nat] ∧
  equity_curve closed.1 = [mkPoint t0 3000 3000; mkPoint t3 3030 3030].
Proof.
  intros Hbuy Hfill Hsell Hfill' e0 opened closed.
  assert (Hopen : opened =
    (mkEngine 3000 1500 3000
       [mkTrade id symbol LONG 50000 0.03 t1 None None None 0 0 OPEN signal]
       (<[symbol := [0%nat]]> ∅) (<[symbol := 0%nat]> ∅) []
       [mkPoint t0 3000 3000]
       (mkStats 3000 3000 3000 1 0 0 0 0 0 0 0 0)
       (default 0%float (latency_probe buy)) None, Some 0%nat)).
  { subst opened e0.
    rewrite (open_position_accepted _ _ _ _ _ _ _ 50000%float 0.03%float);
      [|exact Hbuy|reflexivity|reflexivity
       |exact (format_quantity_three_hundredths symbol)|exact Hfill].
    fields. rewrite lookup_empty. reflexivity. }
  assert (Hclose : closed =
    (mkEngine 3000 3030 3030
       [mkTrade id symbol LONG 50000 0.03 t1 (Some 51000%float)
                (Some 0.03%float) (Some t2) 30 2 CLOSED signal]
       (<[symbol := [0%nat]]> ∅) (delete symbol (<[symbol := 0%nat]> ∅))
       [0%nat]
       [mkPoint t0 3000 3000; mkPoint t3 3030 3030]
       (mkStats 3000 3030 3030 1 1 0 30 1 1 0 1 0)
       (default 0%float (latency_probe sell)) None, Some 0%nat)).
  { subst closed. rewrite Hopen. fields.
    unfold close_position. fields. rewrite lookup_insert_eq.
    unfold _measure_network_latency. fields.
    cbn [lookup list_lookup]. rewrite Hsell.
    cbn [entry_quantity side side_value].
    rewrite format_quantity_three_hundredths.
    destruct (place_order sell symbol "SELL" "MARKET" 0.03) as [|st err];
      [discriminate|].
    cbn [accepted] in Hfill'.
    destruct (bool_decide (st = Some "FAILED")); [discriminate|].
    reflexivity. }
  rewrite Hopen, Hclose. fields.
  rewrite lookup_insert_eq, lookup_delete_eq.
  split; [reflexivity|].
  split; [exact (format_quantity_three_hundredths symbol)|].
  repeat apply conj; reflexivity.
Qed.

Lemma position_lifecycle_example_witness :
  let buy := example_client 50000 in
  let sell := example_client 51000 in
  let opened :=
    open_position (init 3000 0%Z) buy "a1b2c3d4" 1%Z "BTCUSDT" LONG
                  "GOLDEN_CROSS" in
  let closed := close_position opened.1 sell 2%Z 3%Z "BTCUSDT" "DEAD_CROSS" in
  (get_futures_price buy "BTCUSDT" = Some 50000%float ∧
   accepted (place_order buy "BTCUSDT" "BUY" "MARKET" 0.03) = true ∧
   get_futures_price sell "BTCUSDT" = Some 51000%float ∧
   accepted (place_order sell "BTCUSDT" "SELL" "MARKET" 0.03) = true) ∧
  available_balance opened.1 = 1500%float ∧
  available_balance closed.1 = 3030%float ∧
  total_capital closed.1 = 3030%float ∧
  closed_trades closed.1 = [0%nat] ∧
  equity_curve closed.1 = [mkPoint 0%Z 3000 3000; mkPoint 3%Z 3030 3030].
Proof.
  intros buy sell opened closed.
  split; [repeat apply conj; reflexivity|].
  destruct (position_lifecycle_example "BTCUSDT" "a1b2c3d4" "GOLDEN_CROSS"
              "DEAD_CROSS" 0%Z 1%Z 2%Z 3%Z buy sell
              eq_refl eq_refl eq_refl eq_refl)
    as (_ & _ & _ & _ & Ha & _ & _ & _ & _ & _ & Hb & Hc & _ & Hd & He).
  repeat apply conj; assumption.
Defined.

Lemma open_position_failure e client new_id now symbol side signal e' :
  open_position e client new_id now symbol side signal = (e', None) →
  portfolio e' = portfolio e.
Proof.
  unfold open_position. intros H.
  repeat case_match; simplify_eq; reflexivity.
Qed.

Lemma update_stats_last_error e e' b :
  _update_stats e = (e', b) → last_error e' = last_error e.
Proof.
  unfold _update_stats. intros H.
  repeat case_match; simplify_eq; reflexivity.
Qed.

Lemma close_position_failure e client now now' symbol signal e' m :
  close_position e client now now' symbol signal = (e', None) →
  last_error e' = Some m →
  portfolio e' = portfolio e.
Proof.
  unfold close_position. intros H Hm.
  repeat case_match; simplify_eq; try reflexivity;
    try (cbn in Hm; discriminate).
  all: match goal with
       | H : _update_stats _ = _ |- _ =>
           apply update_stats_last_error in H; cbn in H; congruence
       end.
Qed.

(** The failure paths that return before anything is written: a call of
    [open_position] that returns [None] leaves the portfolio state as it
    was, and so does a call of [close_position] that returns [None] with
    an error recorded in [last_error]; the named failures are such calls: a missing price, an allocation below 10 and a rejected or
    unanswered order for [open_position]; no active position, a missing
    price and a rejected or unanswered order for [close_position].  Each
    returns [None], records its reason and changes nothing in the
    balances, the total capital, the active positions, the trade logs and
    objects, the closed trades, the equity curve or the statistics. *)
Theorem failure_paths_leave_portfolio_unchanged :
  (∀ e client new_id now symbol side signal e',
     open_position e client new_id now symbol side signal = (e', None) →
     portfolio e' = portfolio e) ∧
  (∀ e client now now' symbol signal e' m,
     close_position e client now now' symbol signal = (e', None) →
     last_error e' = Some m →
     portfolio e' = portfolio e) ∧
  (∀ e client new_id now symbol side signal,
     price_missing (get_futures_price client symbol) = true →
     ∃ e', open_position e client new_id now symbol side signal = (e', None) ∧
           last_error e' = Some (PriceUnavailable symbol) ∧
           portfolio e' = portfolio e) ∧
  (∀ e client new_id now symbol side signal,
     price_missing (get_futures_price client symbol) = false →
     (available_balance e * 0.5 <? 10)%float = true →
     ∃ e', open_position e client new_id now symbol side signal = (e', None) ∧
           last_error e'
             = Some (InsufficientBalance (available_balance e * 0.5)) ∧
           portfolio e' = portfolio e) ∧
  (∀ e client new_id now symbol side signal p q,
     get_futures_price client symbol = Some p →
     (p =? 0)%float = false →
     (available_balance e * 0.5 <? 10)%float = false →
     _format_quantity symbol (available_balance e * 0.5 / p) = Some q →
     accepted (place_order client symbol (side_value side) "MARKET" q) = false →
     ∃ e' m, open_position e client new_id now symbol side signal = (e', None) ∧
             last_error e' = Some m ∧ order_error m = true ∧
             portfolio e' = portfolio e) ∧
  (∀ e client now now' symbol signal,
     active_positions e !! symbol = None →
     ∃ e', close_position e client now now' symbol signal = (e', None) ∧
           last_error e' = Some (NoActivePosition symbol) ∧
           portfolio e' = portfolio e) ∧
  (∀ e client now now' symbol signal r trade,
     active_positions e !! symbol = Some r →
     store e !! r = Some trade →
     price_missing (get_futures_price client symbol) = true →
     ∃ e', close_position e client now now' symbol signal = (e', None) ∧
           last_error e' = Some (PriceUnavailable symbol) ∧
           portfolio e' = portfolio e) ∧
  (∀ e client now now' symbol signal r trade p q,
     active_positions e !! symbol = Some r →
     store e !! r = Some trade →
     get_futures_price client symbol = Some p →
     (p =? 0)%float = false →
     _format_quantity symbol (entry_quantity trade) = Some q →
     accepted (place_order client symbol
                 (side_value match side trade with LONG => SHORT | SHORT => LONG end)
                 "MARKET" q) = false →
     ∃ e' m, close_position e client now now' symbol signal = (e', None) ∧
             last_error e' = Some m ∧ order_error m = true ∧
             portfolio e' = portfolio e).
Proof.
  split; [exact open_position_failure|].
  split; [exact close_position_failure|].
  split.
  { intros e client new_id now symbol side signal Hp. unfold open_position.
    destruct (get_futures_price client symbol) as [p|]; cbn [price_missing] in Hp;
      [rewrite Hp|]; eexists; (split; [reflexivity|]); split; reflexivity. }
  split.
  { intros e client new_id now symbol side signal Hp Hlow. unfold open_position.
    destruct (get_futures_price client symbol) as [p|]; cbn [price_missing] in Hp;
      [|discriminate].
    rewrite Hp. unfold _allocate_position_size, _measure_network_latency.
    fields. rewrite Hlow.
    eexists; (split; [reflexivity|]); split; reflexivity. }
  split.
  { intros e client new_id now symbol side signal p q Hp Hnz Hok Hq Hrej.
    unfold open_position. rewrite Hp, Hnz.
    unfold _allocate_position_size, _measure_network_latency.
    fields. rewrite Hok, Hq.
    destruct (place_order client symbol (side_value side) "MARKET" q)
      as [|st err]; cbn [accepted] in Hrej.
    - do 2 eexists. split; [reflexivity|]. repeat split; reflexivity.
    - destruct (bool_decide (st = Some "FAILED")); [|discriminate].
      destruct err; do 2 eexists; (split; [reflexivity|]);
        repeat split; reflexivity. }
  split.
  { intros e client now now' symbol signal Hnone. unfold close_position.
    fields. rewrite Hnone.
    eexists; (split; [reflexivity|]); split; reflexivity. }
  split.
  { intros e client now now' symbol signal r trade Hr Ht Hp.
    unfold close_position. fields. rewrite Hr.
    unfold _measure_network_latency. fields. rewrite Ht.
    destruct (get_futures_price client symbol) as [p|]; cbn [price_missing] in Hp;
      [rewrite Hp|]; eexists; (split; [reflexivity|]); split; reflexivity. }
  intros e client now now' symbol signal r trade p q Hr Ht Hp Hnz Hq Hrej.
  unfold close_position. fields. rewrite Hr.
  unfold _measure_network_latency. fields. rewrite Ht, Hp, Hnz, Hq.
  destruct (place_order client symbol _ "MARKET" q) as [|st err];
    cbn [accepted] in Hrej.
  - do 2 eexists. split; [reflexivity|]. repeat split; reflexivity.
  - destruct (bool_decide (st = Some "FAILED")); [|discriminate].
    destruct err; do 2 eexists; (split; [reflexivity|]);
      repeat split; reflexivity.
Qed.

Lemma failure_paths_leave_portfolio_unchanged_witness :
  let poor := init 10 0%Z in
  let client := example_client 50000 in
  let opened :=
    open_position poor client "a1b2c3d4" 1%Z "BTCUSDT" LONG "GOLDEN_CROSS" in
  let closed := close_position poor client 2%Z 3%Z "BTCUSDT" "DEAD_CROSS" in
  (opened = (opened.1, None) ∧
   closed = (closed.1, None) ∧
   last_error closed.1 = Some (NoActivePosition "BTCUSDT") ∧
   price_missing (get_futures_price client "BTCUSDT") = false ∧
   (available_balance poor * 0.5 <? 10)%float = true) ∧
  portfolio opened.1 = portfolio poor ∧
  portfolio closed.1 = portfolio poor ∧
  last_error opened.1 = Some (InsufficientBalance 5).
Proof.
  intros poor client opened closed.
  assert (H : opened = (opened.1, None) ∧
              closed = (closed.1, None) ∧
              last_error closed.1 = Some (NoActivePosition "BTCUSDT") ∧
              price_missing (get_futures_price client "BTCUSDT") = false ∧
              (available_balance poor * 0.5 <? 10)%float = true)
    by (repeat apply conj; vm_compute; reflexivity).
  split; [exact H|].
  destruct H as (Ho & Hc & Hm & Hp & Hlow).
  destruct failure_paths_leave_portfolio_unchanged
    as (Hopen & Hclose & _ & Hfunds & _).
  split; [exact (Hopen _ _ _ _ _ _ _ _ Ho)|].
  split; [exact (Hclose _ _ _ _ _ _ _ _ Hc Hm)|].
  destruct (Hfunds poor client "a1b2c3d4" 1%Z "BTCUSDT" LONG "GOLDEN_CROSS"
                   Hp Hlow) as (e' & He' & Herr & _).
  subst opened. rewrite He'. exact Herr.
Defined.

(** C3: [close_position] has a failure path that is neither explicit nor
    a no-op.  An engine with a capital of 50 opens BTCUSDT at 50000: the
    allocation of 25 buys 0.0005, which [_format_quantity] cuts to 0.0, and
    the order is accepted.  Closing at 51000 then returns [None] with no
    error recorded: the order is accepted and the trade is marked CLOSED
    with its exit price and time before the division by the entry notional
    of 0 raises; the caught exception leaves the trade CLOSED, still the
    active position of the symbol and absent from the closed trades. *)
Theorem close_after_zero_quantity_open_is_half_done :
  let opened :=
    open_position (init 50 0%Z) (example_client 50000) "a1b2c3d4" 1%Z
                  "BTCUSDT" LONG "GOLDEN_CROSS" in
  let closed :=
    close_position opened.1 (example_client 51000) 2%Z 3%Z "BTCUSDT"
                   "DEAD_CROSS" in
  opened.2 = Some 0%nat ∧
  (entry_quantity <$> store opened.1 !! 0%nat) = Some 0%float ∧
  (status <$> store opened.1 !! 0%nat) = Some OPEN ∧
  closed.2 = None ∧
  last_error closed.1 = None ∧
  (status <$> store closed.1 !! 0%nat) = Some CLOSED ∧
  (exit_price <$> store closed.1 !! 0%nat) = Some (Some 51000%float) ∧
  (exit_time <$> store closed.1 !! 0%nat) = Some (Some 2%Z) ∧
  active_positions closed.1 !! "BTCUSDT" = Some 0%nat ∧
  closed_trades closed.1 = [] ∧
  portfolio closed.1 ≠ portfolio opened.1.
Proof.
  intros opened closed.
  repeat (split; [vm_compute; reflexivity|]).
  intros H.
  assert (Hs : store closed.1 = store opened.1).
  { unfold portfolio in H. congruence. }
  apply (f_equal (λ st, status <$> st !! 0%nat)) in Hs.
  vm_compute in Hs. discriminate.
Qed.

(** C1 as stated fails: a second [open_position] for a symbol whose trade
    is still open succeeds when the exchange fills the order. *)
Lemma duplicate_open_counterexample :
  ¬ (∀ e client new_id now symbol side signal r trade,
       active_positions e !! symbol = Some r →
       store e !! r = Some trade →
       status trade = OPEN →
       ∃ e', open_position e client new_id now symbol side signal = (e', None) ∧
             available_balance e' = available_balance e ∧
             active_positions e' = active_positions e).
Proof.
  intros claim.
  destruct (claim example_open_engine (example_client 50000) "e5f6a7b8" 4%Z
                  "BTCUSDT" LONG "GOLDEN_CROSS" 0%nat
                  (mkTrade "a1b2c3d4" "BTCUSDT" LONG 50000 0.03 1%Z
                           None None None 0 0 OPEN "GOLDEN_CROSS")
                  eq_refl eq_refl eq_refl) as (e' & H & _).
  vm_compute in H. discriminate.
Qed.

(** C1, as the code has it: the check for an existing position is made by
    the caller.  The manual-position route answers an open request for a
    symbol that has an active position with the error for an existing
    position, without calling the ledger and without changing it;
    [open_position] itself makes no such check: for such a symbol, when
    the price is available, the allocation is at least 10 and the order
    is accepted, it opens a further trade, debits the allocation from the
    available balance and makes the new trade the active position of the
    symbol. *)
Theorem duplicate_open_rejected_by_caller_not_ledger :
  (∀ e client new_id now symbol side_str r,
     active_positions e !! symbol = Some r →
     App.manual_open e client new_id now symbol side_str
       = (e, App.AlreadyHasPosition symbol)) ∧
  (∀ e client new_id now symbol side signal r p q,
     active_positions e !! symbol = Some r →
     get_futures_price client symbol = Some p →
     (p =? 0)%float = false →
     (available_balance e * 0.5 <? 10)%float = false →
     _format_quantity symbol (available_balance e * 0.5 / p) = Some q →
     accepted (place_order client symbol (side_value side) "MARKET" q) = true →
     ∃ e',
       open_position e client new_id now symbol side signal
         = (e', Some (length (store e))) ∧
       available_balance e'
         = (available_balance e - available_balance e * 0.5)%float ∧
       active_positions e' = <[symbol := length (store e)]> (active_positions e) ∧
       store e'
         = store e ++ [mkTrade new_id symbol side p q now None None None 0 0
                               OPEN signal] ∧
       total_trades (stats e') = (total_trades (stats e) + 1)%Z).
Proof.
  split.
  - intros e client new_id now symbol side_str r Hr. unfold App.manual_open.
    rewrite Hr. reflexivity.
  - intros e client new_id now symbol side signal r p q _ Hp Hnz Hok Hq Hacc.
    eexists. split; [apply open_position_accepted; eassumption|].
    repeat apply conj; reflexivity.
Qed.

Lemma duplicate_open_rejected_by_caller_not_ledger_witness :
  let client := example_client 50000 in
  let e := example_open_engine in
  (active_positions e !! "BTCUSDT" = Some 0%nat ∧
   get_futures_price client "BTCUSDT" = Some 50000%float ∧
   (50000 =? 0)%float = false ∧
   (available_balance e * 0.5 <? 10)%float = false ∧
   _format_quantity "BTCUSDT" (available_balance e * 0.5 / 50000)
     = Some 0.015%float ∧
   accepted (place_order client "BTCUSDT" (side_value LONG) "MARKET" 0.015)
     = true) ∧
  App.manual_open e client "e5f6a7b8" 4%Z "BTCUSDT" "BUY"
    = (e, App.AlreadyHasPosition "BTCUSDT") ∧
  ∃ e',
    open_position e client "e5f6a7b8" 4%Z "BTCUSDT" LONG "GOLDEN_CROSS"
      = (e', Some 1%nat) ∧
    available_balance e' = 750%float ∧
    active_positions e' !! "BTCUSDT" = Some 1%nat.
Proof.
  intros client e.
  assert (H : active_positions e !! "BTCUSDT" = Some 0%nat ∧
   get_futures_price client "BTCUSDT" = Some 50000%float ∧
   (50000 =? 0)%float = false ∧
   (available_balance e * 0.5 <? 10)%float = false ∧
   _format_quantity "BTCUSDT" (available_balance e * 0.5 / 50000)
     = Some 0.015%float ∧
   accepted (place_order client "BTCUSDT" (side_value LONG) "MARKET" 0.015)
     = true) by (repeat apply conj; vm_compute; reflexivity).
  split; [exact H|].
  destruct H as (H1 & H2 & H3 & H4 & H5 & H6).
  destruct duplicate_open_rejected_by_caller_not_ledger as [Hcaller Hledger].
  split; [exact (Hcaller e client _ _ _ _ _ H1)|].
  destruct (Hledger e client "e5f6a7b8" 4%Z "BTCUSDT" LONG "GOLDEN_CROSS"
                    _ _ _ H1 H2 H3 H4 H5 H6) as (e' & Ha & Hb & Hc & _).
  exists e'. split; [exact Ha|]. split.
  - rewrite Hb. vm_compute. reflexivity.
  - rewrite Hc. apply lookup_insert_eq.
Defined.

End EngineFacts.

(** ** The history accessors *)

Module AccessorFacts.

Lemma limited_zero {A} (l : list A) :
  Py.limited l (Some 0%Z) = l ∧ Py.limited l None = l.
Proof. split; reflexivity. Qed.

Lemma limited_positive {A} (l : list A) (n : Z) :
  (0 < n)%Z → Py.limited l (Some n) = drop (length l - Z.to_nat n) l.
Proof.
  intros Hn. unfold Py.limited, Py.last_slice.
  destruct (Z.eqb_spec n 0) as [?|_]; [lia|].
  destruct (Z.ltb_spec 0 n) as [_|?]; [reflexivity|lia].
Qed.

Lemma limited_negative {A} (l : list A) (n : Z) :
  (n < 0)%Z → Py.limited l (Some n) = drop (Z.to_nat (- n)) l.
Proof.
  intros Hn. unfold Py.limited, Py.last_slice.
  destruct (Z.eqb_spec n 0) as [?|_]; [lia|].
  destruct (Z.ltb_spec 0 n) as [?|_]; [lia|reflexivity].
Qed.

End AccessorFacts.

(** ** The signal engine: warm-up, history and crosses *)

Module SignalFacts.

Import MACD MACDFacts.

Lemma ema_loop_app k l1 : ∀ prev l2,
  ∃ tail, ema_loop k prev (l1 ++ l2) = ema_loop k prev l1 ++ tail.
Proof.
  induction l1 as [|x l1 IH]; intros prev l2.
  - eexists. reflexivity.
  - cbn [app ema_loop].
    destruct (IH (x * k + prev * (1 - k))%float l2) as [tail ->].
    exists tail. reflexivity.
Qed.

(** X1: EMA values never change once computed: for a period of at least
    1, the EMA of a series extended by further data starts with the EMA
    of the series itself. *)
Theorem ema_prefix_stable (data extra : list float) (p : nat) :
  (1 ≤ p)%nat →
  ∃ out tail,
    _ema data p = Some out ∧ _ema (data ++ extra) p = Some (out ++ tail).
Proof.
  intros Hp. destruct (Nat.lt_ge_cases (length data) p) as [Hlt|Hge].
  - exists (replicate (length data) None).
    rewrite (ema_short data p Hlt).
    destruct (Nat.lt_ge_cases (length (data ++ extra)) p) as [Hlt'|Hge'].
    + rewrite (ema_short _ p Hlt'). rewrite length_app, replicate_add.
      eexists. split; reflexivity.
    + rewrite (ema_unfold _ p Hp Hge').
      replace (p - 1)%nat with (length data + (p - 1 - length data))%nat by lia.
      rewrite replicate_add, <- app_assoc. eexists. split; reflexivity.
  - rewrite (ema_unfold data p Hp Hge).
    rewrite (ema_unfold (data ++ extra) p Hp)
      by (rewrite length_app; lia).
    assert (Havg : simple_average (data ++ extra) p = simple_average data p).
    { unfold simple_average. rewrite take_app_le by exact Hge. reflexivity. }
    rewrite Havg, drop_app_le by exact Hge.
    destruct (ema_loop_app (smoothing p) (drop p data) (simple_average data p)
                           extra) as [tail ->].
    exists (replicate (p - 1) None
              ++ Some (simple_average data p)
              :: ema_loop (smoothing p) (simple_average data p) (drop p data)),
           tail.
    split; [reflexivity|]. rewrite <- app_assoc. reflexivity.
Qed.

Lemma ema_prefix_stable_witness :
  (1 ≤ 3)%nat ∧
  ∃ out tail,
    _ema [1; 2; 3; 4]%float 3 = Some out ∧
    _ema ([1; 2; 3; 4] ++ [9; 7])%float 3 = Some (out ++ tail).
Proof. split; [lia|]. apply ema_prefix_stable. lia. Defined.

Lemma ema_defined_from data p out :
  (1 ≤ p)%nat → _ema data p = Some out → defined_from (p - 1) out.
Proof.
  intros Hp Hout i Hi.
  destruct (Nat.lt_ge_cases (length data) p) as [Hlt|Hge].
  - rewrite (ema_short _ _ Hlt) in Hout. injection Hout as <-.
    rewrite length_replicate in Hi. split.
    + intros _. apply lookup_replicate_2. exact Hi.
    + lia.
  - rewrite (ema_unfold _ _ Hp Hge) in Hout. injection Hout as <-.
    rewrite length_app, length_replicate in Hi. cbn [length] in Hi.
    rewrite ema_loop_length, length_drop in Hi. split.
    + intros Hlt. rewrite lookup_app_l by (rewrite length_replicate; lia).
      apply lookup_replicate_2. exact Hlt.
    + intros Hwarm. rewrite lookup_app_r by (rewrite length_replicate; lia).
      rewrite length_replicate.
      destruct (i - (p - 1))%nat as [|j] eqn:Hj; [eexists; reflexivity|].
      cbn [lookup list_lookup].
      destruct (lookup_lt_is_Some_2 (drop p data) j) as [x Hx];
        [rewrite length_drop; lia|].
      destruct (ema_loop_lookup _ (smoothing p) (simple_average data p) _ _ Hx)
        as (pv & _ & H2).
      eexists. exact H2.
Qed.

Lemma macd_line_length ef es :
  length ef = length es → length (macd_line ef es) = length es.
Proof. intros H. unfold macd_line. rewrite length_zip_with. lia. Qed.

Lemma macd_line_defined_from a b ef es :
  length ef = length es → (a ≤ b)%nat →
  defined_from a ef → defined_from b es →
  defined_from b (macd_line ef es).
Proof.
  intros Hlen Hab Hf Hs i Hi. rewrite macd_line_length in Hi by exact Hlen.
  destruct (Hf i ltac:(lia)) as [Hf1 Hf2]. destruct (Hs i Hi) as [Hs1 Hs2].
  unfold macd_line. rewrite lookup_zip_with. split.
  - intros Hlt. rewrite (Hs1 Hlt).
    destruct (ef !! i) as [[f|]|] eqn:Hef; try reflexivity.
    apply lookup_ge_None in Hef. lia.
  - intros Hge. destruct (Hf2 ltac:(lia)) as [f ->].
    destruct (Hs2 Hge) as [s ->]. eexists. reflexivity.
Qed.

Lemma macd_values_length l : ∀ a,
  defined_from a l → length (macd_values l) = (length l - a)%nat.
Proof.
  unfold macd_values.
  induction l as [|o l IH]; intros a H; [reflexivity|].
  destruct a as [|a].
  - destruct (proj2 (H 0%nat ltac:(cbn; lia)) ltac:(lia)) as [x Hx].
    cbn in Hx. injection Hx as ->. cbn [omap list_omap id length].
    rewrite (IH 0%nat); [lia|].
    intros i Hi. split; [lia|]. intros _.
    exact (proj2 (H (S i) ltac:(cbn; lia)) ltac:(lia)).
  - pose proof (proj1 (H 0%nat ltac:(cbn; lia)) ltac:(lia)) as Hx.
    cbn in Hx. injection Hx as ->. cbn [omap list_omap id length].
    rewrite (IH a); [reflexivity|].
    intros i Hi. split.
    + intros Hlt. exact (proj1 (H (S i) ltac:(cbn; lia)) ltac:(lia)).
    + intros Hge. exact (proj2 (H (S i) ltac:(cbn; lia)) ltac:(lia)).
Qed.

Lemma chain_defined fast slow sig closes :
  (1 ≤ fast)%nat → (fast ≤ slow)%nat → (1 ≤ sig)%nat →
  (slow + sig - 1 ≤ length closes)%nat →
  ∃ m sg, chain fast slow sig closes = Defined m sg (m - sg)%float.
Proof.
  intros Hf Hfs Hg Hlen. unfold chain.
  destruct (Z.ltb_spec (Z.of_nat (length closes))
                       (Z.of_nat slow + Z.of_nat sig - 1)) as [?|_]; [lia|].
  destruct (ema_defined closes fast Hf) as (ef & Hef & Hlf).
  destruct (ema_defined closes slow ltac:(lia)) as (es & Hes & Hls).
  rewrite Hef, Hes. cbv zeta.
  pose proof (macd_line_defined_from (fast - 1) (slow - 1) ef es
                ltac:(congruence) ltac:(lia)
                (ema_defined_from closes fast ef Hf Hef)
                (ema_defined_from closes slow es ltac:(lia) Hes)) as Hline.
  pose proof (macd_values_length _ _ Hline) as Hvals.
  rewrite macd_line_length in Hvals by congruence.
  destruct (Nat.ltb_spec (length (macd_values (macd_line ef es))) sig)
    as [?|_]; [lia|].
  destruct (ema_defined (macd_values (macd_line ef es)) sig Hg)
    as (sl & -> & _).
  destruct (last (macd_values (macd_line ef es))) as [m|] eqn:Hlast.
  - eexists _, _. reflexivity.
  - apply last_None in Hlast. rewrite Hlast in Hvals. cbn in Hvals. lia.
Qed.

Lemma chain_warmup fast slow sig closes :
  (length closes + 1 < slow + sig)%nat → chain fast slow sig closes = Warmup.
Proof.
  intros H. unfold chain.
  destruct (Z.ltb_spec (Z.of_nat (length closes))
                       (Z.of_nat slow + Z.of_nat sig - 1)) as [_|?];
    [reflexivity|lia].
Qed.

Lemma add_kline_shape round s k :
  ∃ news,
    klines_history (add_kline round s k).1 = klines_history s ++ [k] ∧
    macd_history (add_kline round s k).1 = macd_history s ++ news ∧
    (length news ≤ 1)%nat ∧
    fast_period (add_kline round s k).1 = fast_period s ∧
    slow_period (add_kline round s k).1 = slow_period s ∧
    signal_period (add_kline round s k).1 = signal_period s.
Proof.
  unfold add_kline.
  destruct (chain _ _ _ _) as [| |m sg h]; cbn.
  - exists []. rewrite app_nil_r. repeat split; auto.
  - exists []. rewrite app_nil_r. repeat split; auto.
  - eexists [_]. repeat split; auto.
Qed.

Lemma feed_length round bars : ∀ s, length (feed round s bars).2 = length bars.
Proof.
  induction bars as [|k bars IH]; intros s; [reflexivity|].
  cbn [feed]. destruct (add_kline round s k) as [s1 out].
  specialize (IH s1). destruct (feed round s1 bars) as [s2 outs].
  cbn in *. lia.
Qed.

Lemma feed_shape round bars : ∀ s,
  klines_history (feed round s bars).1 = klines_history s ++ bars ∧
  macd_history s `prefix_of` macd_history (feed round s bars).1 ∧
  (length (macd_history (feed round s bars).1)
     ≤ length (macd_history s) + length bars)%nat ∧
  fast_period (feed round s bars).1 = fast_period s ∧
  slow_period (feed round s bars).1 = slow_period s ∧
  signal_period (feed round s bars).1 = signal_period s.
Proof.
  induction bars as [|k bars IH]; intros s.
  - cbn [feed fst length]. rewrite app_nil_r.
    split; [reflexivity|]. split; [reflexivity|]. split; [lia|auto].
  - rewrite feed_cons_state.
    destruct (add_kline_shape round s k) as (news & Hk & Hm & Hn & Hf & Hs & Hg).
    destruct (IH (add_kline round s k).1) as (H1 & H2 & H3 & H4 & H5 & H6).
    rewrite H1, H4, H5, H6, Hk, Hf, Hs, Hg, <- app_assoc.
    split; [reflexivity|]. split.
    { etrans; [|exact H2]. rewrite Hm. apply prefix_app_r. reflexivity. }
    split; [|auto].
    etrans; [exact H3|]. rewrite Hm, length_app. cbn [length]. lia.
Qed.

(** X3: feeding bars only appends: every bar fed is added to the bar
    history in order, the signals recorded earlier stay as a prefix of the
    signal history, at most one signal is recorded per bar, one result is
    returned per bar and the periods are never changed. *)
Theorem feed_appends_only round s bars :
  klines_history (feed round s bars).1 = klines_history s ++ bars ∧
  macd_history s `prefix_of` macd_history (feed round s bars).1 ∧
  (length (macd_history (feed round s bars).1)
     ≤ length (macd_history s) + length bars)%nat ∧
  length (feed round s bars).2 = length bars ∧
  fast_period (feed round s bars).1 = fast_period s ∧
  slow_period (feed round s bars).1 = slow_period s ∧
  signal_period (feed round s bars).1 = signal_period s.
Proof.
  destruct (feed_shape round bars s) as (H1 & H2 & H3 & H4 & H5 & H6).
  pose proof (feed_length round bars s). auto 10.
Qed.

Lemma feed_warmup round bars : ∀ s,
  (length (klines_history s) + length bars + 1
     < slow_period s + signal_period s)%nat →
  (feed round s bars).1
    = mkStrategy (fast_period s) (slow_period s) (signal_period s)
                 (klines_history s ++ bars) (macd_history s) (prev_histogram s).
Proof.
  induction bars as [|k bars IH]; intros s Hlen.
  - cbn. rewrite app_nil_r. destruct s; reflexivity.
  - rewrite feed_cons_state. cbn [length] in Hlen.
    rewrite (add_kline_warmup round s k)
      by (apply chain_warmup; rewrite length_app, length_map; cbn; lia).
    cbn [fst]. rewrite IH.
    + cbn. rewrite <- app_assoc. reflexivity.
    + cbn. rewrite length_app. cbn. lia.
Qed.

Lemma feed_signal_count round bars : ∀ s,
  (1 ≤ fast_period s)%nat → (fast_period s ≤ slow_period s)%nat →
  (1 ≤ signal_period s)%nat →
  length (macd_history (feed round s bars).1)
    = (length (macd_history s)
       + ((length (klines_history s) + length bars)
            - (slow_period s + signal_period s - 2))
       - (length (klines_history s)
            - (slow_period s + signal_period s - 2)))%nat.
Proof.
  induction bars as [|k bars IH]; intros s Hf Hfs Hg.
  - cbn. lia.
  - rewrite feed_cons_state.
    destruct (Nat.lt_ge_cases (length (klines_history s) + 2)
                              (slow_period s + signal_period s)) as [Hw|Hd].
    + rewrite (add_kline_warmup round s k)
        by (apply chain_warmup; rewrite length_app, length_map; cbn; lia).
      cbn [fst]. rewrite IH by assumption.
      cbn [fast_period slow_period signal_period klines_history macd_history
           length].
      rewrite length_app. cbn [length]. lia.
    + destruct (chain_defined (fast_period s) (slow_period s) (signal_period s)
                  (map k_close (klines_history s) ++ [k_close k]) Hf Hfs Hg)
        as (m & sg & Hc);
        [rewrite length_app, length_map; cbn; lia|].
      rewrite (add_kline_defined round s k _ _ _ Hc).
      cbn [fst]. rewrite IH by assumption.
      cbn [fast_period slow_period signal_period klines_history macd_history
           length].
      rewrite !length_app. cbn [length]. lia.
Qed.

(** X2: with periods at least 1 and the fast period not above the slow
    one, the histogram is undefined for fewer than [slow + sig - 1] closes
    and defined, as MACD minus signal, from then on; a fresh engine fed
    [n] bars has recorded [n - (slow + sig - 2)] signals, and none, with no
    latest signal and no stored histogram, while it warms up. *)
Theorem signals_start_after_warmup round fast slow sig :
  (1 ≤ fast)%nat → (fast ≤ slow)%nat → (1 ≤ sig)%nat →
  (∀ closes,
     (length closes + 1 < slow + sig)%nat →
     chain fast slow sig closes = Warmup) ∧
  (∀ closes,
     (slow + sig ≤ length closes + 1)%nat →
     ∃ m sg, chain fast slow sig closes = Defined m sg (m - sg)%float) ∧
  (∀ bars,
     length (macd_history (feed round (init fast slow sig) bars).1)
       = (length bars - (slow + sig - 2))%nat) ∧
  (∀ bars,
     (length bars + 1 < slow + sig)%nat →
     get_latest_signal (feed round (init fast slow sig) bars).1 = None ∧
     prev_histogram (feed round (init fast slow sig) bars).1 = None).
Proof.
  intros Hf Hfs Hg.
  split; [intros closes H; apply chain_warmup, H|].
  split; [intros closes H; apply chain_defined; try assumption; lia|].
  split.
  { intros bars.
    rewrite (feed_signal_count round bars (init fast slow sig)) by assumption.
    cbn. lia. }
  intros bars Hlen.
  rewrite (feed_warmup round bars (init fast slow sig)) by (cbn; lia).
  split; reflexivity.
Qed.

Lemma signals_start_after_warmup_witness :
  ((1 ≤ 5)%nat ∧ (5 ≤ 10)%nat ∧ (1 ≤ 3)%nat) ∧
  length (macd_history (feed (λ x _, x) (init 5 10 3) example_bars).1) = 5%nat ∧
  get_latest_signal (feed (λ x _, x) (init 5 10 3) (take 11 example_bars)).1
    = None.
Proof.
  split; [lia|].
  destruct (signals_start_after_warmup (λ x _, x) 5 10 3)
    as (_ & _ & Hcount & Hnone); [lia..|].
  split; [exact (Hcount example_bars)|].
  apply (Hnone (take 11 example_bars)). cbn. lia.
Defined.

Lemma alternating_cons a l :
  head l ≠ Some a → alternating l → alternating (a :: l).
Proof.
  destruct l as [|b l]; [intros; exact I|].
  intros Hhead Halt. split; [|exact Halt].
  intros ->. apply Hhead. reflexivity.
Qed.

Lemma kinds_alternate hs : ∀ p,
  Forall (λ h, sign_of h ≠ NotANumber) hs →
  (sign_of p = Neg →
     alternating (crosses (kinds_from (Some p) hs)) ∧
     head (crosses (kinds_from (Some p) hs)) ≠ Some DEAD_CROSS) ∧
  (sign_of p = Pos →
     alternating (crosses (kinds_from (Some p) hs)) ∧
     head (crosses (kinds_from (Some p) hs)) ≠ Some GOLDEN_CROSS).
Proof.
  induction hs as [|h hs IH]; intros p Hall.
  - split; intros _; (split; [exact I|discriminate]).
  - apply Forall_cons in Hall as [Hh Hall].
    destruct (IH h Hall) as [IHneg IHpos].
    cbn [kinds_from crossover_rule].
    destruct (sign_of h) eqn:Hs; [| |contradiction].
    + apply sign_neg in Hs as Hh'. destruct Hh' as [Lh Rh].
      destruct (IHneg eq_refl) as [Ha Hd]. split; intros Hp.
      * apply sign_neg in Hp as [Lp Rp]. rewrite Lp, Rp, Rh. cbn.
        split; assumption.
      * apply sign_pos in Hp as [Lp Rp]. rewrite Lp, Rp, Lh. cbn.
        split; [|discriminate]. apply alternating_cons; assumption.
    + apply sign_pos in Hs as Hh'. destruct Hh' as [Lh Rh].
      destruct (IHpos eq_refl) as [Ha Hd]. split; intros Hp.
      * apply sign_neg in Hp as [Lp Rp]. rewrite Lp, Rh. cbn.
        split; [|discriminate]. apply alternating_cons; assumption.
      * apply sign_pos in Hp as [Lp Rp]. rewrite Lp, Rp, Lh. cbn.
        split; assumption.
Qed.

(** X4: golden and dead crosses alternate: when no histogram is a nan,
    the crosses recorded by a fresh engine never show the same kind twice
    in a row. *)
Theorem crosses_alternate round fast slow sig bars :
  (1 ≤ fast)%nat → (1 ≤ slow)%nat → (1 ≤ sig)%nat →
  Forall (λ h, sign_of h ≠ NotANumber)
         (histograms fast slow sig [] (map k_close bars)) →
  alternating
    (crosses (map signal_type
                  (macd_history (feed round (init fast slow sig) bars).1))).
Proof.
  intros Hf Hs Hg Hall.
  rewrite (feed_kinds round bars (init fast slow sig)) by assumption.
  cbn [init fast_period slow_period signal_period klines_history macd_history
       prev_histogram map app].
  destruct (histograms fast slow sig [] (map k_close bars)) as [|h hs];
    [exact I|].
  apply Forall_cons in Hall as [Hh Hall].
  cbn [kinds_from crossover_rule]. cbn.
  destruct (kinds_alternate hs h Hall) as [Hneg Hpos].
  destruct (sign_of h) eqn:Hsign; [| |contradiction].
  - apply Hneg. reflexivity.
  - apply Hpos. reflexivity.
Qed.

Lemma crosses_alternate_witness :
  ((1 ≤ 5)%nat ∧ (1 ≤ 10)%nat ∧ (1 ≤ 3)%nat ∧
   Forall (λ h, sign_of h ≠ NotANumber)
          (histograms 5 10 3 [] (map k_close example_bars))) ∧
  alternating
    (crosses (map signal_type
                  (macd_history (feed (λ x _, x) (init 5 10 3) example_bars).1))).
Proof.
  assert (H : Forall (λ h, sign_of h ≠ NotANumber)
                     (histograms 5 10 3 [] (map k_close example_bars))).
  { vm_compute. repeat constructor; discriminate. }
  split; [repeat split; try lia; exact H|].
  apply crosses_alternate; try lia. exact H.
Defined.

End SignalFacts.

(** ** macd_strategy.py: the registry of strategies *)

Module RegistryFacts.

Import MACD Multi.

Lemma dict_get_set_eq {V} (d : list (string * V)) k v :
  Py.dict_get (Py.dict_set d k v) k = Some v.
Proof.
  induction d as [|[k' v'] d IH]; cbn.
  - rewrite decide_True by reflexivity. reflexivity.
  - destruct (decide (k' = k)) as [->|Hne]; cbn.
    + rewrite decide_True by reflexivity. reflexivity.
    + rewrite decide_False by exact Hne. exact IH.
Qed.

Lemma dict_get_set_ne {V} (d : list (string * V)) k k' v :
  k ≠ k' → Py.dict_get (Py.dict_set d k v) k' = Py.dict_get d k'.
Proof.
  intros Hne. induction d as [|[k0 v0] d IH]; cbn.
  - rewrite decide_False by exact Hne. reflexivity.
  - destruct (decide (k0 = k)) as [->|Hk]; cbn.
    + rewrite !decide_False by exact Hne. reflexivity.
    + destruct (decide (k0 = k')); [reflexivity|exact IH].
Qed.

Lemma dict_set_keys {V} (d : list (string * V)) k v :
  d.*1 `prefix_of` (Py.dict_set d k v).*1 ∧
  ((Py.dict_set d k v).*1 = d.*1 ∨ (Py.dict_set d k v).*1 = d.*1 ++ [k]).
Proof.
  induction d as [|[k0 v0] d [IH1 IH2]]; cbn.
  - split; [apply prefix_nil|right; reflexivity].
  - destruct (decide (k0 = k)) as [->|Hk]; cbn.
    + split; [reflexivity|left; reflexivity].
    + split; [apply prefix_cons, IH1|].
      destruct IH2 as [-> | ->]; auto.
Qed.

(** X5: [MultiSymbolMACDStrategy.update_kline] feeds the bar to the
    strategy of the named symbol, a fresh default strategy when the symbol
    is new, and returns what [add_kline] returns.  The strategies of the
    other symbols are untouched and the symbols registered before keep
    their places.  [add_symbol] on a registered symbol returns the existing
    strategy and leaves the registry as it is; on any symbol it leaves the
    other symbols alone. *)
Theorem registry_feeds_one_symbol round m symbol k :
  let s0 := default default_strategy (get_strategy m symbol) in
  get_strategy (update_kline round m symbol k).1 symbol
    = Some (add_kline round s0 k).1 ∧
  (update_kline round m symbol k).2 = (add_kline round s0 k).2 ∧
  (∀ other, other ≠ symbol →
     get_strategy (update_kline round m symbol k).1 other
       = get_strategy m other) ∧
  (strategies m).*1 `prefix_of` (strategies (update_kline round m symbol k).1).*1 ∧
  (∀ s, get_strategy m symbol = Some s → add_symbol m symbol = (m, s)) ∧
  (∀ other, other ≠ symbol →
     get_strategy (add_symbol m symbol).1 other = get_strategy m other).
Proof.
  intros s0. subst s0. unfold update_kline, add_symbol, get_strategy.
  destruct (Py.dict_get (strategies m) symbol) as [s|] eqn:Hget; cbn [fst snd].
  - rewrite Hget. cbn [from_option id].
    destruct (add_kline round s k) as [s' out]. cbn [fst snd strategies].
    split; [apply dict_get_set_eq|]. split; [reflexivity|].
    split; [intros other Hne; apply dict_get_set_ne, not_eq_sym, Hne|].
    split; [apply dict_set_keys|]. split; [intros ? [= <-]; reflexivity|].
    reflexivity.
  - cbn [strategies]. rewrite dict_get_set_eq. cbn [from_option id].
    destruct (add_kline round default_strategy k) as [s' out].
    cbn [fst snd strategies].
    split; [apply dict_get_set_eq|]. split; [reflexivity|].
    split.
    { intros other Hne. rewrite !dict_get_set_ne by (apply not_eq_sym, Hne).
      reflexivity. }
    split.
    { etrans; apply dict_set_keys. }
    split; [discriminate|].
    intros other Hne. apply dict_get_set_ne, not_eq_sym, Hne.
Qed.

Lemma registry_feeds_one_symbol_witness :
  let m := (add_symbol init "BTCUSDT").1 in
  let k := mkKline 0%Z 100 105 100 105 0 in
  "ETHUSDT" ≠ "BTCUSDT" ∧
  get_strategy m "BTCUSDT" = Some default_strategy ∧
  get_strategy (update_kline (λ x _, x) m "BTCUSDT" k).1 "ETHUSDT" = None ∧
  add_symbol m "BTCUSDT" = (m, default_strategy) ∧
  ((λ s, k_close <$> klines_history s)
     <$> get_strategy (update_kline (λ x _, x) m "BTCUSDT" k).1 "BTCUSDT")
    = Some [105%float].
Proof.
  intros m k.
  assert (Hne : "ETHUSDT" ≠ "BTCUSDT") by discriminate.
  assert (Hs : get_strategy m "BTCUSDT" = Some default_strategy)
    by reflexivity.
  destruct (registry_feeds_one_symbol (λ x _, x) m "BTCUSDT" k)
    as (H1 & _ & H3 & _ & H5 & _).
  split; [exact Hne|]. split; [exact Hs|].
  split; [rewrite (H3 "ETHUSDT" Hne); reflexivity|].
  split; [exact (H5 _ Hs)|].
  rewrite H1. vm_compute. reflexivity.
Defined.

Lemma signals_of_kind_filter kind m :
  signals_of_kind kind m
    = filter (λ entry, signal_type entry.2 = kind) (get_signals m).
Proof.
  unfold signals_of_kind, get_signals.
  induction (strategies m) as [|[symbol s] l IH]; [reflexivity|].
  cbn [omap list_omap]. rewrite IH.
  destruct (get_latest_signal s) as [latest|]; cbn [fmap option_fmap option_map];
    [|reflexivity].
  rewrite filter_cons. cbn [snd].
  destruct (decide (signal_type latest = kind)); reflexivity.
Qed.

(** X6: [get_buy_signals] and [get_sell_signals] are the entries of
    [get_signals] whose latest signal is a golden cross, respectively a
    dead cross, in the same order; no entry is in both lists; and
    [get_signals] lists exactly the registered symbols whose strategy has
    a latest signal. *)
Theorem buy_and_sell_signals_split_the_latest_signals m :
  get_buy_signals m
    = filter (λ entry, signal_type entry.2 = GOLDEN_CROSS) (get_signals m) ∧
  get_sell_signals m
    = filter (λ entry, signal_type entry.2 = DEAD_CROSS) (get_signals m) ∧
  (∀ entry, entry ∈ get_buy_signals m → entry ∉ get_sell_signals m) ∧
  (∀ symbol latest,
     (symbol, latest) ∈ get_signals m ↔
     ∃ s, (symbol, s) ∈ strategies m ∧ get_latest_signal s = Some latest).
Proof.
  split; [apply signals_of_kind_filter|].
  split; [apply signals_of_kind_filter|].
  split.
  - intros entry. unfold get_buy_signals, get_sell_signals.
    rewrite !signals_of_kind_filter, !list_elem_of_filter.
    intros [Hb _] [Hs _]. congruence.
  - intros symbol latest. unfold get_signals. rewrite list_elem_of_omap. split.
    + intros ([sym s] & Hin & Heq).
      destruct (get_latest_signal s) as [l|] eqn:Hl; [|discriminate].
      cbn in Heq. injection Heq as <- <-. eauto.
    + intros (s & Hin & Hl). exists (symbol, s). split; [exact Hin|].
      rewrite Hl. reflexivity.
Qed.

Lemma buy_and_sell_signals_split_the_latest_signals_witness :
  ∃ entry,
    entry.1 = "BTCUSDT" ∧ signal_type entry.2 = GOLDEN_CROSS ∧
    entry ∈ get_buy_signals example_registry ∧
    entry ∉ get_sell_signals example_registry.
Proof.
  assert (Hbuy : ∃ entry rest,
            get_buy_signals example_registry = entry :: rest ∧
            entry.1 = "BTCUSDT" ∧ signal_type entry.2 = GOLDEN_CROSS).
  { vm_compute. eexists _, _. split; [reflexivity|]. split; reflexivity. }
  destruct Hbuy as (entry & rest & Hbuy & Hsym & Hkind).
  exists entry.
  assert (Hin : entry ∈ get_buy_signals example_registry)
    by (rewrite Hbuy; apply list_elem_of_here).
  split; [exact Hsym|]. split; [exact Hkind|]. split; [exact Hin|].
  destruct (buy_and_sell_signals_split_the_latest_signals example_registry)
    as (_ & _ & H & _).
  exact (H entry Hin).
Defined.

End RegistryFacts.

(** ** data_collector.py: bars over a run of ticks *)

Module BarFacts.

Import Collector CollectorFacts.

Lemma SFltb_irrefl x : SFltb x x = false.
Proof.
  unfold SFltb, SFcompare.
  destruct x as [s|s| |s m e]; try destruct s; try reflexivity;
    rewrite Z.compare_refl, Pos.compare_cont_refl; reflexivity.
Qed.

Lemma SFltb_trans x y z :
  SFltb x y = true → SFltb y z = true → SFltb x z = true.
Proof.
  unfold SFltb, SFcompare.
  destruct x as [sx|sx| |sx mx ex], y as [sy|sy| |sy my ey],
           z as [sz|sz| |sz mz ez];
    try destruct sx; try destruct sy; try destruct sz;
    try discriminate; try reflexivity; intros Hxy Hyz;
    destruct (Z.compare_spec ex ey), (Z.compare_spec ey ez),
             (Z.compare_spec ex ez);
    try lia; try discriminate; try reflexivity; subst;
    rewrite ?Pos.compare_cont_spec in *; cbn [Pos.switch_Eq] in *;
    destruct (Pos.compare_spec mx my), (Pos.compare_spec my mz),
             (Pos.compare_spec mx mz);
    cbn in *; try lia; try discriminate; reflexivity.
Qed.

Lemma ltb_irrefl x : (x <? x)%float = false.
Proof. rewrite FloatAxioms.ltb_spec. apply SFltb_irrefl. Qed.

Lemma ltb_trans x y z :
  (x <? y)%float = true → (y <? z)%float = true → (x <? z)%float = true.
Proof. rewrite !FloatAxioms.ltb_spec. apply SFltb_trans. Qed.

Lemma ordered_seeded ms price_data : ordered_bar (seeded_bar ms price_data).
Proof. unfold ordered_bar. cbn. rewrite ltb_irrefl. auto. Qed.

Lemma ordered_updated b c t :
  ordered_bar b →
  ordered_bar (mkBar (open_time b) (open b) (Py.max (high b) c)
                     (Py.min (low b) c) c (volume b) t).
Proof.
  intros (Hho & Hhc & Hol & Hcl). unfold ordered_bar. cbn.
  repeat split.
  - unfold Py.max. destruct (high b <? c)%float eqn:Hc; [|exact Hho].
    destruct (c <? open b)%float eqn:Hco; [|reflexivity].
    rewrite (ltb_trans _ _ _ Hc Hco) in Hho. discriminate.
  - unfold Py.max. destruct (high b <? c)%float eqn:Hc;
      [apply ltb_irrefl|exact Hc].
  - unfold Py.min. destruct (c <? low b)%float eqn:Hc; [|exact Hol].
    destruct (open b <? c)%float eqn:Hoc; [|reflexivity].
    rewrite (ltb_trans _ _ _ Hoc Hc) in Hol. discriminate.
  - unfold Py.min. destruct (c <? low b)%float eqn:Hc;
      [apply ltb_irrefl|exact Hc].
Qed.

Lemma every_bar_current P c symbol b :
  every_bar P c → P b → every_bar P (with_current c symbol b).
Proof.
  intros [Hc Hh] Hb. split; [|exact Hh].
  intros s b'. cbn [with_current current_kline].
  destruct (decide (symbol = s)) as [<-|Hne].
  - rewrite lookup_insert_eq. intros [= <-]. exact Hb.
  - rewrite lookup_insert_ne by exact Hne. apply Hc.
Qed.

Lemma every_bar_last_update P c symbol t :
  every_bar P c → every_bar P (with_last_update c symbol t).
Proof. intros H. exact H. Qed.

Lemma every_bar_stored P c symbol b :
  every_bar P c → P b →
  every_bar P (with_klines c symbol (capped (history c symbol ++ [b]))).
Proof.
  intros [Hc Hh] Hb. split; [exact Hc|].
  intros s b'. unfold history. cbn [with_klines klines].
  destruct (decide (symbol = s)) as [<-|Hne].
  - rewrite lookup_insert_eq. cbn [from_option id]. intros Hin.
    apply capped_subseteq in Hin. apply elem_of_app in Hin as [Hin|Hin].
    + apply (Hh symbol), Hin.
    + apply list_elem_of_singleton in Hin as ->. exact Hb.
  - rewrite lookup_insert_ne by exact Hne. apply Hh.
Qed.

Lemma every_bar_update (P : Bar → Prop) c symbol price_data now :
  (∀ ms p, P (seeded_bar ms p)) →
  (∀ b x t, P b →
     P (mkBar (open_time b) (open b) (Py.max (high b) x) (Py.min (low b) x) x
              (volume b) t)) →
  (∀ b t, P b → P (stamped b t)) →
  every_bar P c → every_bar P (_update_kline c symbol price_data now).
Proof.
  intros Hseed Hupd Hstamp Hinv. unfold _update_kline.
  destruct price_data as [price_data|]; [|exact Hinv].
  destruct (current_kline c !! symbol) as [cur|] eqn:Hcur.
  - pose proof (proj1 Hinv _ _ Hcur) as Hp. cbv zeta.
    destruct (total_seconds now _) as [d|]; [|exact Hinv].
    destruct (Py.float_of_Z (kline_interval c) <=? d)%float.
    + destruct (timestamp_ms (default now (last_update c !! symbol)))
        as [closed_ms|]; [|exact Hinv].
      assert (Hstored : every_bar P
                (with_klines (with_current c symbol (stamped cur closed_ms))
                   symbol
                   (capped (history (with_current c symbol
                                       (stamped cur closed_ms)) symbol
                              ++ [stamped cur closed_ms])))).
      { apply every_bar_stored; [|apply Hstamp, Hp].
        apply every_bar_current; [exact Hinv|apply Hstamp, Hp]. }
      destruct (timestamp_ms now) as [ms|]; [|exact Hstored].
      apply every_bar_last_update, every_bar_current; [exact Hstored|].
      apply Hseed.
    + destruct (timestamp_ms now) as [ms|];
        (apply every_bar_current; [exact Hinv|apply Hupd, Hp]).
  - destruct (timestamp_ms now) as [ms|]; [|exact Hinv].
    apply every_bar_last_update, every_bar_current; [exact Hinv|apply Hseed].
Qed.

Lemma every_bar_run (P : Bar → Prop) ticks :
  (∀ ms p, P (seeded_bar ms p)) →
  (∀ b x t, P b →
     P (mkBar (open_time b) (open b) (Py.max (high b) x) (Py.min (low b) x) x
              (volume b) t)) →
  (∀ b t, P b → P (stamped b t)) →
  ∀ c, every_bar P c → every_bar P (run c ticks).
Proof.
  intros Hseed Hupd Hstamp.
  induction ticks as [|[[symbol price_data] now] ticks IH]; intros c Hc.
  - exact Hc.
  - apply IH, every_bar_update; assumption.
Qed.

Lemma every_bar_init P interval : every_bar P (init interval).
Proof.
  split.
  - intros symbol b H. cbn in H. rewrite lookup_empty in H. discriminate.
  - intros symbol b. unfold history. cbn. rewrite lookup_empty. cbn.
    intros H. apply elem_of_nil in H. contradiction.
Qed.

Lemma every_bar_explicit P c symbol :
  every_bar P c →
  Forall P (history c symbol) ∧ from_option P True (current_kline c !! symbol).
Proof.
  intros [Hc Hh]. split.
  - apply Forall_forall. intros b Hb. apply (Hh symbol), Hb.
  - destruct (current_kline c !! symbol) as [b|] eqn:Hb; [|exact I].
    apply (Hc symbol), Hb.
Qed.

(** X7: in a collector that starts empty and is driven by [_update_kline],
    every stored bar and every bar in progress has a high that is not
    below its open or its close and a low that is not above them, whatever
    prices the ticks carry. *)
Theorem bars_keep_open_and_close_between_low_and_high interval ticks symbol :
  Forall ordered_bar (history (run (init interval) ticks) symbol) ∧
  from_option ordered_bar True
              (current_kline (run (init interval) ticks) !! symbol).
Proof.
  apply every_bar_explicit.
  apply every_bar_run; [apply ordered_seeded| |auto|apply every_bar_init].
  intros b x t Hb. apply ordered_updated, Hb.
Qed.

(** X8: [_update_kline] never accumulates volume: in a collector that
    starts empty and is driven by [_update_kline], every stored bar and
    every bar in progress has volume 0, whatever volume the ticks carry. *)
Theorem aggregated_bars_have_zero_volume interval ticks symbol :
  Forall (λ b, volume b = 0%float)
         (history (run (init interval) ticks) symbol) ∧
  from_option (λ b, volume b = 0%float) True
              (current_kline (run (init interval) ticks) !! symbol).
Proof.
  apply every_bar_explicit.
  apply every_bar_run; [reflexivity| | |apply every_bar_init].
  - intros b x t Hb. exact Hb.
  - intros b t Hb. exact Hb.
Qed.

(** X9: a tick for one symbol leaves the interval, the monitored set and
    the collecting flag alone, and leaves the stored bars, the bar in
    progress and the recorded clock of every other symbol as they were; a
    tick without price data changes nothing at all. *)
Theorem tick_touches_one_symbol c symbol price_data now :
  let c' := _update_kline c symbol price_data now in
  kline_interval c' = kline_interval c ∧
  symbols c' = symbols c ∧
  is_collecting c' = is_collecting c ∧
  (∀ other, other ≠ symbol →
     klines c' !! other = klines c !! other ∧
     current_kline c' !! other = current_kline c !! other ∧
     last_update c' !! other = last_update c !! other) ∧
  (price_data = None → c' = c).
Proof.
  intros c'. subst c'. unfold _update_kline.
  repeat case_match; subst;
    cbn [with_current with_last_update with_klines kline_interval symbols
         is_collecting klines current_kline last_update];
    (split; [reflexivity|]); (split; [reflexivity|]); (split; [reflexivity|]);
    (split; [|first [reflexivity|discriminate]]);
    intros other Hne; rewrite ?lookup_insert_ne by (apply not_eq_sym, Hne);
    auto.
Qed.

Lemma tick_touches_one_symbol_witness :
  let c := run (init 30) (example_ticks "ETHUSDT") in
  let c' := _update_kline c "BTCUSDT" (Some (snapshot 100)) (seconds 40) in
  "ETHUSDT" ≠ "BTCUSDT" ∧
  klines c' !! "ETHUSDT" = klines c !! "ETHUSDT" ∧
  current_kline c' !! "ETHUSDT" = current_kline c !! "ETHUSDT" ∧
  @None PriceData = None ∧
  _update_kline c "BTCUSDT" None (seconds 40) = c.
Proof.
  intros c c'.
  assert (Hne : "ETHUSDT" ≠ "BTCUSDT") by discriminate.
  destruct (tick_touches_one_symbol c "BTCUSDT" (Some (snapshot 100))
                                    (seconds 40))
    as (_ & _ & _ & Hframe & _).
  destruct (Hframe "ETHUSDT" Hne) as (H1 & H2 & _).
  destruct (tick_touches_one_symbol c "BTCUSDT" None (seconds 40))
    as (_ & _ & _ & _ & Hnone).
  split; [exact Hne|]. split; [exact H1|]. split; [exact H2|].
  split; [reflexivity|]. exact (Hnone eq_refl).
Defined.

Lemma capped_drop l : capped l = drop (length l - 1000) l.
Proof.
  unfold capped, Py.last_slice.
  destruct (Nat.ltb_spec 1000 (length l)) as [Hlt|Hge].
  - reflexivity.
  - replace (length l - 1000)%nat with 0%nat by lia. reflexivity.
Qed.

Lemma capped_length l : (length (capped l) ≤ 1000)%nat.
Proof. rewrite capped_drop, length_drop. lia. Qed.

Lemma capped_last l b : last (capped (l ++ [b])) = Some b.
Proof.
  rewrite capped_drop, length_app. cbn [length].
  rewrite last_lookup, length_drop, lookup_drop, length_app. cbn [length].
  replace (length l + 1 - 1000
           + Init.Nat.pred (length l + 1 - (length l + 1 - 1000)))%nat
    with (length l) by lia.
  rewrite lookup_app_r by lia. rewrite Nat.sub_diag. reflexivity.
Qed.

Lemma history_step c symbol price_data now :
  history (_update_kline c symbol price_data now) symbol = history c symbol ∨
  ∃ cur closed_ms,
    current_kline c !! symbol = Some cur ∧
    history (_update_kline c symbol price_data now) symbol
      = capped (history c symbol ++ [stamped cur closed_ms]).
Proof.
  unfold _update_kline.
  destruct price_data as [price_data|]; [|left; reflexivity].
  destruct (current_kline c !! symbol) as [cur|] eqn:Hcur.
  - cbv zeta.
    destruct (total_seconds now _) as [d|]; [|left; reflexivity].
    destruct (Py.float_of_Z (kline_interval c) <=? d)%float.
    + destruct (timestamp_ms (default now (last_update c !! symbol)))
        as [closed_ms|]; [|left; reflexivity].
      right. exists cur, closed_ms. split; [reflexivity|].
      destruct (timestamp_ms now) as [ms|]; unfold history;
        cbn [with_current with_last_update with_klines klines];
        rewrite lookup_insert_eq; reflexivity.
    + left. destruct (timestamp_ms now); reflexivity.
  - left. destruct (timestamp_ms now); reflexivity.
Qed.

Lemma history_other c symbol price_data now other :
  other ≠ symbol →
  history (_update_kline c symbol price_data now) other = history c other.
Proof.
  intros Hne. unfold history, _update_kline.
  repeat case_match; subst;
    cbn [with_current with_last_update with_klines klines];
    rewrite ?lookup_insert_ne by (apply not_eq_sym, Hne); reflexivity.
Qed.

Lemma history_bounded_run ticks : ∀ c,
  (∀ symbol, (length (history c symbol) ≤ 1000)%nat) →
  ∀ symbol, (length (history (run c ticks) symbol) ≤ 1000)%nat.
Proof.
  induction ticks as [|[[s price_data] now] ticks IH]; intros c Hc symbol.
  - apply Hc.
  - apply IH. intros sym. destruct (decide (sym = s)) as [->|Hne].
    + destruct (history_step c s price_data now) as [-> | (cur & t & _ & ->)];
        [apply Hc|apply capped_length].
    + rewrite history_other by exact Hne. apply Hc.
Qed.

(** X10: a tick either leaves the stored bars of its symbol as they are
    or appends the finalized bar in progress to them, dropping from the
    front whatever exceeds 1000 bars; the appended bar is then what
    [get_latest_kline] returns.  In a collector that starts empty and is
    driven by [_update_kline] no symbol ever has more than 1000 stored
    bars. *)
Theorem history_appends_and_evicts_oldest :
  (∀ c symbol price_data now,
     let c' := _update_kline c symbol price_data now in
     history c' symbol = history c symbol ∨
     ∃ cur closed_ms,
       current_kline c !! symbol = Some cur ∧
       history c' symbol
         = drop (length (history c symbol) + 1 - 1000)
                (history c symbol ++ [stamped cur closed_ms]) ∧
       (length (history c' symbol) ≤ 1000)%nat ∧
       get_latest_kline c' symbol = Some (stamped cur closed_ms)) ∧
  (∀ interval ticks symbol,
     (length (history (run (init interval) ticks) symbol) ≤ 1000)%nat).
Proof.
  split.
  - intros c symbol price_data now c'. subst c'.
    destruct (history_step c symbol price_data now)
      as [H | (cur & t & Hcur & H)]; [left; exact H|].
    right. exists cur, t. split; [exact Hcur|].
    unfold get_latest_kline. rewrite H. split.
    + rewrite capped_drop, length_app. reflexivity.
    + split; [apply capped_length|apply capped_last].
  - intros interval ticks symbol. apply history_bounded_run.
    intros sym. unfold history. cbn. rewrite lookup_empty. cbn. lia.
Qed.

Lemma all_latest_lookup c symbol :
  get_all_latest_klines c !! symbol
    = if decide (symbol ∈ symbols c) then Some (get_latest_kline c symbol)
      else None.
Proof.
  unfold get_all_latest_klines.
  destruct (decide (symbol ∈ symbols c)) as [Hin|Hout].
  - apply lookup_set_to_map; [cbn; auto|]. exists symbol. auto.
  - apply eq_None_not_Some. intros [x Hx].
    apply lookup_set_to_map in Hx as (y & Hy & Heq); [|cbn; auto].
    injection Heq as -> _. contradiction.
Qed.

(** X11: [get_all_latest_klines] has one entry for every monitored symbol,
    holding what [get_latest_kline] returns for it, and none for any other
    symbol.  [remove_symbol] drops the entry but keeps the stored bars of
    the symbol; [add_symbol] adds the entry, and adding a symbol twice is
    the same as adding it once. *)
Theorem latest_klines_follow_monitored_symbols c symbol :
  (symbol ∈ symbols c →
     get_all_latest_klines c !! symbol = Some (get_latest_kline c symbol)) ∧
  (symbol ∉ symbols c → get_all_latest_klines c !! symbol = None) ∧
  get_all_latest_klines (remove_symbol c symbol) !! symbol = None ∧
  history (remove_symbol c symbol) symbol = history c symbol ∧
  get_all_latest_klines (add_symbol c symbol) !! symbol
    = Some (get_latest_kline c symbol) ∧
  add_symbol (add_symbol c symbol) symbol = add_symbol c symbol.
Proof.
  rewrite !all_latest_lookup.
  split; [intros H; rewrite decide_True by exact H; reflexivity|].
  split; [intros H; rewrite decide_False by exact H; reflexivity|].
  split.
  { rewrite decide_False; [reflexivity|]. cbn [remove_symbol symbols].
    rewrite elem_of_difference, elem_of_singleton. tauto. }
  split; [reflexivity|].
  split.
  { rewrite decide_True; [reflexivity|]. cbn [add_symbol symbols].
    apply elem_of_union_l, elem_of_singleton. reflexivity. }
  unfold add_symbol. cbn [kline_interval klines current_kline last_update
                          symbols is_collecting].
  f_equal. apply set_eq. intros x.
  rewrite !elem_of_union, elem_of_singleton. tauto.
Qed.

Lemma latest_klines_follow_monitored_symbols_witness :
  let c := add_symbol (run (init 30) (example_ticks "BTCUSDT")) "BTCUSDT" in
  "BTCUSDT" ∈ symbols c ∧ ("ETHUSDT" ∉ symbols c) ∧
  get_all_latest_klines c !! "BTCUSDT"
    = Some (Some (mkBar 0 100 105 100 105 0 0)) ∧
  get_all_latest_klines c !! "ETHUSDT" = None.
Proof.
  intros c.
  assert (Hin : "BTCUSDT" ∈ symbols c).
  { apply elem_of_union_l, elem_of_singleton. reflexivity. }
  assert (Hout : "ETHUSDT" ∉ symbols c).
  { cbn [c add_symbol symbols]. rewrite elem_of_union, elem_of_singleton.
    intros [H|H]; [discriminate|]. revert H. apply not_elem_of_empty. }
  destruct (latest_klines_follow_monitored_symbols c "BTCUSDT") as (H1 & _).
  destruct (latest_klines_follow_monitored_symbols c "ETHUSDT")
    as (_ & H2 & _).
  split; [exact Hin|]. split; [exact Hout|].
  split; [rewrite (H1 Hin); vm_compute; reflexivity|exact (H2 Hout)].
Defined.

End BarFacts.

(** ** trading_engine.py: the ledger over a run of calls *)

Module LedgerFacts.

Import Engine EngineFacts.

(** X12: when [open_position] returns a trade, the exchange quoted a
    non-zero price, half of the available balance was not below 10 and the
    order for the formatted quantity was accepted.  The trade is a new
    object at the end of the ledger, OPEN at that price and quantity and
    without exit data; it becomes the active position of the symbol,
    replacing whatever was there, and the last entry of the symbol's trade
    log.  Half of the available balance is set aside, the trade counter
    goes up by one, the last error is cleared, and the total capital, the
    closed trades and the equity curve are untouched. *)
Theorem open_position_success_shape e client new_id now symbol side signal e' r :
  open_position e client new_id now symbol side signal = (e', Some r) →
  ∃ p q,
    get_futures_price client symbol = Some p ∧
    (p =? 0)%float = false ∧
    (available_balance e * 0.5 <? 10)%float = false ∧
    _format_quantity symbol (available_balance e * 0.5 / p) = Some q ∧
    accepted (place_order client symbol (side_value side) "MARKET" q) = true ∧
    r = length (store e) ∧
    store e'
      = store e ++ [mkTrade new_id symbol side p q now None None None 0 0
                            OPEN signal] ∧
    active_positions e' = <[symbol := r]> (active_positions e) ∧
    trades e' = <[symbol := default [] (trades e !! symbol) ++ [r]]> (trades e) ∧
    available_balance e'
      = (available_balance e - available_balance e * 0.5)%float ∧
    total_capital e' = total_capital e ∧
    closed_trades e' = closed_trades e ∧
    equity_curve e' = equity_curve e ∧
    total_trades (stats e') = (total_trades (stats e) + 1)%Z ∧
    last_error e' = None.
Proof.
  unfold open_position, _allocate_position_size, _measure_network_latency.
  fields. intros H.
  destruct (get_futures_price client symbol) as [p|]; [|discriminate].
  destruct (p =? 0)%float eqn:Hnz; [discriminate|].
  destruct (available_balance e * 0.5 <? 10)%float eqn:Hok; [discriminate|].
  destruct (_format_quantity symbol (available_balance e * 0.5 / p))
    as [q|] eqn:Hq; [|discriminate].
  destruct (place_order client symbol (side_value side) "MARKET" q)
    as [|st err] eqn:Horder; [discriminate|].
  destruct (bool_decide (st = Some "FAILED")) eqn:Hst; [discriminate|].
  injection H as <- <-. exists p, q. fields.
  rewrite Horder. cbn [accepted]. rewrite Hst.
  repeat split; try reflexivity; assumption.
Qed.

Lemma open_position_success_shape_witness :
  let res := open_position (init 3000 0%Z) (example_client 50000) "a1b2c3d4"
                           1%Z "BTCUSDT" LONG "GOLDEN_CROSS" in
  res = (res.1, Some 0%nat) ∧
  active_positions res.1 !! "BTCUSDT" = Some 0%nat ∧
  available_balance res.1 = 1500%float ∧
  total_capital res.1 = 3000%float.
Proof.
  intros res.
  assert (H : res = (res.1, Some 0%nat)) by (vm_compute; reflexivity).
  destruct (open_position_success_shape _ _ _ _ _ _ _ _ _ H)
    as (p & q & _ & _ & _ & _ & _ & _ & _ & Hac & _ & Hav & Htc & _).
  split; [exact H|].
  split; [rewrite Hac; apply lookup_insert_eq|].
  split; [rewrite Hav; vm_compute; reflexivity|].
  rewrite Htc. reflexivity.
Defined.

Lemma update_stats_frame e e' b :
  _update_stats e = (e', b) →
  initial_capital e' = initial_capital e ∧
  available_balance e' = available_balance e ∧
  total_capital e' = total_capital e ∧
  store e' = store e ∧ trades e' = trades e ∧
  active_positions e' = active_positions e ∧
  closed_trades e' = closed_trades e ∧
  equity_curve e' = equity_curve e ∧
  network_latency e' = network_latency e ∧
  last_error e' = last_error e ∧
  total_trades (stats e') = total_trades (stats e) ∧
  winning_trades (stats e') = winning_trades (stats e) ∧
  losing_trades (stats e') = losing_trades (stats e) ∧
  total_profit_loss (stats e') = total_profit_loss (stats e) ∧
  s_current_capital (stats e') = total_capital e ∧
  s_available_balance (stats e') = available_balance e.
Proof.
  unfold _update_stats. intros H.
  repeat case_match; simplify_eq; cbn; auto 20.
Qed.

(** X13: when [close_position] returns a trade, it is the active position
    of the symbol and the exchange quoted a price.  The trade object is
    updated in place, and no other object of the ledger changes: it is
    CLOSED, exits at the quoted price with its entry quantity, and its
    profit is the price difference times the quantity, signed by the side.
    The symbol has no active position any more, the trade is appended to
    the closed trades, the total capital grows by the profit, the
    available balance by the exit amount, the equity curve gets one point
    with the new capital, and the statistics add the profit to their
    running total; trade logs and the trade counter are untouched. *)
Theorem close_position_success_shape e client now now' symbol signal e' r :
  close_position e client now now' symbol signal = (e', Some r) →
  ∃ trade p pnl,
    active_positions e !! symbol = Some r ∧
    store e !! r = Some trade ∧
    get_futures_price client symbol = Some p ∧
    pnl = match side trade with
          | LONG => ((p - entry_price trade) * entry_quantity trade)%float
          | SHORT => ((entry_price trade - p) * entry_quantity trade)%float
          end ∧
    store e' !! r
      = Some (mkTrade (trade_id trade) (Engine.symbol trade) (side trade)
                      (entry_price trade) (entry_quantity trade)
                      (entry_time trade) (Some p) (Some (entry_quantity trade))
                      (Some now) pnl
                      (pnl / (entry_price trade * entry_quantity trade) * 100)
                      CLOSED (macd_signal trade)) ∧
    (∀ other, other ≠ r → store e' !! other = store e !! other) ∧
    length (store e') = length (store e) ∧
    available_balance e'
      = (available_balance e + p * entry_quantity trade)%float ∧
    total_capital e' = (total_capital e + pnl)%float ∧
    active_positions e' = delete symbol (active_positions e) ∧
    closed_trades e' = closed_trades e ++ [r] ∧
    equity_curve e'
      = equity_curve e
          ++ [mkPoint now' (total_capital e + pnl)
                      (available_balance e + p * entry_quantity trade)] ∧
    trades e' = trades e ∧
    total_trades (stats e') = total_trades (stats e) ∧
    total_profit_loss (stats e') = (total_profit_loss (stats e) + pnl)%float ∧
    s_current_capital (stats e') = (total_capital e + pnl)%float.
Proof.
  unfold close_position, _measure_network_latency. fields. intros H.
  destruct (active_positions e !! symbol) as [r0|] eqn:Hr; [|discriminate].
  fields.
  destruct (store e !! r0) as [trade|] eqn:Ht; [|discriminate].
  destruct (get_futures_price client symbol) as [p|]; [|discriminate].
  destruct (p =? 0)%float; [discriminate|].
  destruct (_format_quantity symbol (entry_quantity trade)); [|discriminate].
  destruct (place_order client symbol _ "MARKET" _) as [|st err];
    [discriminate|].
  destruct (bool_decide (st = Some "FAILED")); [discriminate|].
  unfold Py.truediv in H.
  destruct (entry_price trade * entry_quantity trade =? 0)%float;
    [discriminate|].
  fields.
  destruct (initial_capital e =? 0)%float; [discriminate|].
  destruct (_update_stats _) as [e4 ok] eqn:Hstats.
  destruct ok; [|discriminate]. injection H as <- <-.
  apply update_stats_frame in Hstats
    as (_ & Hav & Htc & Hst & Htr & Hac & Hcl & Heq & _ & _ & Htt & _ & _
        & Htp & Hcc & _).
  fields. cbn [with_rates count_result total_trades total_profit_loss] in *.
  assert (Hlen : (r0 < length (store e))%nat) by (eapply lookup_lt_Some, Ht).
  exists trade, p. eexists. split; [reflexivity|]. split; [exact Ht|].
  split; [reflexivity|]. split; [reflexivity|].
  rewrite Hav, Htc, Hst, Htr, Hac, Hcl, Heq, Htt, Htp, Hcc.
  split; [apply list_lookup_insert_eq; exact Hlen|].
  split; [intros other Hne; apply list_lookup_insert_ne; congruence|].
  split; [apply length_insert|].
  repeat split; reflexivity.
Qed.

Lemma close_position_success_shape_witness :
  let res := close_position example_open_engine (example_client 51000)
                            2%Z 3%Z "BTCUSDT" "DEAD_CROSS" in
  res = (res.1, Some 0%nat) ∧
  active_positions res.1 !! "BTCUSDT" = None ∧
  closed_trades res.1 = [0%nat] ∧
  total_capital res.1 = 3030%float ∧
  (status <$> store res.1 !! 0%nat) = Some CLOSED.
Proof.
  intros res.
  assert (H : res = (res.1, Some 0%nat)) by (vm_compute; reflexivity).
  destruct (close_position_success_shape _ _ _ _ _ _ _ _ H)
    as (trade & p & pnl & _ & _ & _ & _ & Hst & _ & _ & _ & _ & Hac & Hcl & _).
  split; [exact H|].
  split; [rewrite Hac; apply lookup_delete_eq|].
  split; [rewrite Hcl; reflexivity|].
  split; [vm_compute; reflexivity|].
  rewrite Hst. reflexivity.
Defined.

Lemma open_position_outcomes e client new_id now symbol side signal :
  let e' := (open_position e client new_id now symbol side signal).1 in
  portfolio e' = portfolio e ∨
  ∃ t,
    Engine.symbol t = symbol ∧ status t = OPEN ∧
    store e' = store e ++ [t] ∧
    active_positions e' = <[symbol := length (store e)]> (active_positions e) ∧
    trades e'
      = <[symbol := default [] (trades e !! symbol) ++ [length (store e)]]>
          (trades e) ∧
    closed_trades e' = closed_trades e ∧
    equity_curve e' = equity_curve e ∧
    total_capital e' = total_capital e ∧
    initial_capital e' = initial_capital e ∧
    total_trades (stats e') = (total_trades (stats e) + 1)%Z ∧
    total_profit_loss (stats e') = total_profit_loss (stats e).
Proof.
  intros e'. subst e'. unfold open_position.
  repeat case_match; cbn [fst]; try (left; reflexivity).
  right. eexists. cbn. repeat split; reflexivity.
Qed.

Lemma close_position_outcomes e client now now' symbol signal :
  let e' := (close_position e client now now' symbol signal).1 in
  initial_capital e' = initial_capital e ∧
  trades e' = trades e ∧
  total_trades (stats e') = total_trades (stats e) ∧
  ((store e' = store e ∧ active_positions e' = active_positions e ∧
    closed_trades e' = closed_trades e ∧ equity_curve e' = equity_curve e ∧
    total_capital e' = total_capital e ∧
    total_profit_loss (stats e') = total_profit_loss (stats e)) ∨
   (∃ r trade t',
      active_positions e !! symbol = Some r ∧ store e !! r = Some trade ∧
      Engine.symbol t' = Engine.symbol trade ∧
      store e' = <[r := t']> (store e) ∧
      active_positions e' = active_positions e ∧
      closed_trades e' = closed_trades e ∧ equity_curve e' = equity_curve e ∧
      ((total_capital e' = total_capital e ∧
        total_profit_loss (stats e') = total_profit_loss (stats e)) ∨
       (initial_capital e =? 0)%float = true)) ∨
   (∃ r trade t' pnl,
      active_positions e !! symbol = Some r ∧ store e !! r = Some trade ∧
      Engine.symbol t' = Engine.symbol trade ∧ status t' = CLOSED ∧
      profit_loss t' = pnl ∧
      store e' = <[r := t']> (store e) ∧
      active_positions e' = delete symbol (active_positions e) ∧
      closed_trades e' = closed_trades e ++ [r] ∧
      total_capital e' = (total_capital e + pnl)%float ∧
      total_profit_loss (stats e') = (total_profit_loss (stats e) + pnl)%float ∧
      equity_curve e'
        = equity_curve e
            ++ [mkPoint now' (total_capital e + pnl) (available_balance e')])).
Proof.
  intros e'. subst e'. unfold close_position, _measure_network_latency. fields.
  destruct (active_positions e !! symbol) as [r|] eqn:Hr;
    [|fields; (split; [reflexivity|]); (split; [reflexivity|]); (split; [reflexivity|]); left; repeat split; reflexivity].
  fields.
  destruct (store e !! r) as [trade|] eqn:Ht;
    [|fields; (split; [reflexivity|]); (split; [reflexivity|]); (split; [reflexivity|]); left; repeat split; reflexivity].
  destruct (get_futures_price client symbol) as [p|];
    [|fields; (split; [reflexivity|]); (split; [reflexivity|]); (split; [reflexivity|]); left; repeat split; reflexivity].
  destruct (p =? 0)%float;
    [fields; (split; [reflexivity|]); (split; [reflexivity|]); (split; [reflexivity|]); left; repeat split; reflexivity|].
  destruct (_format_quantity symbol (entry_quantity trade));
    [|fields; (split; [reflexivity|]); (split; [reflexivity|]); (split; [reflexivity|]); left; repeat split; reflexivity].
  destruct (place_order client symbol _ "MARKET" _) as [|st err];
    [fields; (split; [reflexivity|]); (split; [reflexivity|]); (split; [reflexivity|]); left; repeat split; reflexivity|].
  destruct (bool_decide (st = Some "FAILED"));
    [fields; (split; [reflexivity|]); (split; [reflexivity|]); (split; [reflexivity|]); left; repeat split; reflexivity|].
  unfold Py.truediv.
  destruct (entry_price trade * entry_quantity trade =? 0)%float.
  { fields. split; [reflexivity|]. split; [reflexivity|].
    split; [reflexivity|]. right; left.
    match goal with
    | |- context [<[r := ?t]> (store e)] => exists r, trade, t
    end.
    split; [reflexivity|]. split; [exact Ht|]. split; [reflexivity|].
    split; [reflexivity|]. split; [reflexivity|]. split; [reflexivity|].
    split; [reflexivity|]. left. split; reflexivity. }
  fields.
  destruct (initial_capital e =? 0)%float eqn:Hic.
  { fields. cbn [count_result total_trades].
    split; [reflexivity|]. split; [reflexivity|].
    split; [reflexivity|]. right; left.
    match goal with
    | |- context [<[r := ?t]> (store e)] => exists r, trade, t
    end.
    split; [reflexivity|]. split; [exact Ht|]. split; [reflexivity|].
    split; [reflexivity|]. split; [reflexivity|]. split; [reflexivity|].
    split; [reflexivity|]. right. reflexivity. }
  destruct (_update_stats _) as [e4 ok] eqn:Hstats.
  apply update_stats_frame in Hstats
    as (Hi & Hav & Htc & Hst & Htr & Hac & Hcl & Heq & _ & _ & Htt & _ & _
        & Htp & _ & _).
  fields. cbn [with_rates count_result total_trades total_profit_loss] in *.
  assert (Hgoal :
    initial_capital e4 = initial_capital e ∧ trades e4 = trades e ∧
    total_trades (stats e4) = total_trades (stats e) ∧
    ∃ t' pnl,
      Engine.symbol t' = Engine.symbol trade ∧ status t' = CLOSED ∧
      profit_loss t' = pnl ∧
      store e4 = <[r := t']> (store e) ∧
      active_positions e4 = delete symbol (active_positions e) ∧
      closed_trades e4 = closed_trades e ++ [r] ∧
      total_capital e4 = (total_capital e + pnl)%float ∧
      total_profit_loss (stats e4) = (total_profit_loss (stats e) + pnl)%float ∧
      equity_curve e4
        = equity_curve e
            ++ [mkPoint now' (total_capital e + pnl) (available_balance e4)]).
  { rewrite Hi, Htr, Htt, Hst, Hac, Hcl, Htc, Htp, Heq, Hav.
    split; [reflexivity|]. split; [reflexivity|]. split; [reflexivity|].
    match goal with
    | |- context [<[r := ?t]> (store e)] => exists t, (profit_loss t)
    end.
    repeat split; reflexivity. }
  destruct Hgoal as (G1 & G2 & G3 & t' & pnl & G4).
  destruct ok; cbn [fst]; (split; [exact G1|]); (split; [exact G2|]);
    (split; [exact G3|]); right; right; exists r, trade, t', pnl;
    (split; [reflexivity|]); (split; [exact Ht|]); exact G4.
Qed.

Lemma sound_init c t : sound (init c t).
Proof.
  unfold sound. cbn. split; [reflexivity|].
  split; [intros ? ? H; rewrite lookup_empty in H; discriminate|].
  split; [intros ? ? ? H; rewrite lookup_empty in H; discriminate|].
  split; [intros r H; apply elem_of_nil in H; contradiction|].
  apply NoDup_nil_2.
Qed.

Lemma sound_portfolio e e' : portfolio e' = portfolio e → sound e → sound e'.
Proof.
  unfold portfolio, sound. intros H.
  injection H as _ _ _ Hst Htr Hac Hcl _ Hstats.
  rewrite Hst, Htr, Hac, Hcl, Hstats. auto.
Qed.

Lemma sound_open e client new_id now symbol side signal :
  sound e → sound (open_position e client new_id now symbol side signal).1.
Proof.
  intros Hs.
  destruct (open_position_outcomes e client new_id now symbol side signal)
    as [Hp | (t & Hsym & Hopen & Hst & Hac & Htr & Hcl & _ & _ & _ & Htt & _)];
    [exact (sound_portfolio _ _ Hp Hs)|].
  destruct Hs as (S1 & S2 & S3 & S4 & S5). unfold sound.
  rewrite Hst, Hac, Htr, Hcl, Htt.
  split; [rewrite length_app; cbn; lia|].
  split.
  { intros s r. destruct (decide (symbol = s)) as [<-|Hne].
    - rewrite lookup_insert_eq. intros [= <-]. exists t.
      rewrite lookup_app_r, Nat.sub_diag by lia. auto.
    - rewrite lookup_insert_ne by exact Hne. intros H.
      destruct (S2 _ _ H) as (t0 & Ht0 & Hs0). exists t0.
      rewrite (lookup_app_l_Some _ _ _ _ Ht0). auto. }
  split.
  { intros s rs r. destruct (decide (symbol = s)) as [<-|Hne].
    - rewrite lookup_insert_eq. intros [= <-] Hin.
      apply elem_of_app in Hin as [Hin|Hin].
      + destruct (trades e !! symbol) as [old|] eqn:Hold;
          [|apply elem_of_nil in Hin; contradiction].
        destruct (S3 _ _ _ Hold Hin) as (t0 & Ht0 & Hs0). exists t0.
        rewrite (lookup_app_l_Some _ _ _ _ Ht0). auto.
      + apply list_elem_of_singleton in Hin as ->. exists t.
        rewrite lookup_app_r, Nat.sub_diag by lia. auto.
    - rewrite lookup_insert_ne by exact Hne. intros H Hin.
      destruct (S3 _ _ _ H Hin) as (t0 & Ht0 & Hs0). exists t0.
      rewrite (lookup_app_l_Some _ _ _ _ Ht0). auto. }
  split; [|exact S5].
  intros r Hin. destruct (S4 r Hin) as ((t0 & Ht0 & Hc0) & Hna). split.
  - exists t0. rewrite (lookup_app_l_Some _ _ _ _ Ht0). auto.
  - intros s. destruct (decide (symbol = s)) as [<-|Hne].
    + rewrite lookup_insert_eq. intros [= <-].
      apply lookup_lt_Some in Ht0. lia.
    + rewrite lookup_insert_ne by exact Hne. apply Hna.
Qed.

Lemma store_update_lookup (st : list Trade) r t' trade r' :
  st !! r = Some trade →
  <[r := t']> st !! r' = if decide (r' = r) then Some t' else st !! r'.
Proof.
  intros H. destruct (decide (r' = r)) as [->|Hne].
  - apply list_lookup_insert_eq. eapply lookup_lt_Some, H.
  - apply list_lookup_insert_ne. congruence.
Qed.

Lemma sound_store_update e r trade t' symbol :
  sound e →
  active_positions e !! symbol = Some r → store e !! r = Some trade →
  Engine.symbol t' = Engine.symbol trade →
  total_trades (stats e) = Z.of_nat (length (<[r := t']> (store e))) ∧
  (∀ s r', active_positions e !! s = Some r' →
     ∃ t, <[r := t']> (store e) !! r' = Some t ∧ Engine.symbol t = s) ∧
  (∀ s rs r', trades e !! s = Some rs → r' ∈ rs →
     ∃ t, <[r := t']> (store e) !! r' = Some t ∧ Engine.symbol t = s) ∧
  (∀ r', r' ∈ closed_trades e →
     r' ≠ r ∧ ∃ t, <[r := t']> (store e) !! r' = Some t ∧ status t = CLOSED).
Proof.
  intros (S1 & S2 & S3 & S4 & S5) Hr Ht Hsym.
  split; [rewrite length_insert; exact S1|].
  split.
  { intros s r' H. destruct (S2 _ _ H) as (t0 & Ht0 & Hs0).
    rewrite (store_update_lookup _ _ _ _ _ Ht).
    destruct (decide (r' = r)) as [->|Hne]; [|eauto].
    exists t'. split; [reflexivity|]. congruence. }
  split.
  { intros s rs r' H Hin. destruct (S3 _ _ _ H Hin) as (t0 & Ht0 & Hs0).
    rewrite (store_update_lookup _ _ _ _ _ Ht).
    destruct (decide (r' = r)) as [->|Hne]; [|eauto].
    exists t'. split; [reflexivity|]. congruence. }
  intros r' Hin. destruct (S4 r' Hin) as ((t0 & Ht0 & Hc0) & Hna).
  assert (Hne : r' ≠ r) by (intros ->; exact (Hna _ Hr)).
  split; [exact Hne|].
  rewrite (store_update_lookup _ _ _ _ _ Ht), decide_False by exact Hne. eauto.
Qed.

Lemma sound_close e client now now' symbol signal :
  sound e → sound (close_position e client now now' symbol signal).1.
Proof.
  intros Hs.
  destruct (close_position_outcomes e client now now' symbol signal)
    as (_ & Htr & Htt & Hcases).
  destruct Hcases as
    [(Hst & Hac & Hcl & _)
    |[(r & trade & t' & Hr & Ht & Hsym & Hst & Hac & Hcl & _)
     |(r & trade & t' & pnl & Hr & Ht & Hsym & Hstatus & _ & Hst & Hac & Hcl
       & _)]].
  - destruct Hs as (S1 & S2 & S3 & S4 & S5). unfold sound.
    rewrite Htr, Htt, Hst, Hac, Hcl. auto.
  - destruct (sound_store_update e r trade t' symbol Hs Hr Ht Hsym)
      as (U1 & U2 & U3 & U4).
    destruct Hs as (S1 & S2 & S3 & S4 & S5). unfold sound.
    rewrite Htr, Htt, Hst, Hac, Hcl.
    split; [exact U1|]. split; [exact U2|]. split; [exact U3|].
    split; [|exact S5].
    intros r' Hin. split; [apply U4, Hin|apply S4, Hin].
  - destruct (sound_store_update e r trade t' symbol Hs Hr Ht Hsym)
      as (U1 & U2 & U3 & U4).
    destruct Hs as (S1 & S2 & S3 & S4 & S5). unfold sound.
    rewrite Htr, Htt, Hst, Hac, Hcl.
    split; [exact U1|]. split.
    { intros s r' H. apply lookup_delete_Some in H as [_ H]. eauto. }
    split; [exact U3|]. split.
    { intros r' Hin. apply elem_of_app in Hin as [Hin|Hin].
      - split; [apply U4, Hin|]. intros s H.
        apply lookup_delete_Some in H as [_ H]. exact (proj2 (S4 r' Hin) s H).
      - apply list_elem_of_singleton in Hin as ->. split.
        + exists t'. split; [|exact Hstatus].
          rewrite (store_update_lookup _ _ _ _ _ Ht), decide_True; reflexivity.
        + intros s H. apply lookup_delete_Some in H as [Hne H].
          destruct (S2 _ _ H) as (t0 & Ht0 & Hs0).
          destruct (S2 _ _ Hr) as (t1 & Ht1 & Hs1). congruence. }
    apply NoDup_app. split; [exact S5|]. split; [|apply NoDup_singleton].
    intros r' Hin Hin'. apply list_elem_of_singleton in Hin' as ->.
    exact (proj2 (S4 r Hin) _ Hr).
Qed.

Lemma sound_after_all calls : ∀ e, sound e → sound (after_all e calls).
Proof.
  induction calls as [|c calls IH]; intros e He; [exact He|].
  apply IH. destruct c; [apply sound_open|apply sound_close]; exact He.
Qed.

Lemma closed_profits_ext e e' :
  closed_trades e' = closed_trades e →
  (∀ r, r ∈ closed_trades e → store e' !! r = store e !! r) →
  closed_profits e' = closed_profits e.
Proof.
  unfold closed_profits. intros -> H.
  induction (closed_trades e) as [|r l IH]; [reflexivity|].
  cbn [omap list_omap]. rewrite (H r) by apply list_elem_of_here.
  rewrite IH; [reflexivity|].
  intros r' Hin. apply H. apply list_elem_of_further, Hin.
Qed.

Lemma balanced_init c t : balanced (init c t).
Proof. unfold balanced, closed_profits. cbn. auto. Qed.

Lemma balanced_open e client new_id now symbol side signal :
  sound e → balanced e →
  balanced (open_position e client new_id now symbol side signal).1.
Proof.
  intros Hs (B1 & B2 & B3 & B4).
  destruct (open_position_outcomes e client new_id now symbol side signal)
    as [Hp | (t & _ & _ & Hst & _ & _ & Hcl & Heq & Htc & Hic & _ & Htp)].
  - unfold portfolio in Hp. injection Hp as Hic _ Htc Hst _ _ Hcl Heq Hstats.
    unfold balanced, closed_profits. rewrite Hic, Htc, Hst, Hcl, Heq, Hstats.
    auto.
  - assert (Hcp : closed_profits (open_position e client new_id now symbol side
                                                signal).1 = closed_profits e).
    { apply closed_profits_ext; [exact Hcl|]. intros r Hin. rewrite Hst.
      destruct (proj1 (proj1 (proj2 (proj2 (proj2 Hs))) r Hin)) as (t0 & Ht0 & _).
      rewrite (lookup_app_l_Some _ _ _ _ Ht0). auto. }
    unfold balanced. rewrite Hcp, Htc, Hic, Htp, Heq, Hcl. auto.
Qed.

Lemma balanced_close e client now now' symbol signal :
  sound e → (initial_capital e =? 0)%float = false → balanced e →
  balanced (close_position e client now now' symbol signal).1.
Proof.
  intros Hs Hnz (B1 & B2 & B3 & B4).
  destruct (close_position_outcomes e client now now' symbol signal)
    as (Hic & _ & _ & Hcases).
  destruct Hcases as
    [(Hst & _ & Hcl & Heq & Htc & Htp)
    |[(r & trade & t' & Hr & Ht & Hsym & Hst & _ & Hcl & Heq & Hsame)
     |(r & trade & t' & pnl & Hr & Ht & Hsym & _ & Hpnl & Hst & _ & Hcl & Htc
       & Htp & Heq)]].
  - unfold balanced, closed_profits. rewrite Hic, Htc, Hst, Hcl, Heq, Htp. auto.
  - destruct Hsame as [[Htc Htp]|Hz]; [|congruence].
    assert (Hcp : closed_profits (close_position e client now now' symbol
                                                 signal).1 = closed_profits e).
    { apply closed_profits_ext; [exact Hcl|]. intros r' Hin. rewrite Hst.
      rewrite (store_update_lookup _ _ _ _ _ Ht).
      destruct (decide (r' = r)) as [->|]; [|reflexivity].
      destruct (proj2 (proj1 (proj2 (proj2 (proj2 Hs))) r Hin) _ Hr). }
    unfold balanced. rewrite Hcp, Hic, Htc, Htp, Heq, Hcl. auto.
  - assert (Hcp : closed_profits (close_position e client now now' symbol
                                                 signal).1
                  = closed_profits e ++ [pnl]).
    { unfold closed_profits. rewrite Hcl, Hst, omap_app. f_equal.
      - apply (closed_profits_ext e (with_store e (<[r := t']> (store e))));
          [reflexivity|].
        intros r' Hin. cbn [with_store store].
        rewrite (store_update_lookup _ _ _ _ _ Ht).
        destruct (decide (r' = r)) as [->|]; [|reflexivity].
        destruct (proj2 (proj1 (proj2 (proj2 (proj2 Hs))) r Hin) _ Hr).
      - cbn [omap list_omap].
        rewrite (store_update_lookup _ _ _ _ _ Ht), decide_True by reflexivity.
        cbn. rewrite Hpnl. reflexivity. }
    unfold balanced. rewrite Hcp, Hic, Htc, Htp, Heq, Hcl, !fold_left_app.
    cbn [fold_left]. rewrite <- B1, <- B2, !length_app, last_snoc. cbn.
    split; [reflexivity|]. split; [reflexivity|]. split; [lia|reflexivity].
Qed.

Lemma initial_capital_after e call :
  initial_capital (after e call) = initial_capital e.
Proof.
  destruct call as [client new_id now symbol side signal
                   |client now now' symbol signal]; cbn [after].
  - destruct (open_position_outcomes e client new_id now symbol side signal)
      as [Hp | (t & _ & _ & _ & _ & _ & _ & _ & _ & Hic & _)]; [|exact Hic].
    unfold portfolio in Hp. injection Hp as Hic _ _ _ _ _ _ _ _. exact Hic.
  - exact (proj1 (close_position_outcomes e client now now' symbol signal)).
Qed.

Lemma equity_curve_after e call :
  equity_curve e `prefix_of` equity_curve (after e call).
Proof.
  destruct call as [client new_id now symbol side signal
                   |client now now' symbol signal]; cbn [after].
  - destruct (open_position_outcomes e client new_id now symbol side signal)
      as [Hp | (t & _ & _ & _ & _ & _ & _ & Heq & _)].
    + unfold portfolio in Hp. injection Hp as _ _ _ _ _ _ _ Heq _.
      rewrite Heq. reflexivity.
    + rewrite Heq. reflexivity.
  - destruct (close_position_outcomes e client now now' symbol signal)
      as (_ & _ & _ & Hcases).
    destruct Hcases as
      [(_ & _ & _ & Heq & _)
      |[(r & trade & t' & _ & _ & _ & _ & _ & _ & Heq & _)
       |(r & trade & t' & pnl & _ & _ & _ & _ & _ & _ & _ & _ & _ & _ & Heq)]];
      rewrite Heq; [reflexivity|reflexivity|apply prefix_app_r; reflexivity].
Qed.

Lemma books_after_all calls : ∀ e,
  sound e → (initial_capital e =? 0)%float = false → balanced e →
  sound (after_all e calls) ∧ balanced (after_all e calls) ∧
  initial_capital (after_all e calls) = initial_capital e ∧
  equity_curve e `prefix_of` equity_curve (after_all e calls).
Proof.
  induction calls as [|call calls IH]; intros e Hs Hnz Hb.
  - cbn. auto.
  - cbn [after_all fold_left].
    assert (Hs' : sound (after e call))
      by (destruct call; [apply sound_open|apply sound_close]; exact Hs).
    assert (Hb' : balanced (after e call))
      by (destruct call; [apply balanced_open|apply balanced_close];
          assumption).
    pose proof (initial_capital_after e call) as Hic.
    destruct (IH (after e call) Hs' ltac:(rewrite Hic; exact Hnz) Hb')
      as (I1 & I2 & I3 & I4).
    split; [exact I1|]. split; [exact I2|].
    split; [etrans; [exact I3|exact Hic]|].
    etrans; [apply equity_curve_after|exact I4].
Qed.

Lemma closed_profits_length e :
  sound e → length (closed_profits e) = length (closed_trades e).
Proof.
  intros (_ & _ & _ & S4 & _). unfold closed_profits.
  assert (H : ∀ r, r ∈ closed_trades e → is_Some (store e !! r)).
  { intros r Hin. destruct (proj1 (S4 r Hin)) as (tr & -> & _). eauto. }
  clear S4. induction (closed_trades e) as [|r l IH]; [reflexivity|].
  cbn [omap list_omap].
  destruct (H r ltac:(apply list_elem_of_here)) as [tr ->]. cbn.
  rewrite IH; [reflexivity|].
  intros r' Hin. apply H, list_elem_of_further, Hin.
Qed.

(** X14: after any sequence of [open_position] and [close_position] calls
    on a fresh engine, whatever the exchange answers and however the calls
    fail, the references of the ledger are sound: the trade counter is the
    number of trade objects; every active position is a trade of its
    symbol, and no trade is the active position of two symbols; every
    entry of a trade log is a trade of the log's symbol; every closed
    trade is a CLOSED object that is no longer active; and no trade is
    listed twice among the closed trades. *)
Theorem ledger_references_stay_sound c t calls :
  let e := after_all (init c t) calls in
  total_trades (stats e) = Z.of_nat (length (store e)) ∧
  (∀ symbol r, active_positions e !! symbol = Some r →
     ∃ trade, store e !! r = Some trade ∧ Engine.symbol trade = symbol) ∧
  (∀ symbol symbol' r,
     active_positions e !! symbol = Some r →
     active_positions e !! symbol' = Some r → symbol = symbol') ∧
  (∀ symbol rs r, trades e !! symbol = Some rs → r ∈ rs →
     ∃ trade, store e !! r = Some trade ∧ Engine.symbol trade = symbol) ∧
  (∀ r, r ∈ closed_trades e →
     (∃ trade, store e !! r = Some trade ∧ status trade = CLOSED) ∧
     ∀ symbol, active_positions e !! symbol ≠ Some r) ∧
  NoDup (closed_trades e).
Proof.
  intros e.
  destruct (sound_after_all calls _ (sound_init c t)) as (S1 & S2 & S3 & S4 & S5).
  fold e in S1, S2, S3, S4, S5.
  split; [exact S1|]. split; [exact S2|]. split; [|auto].
  intros symbol symbol' r H H'.
  destruct (S2 _ _ H) as (t1 & Ht1 & <-).
  destruct (S2 _ _ H') as (t2 & Ht2 & <-). congruence.
Qed.

Lemma ledger_references_stay_sound_witness :
  let e := after_all (init 3000 0%Z) (take 3 example_calls) in
  active_positions e !! "BTCUSDT" = Some 1%nat ∧
  (Engine.symbol <$> store e !! 1%nat) = Some "BTCUSDT" ∧
  0%nat ∈ closed_trades e ∧
  (status <$> store e !! 0%nat) = Some CLOSED ∧
  active_positions e !! "BTCUSDT" ≠ Some 0%nat.
Proof.
  intros e.
  assert (Hac : active_positions e !! "BTCUSDT" = Some 1%nat)
    by (vm_compute; reflexivity).
  assert (Hcl : 0%nat ∈ closed_trades e).
  { replace (closed_trades e) with [0%nat] by (vm_compute; reflexivity).
    apply list_elem_of_here. }
  destruct (ledger_references_stay_sound 3000 0%Z (take 3 example_calls))
    as (_ & H2 & _ & _ & H5 & _).
  fold e in H2, H5.
  destruct (H2 _ _ Hac) as (trade & Htrade & Hsym).
  destruct (H5 _ Hcl) as ((trade' & Htrade' & Hstatus) & Hfree).
  split; [exact Hac|].
  split; [rewrite Htrade; cbn; f_equal; exact Hsym|].
  split; [exact Hcl|].
  split; [rewrite Htrade'; cbn; f_equal; exact Hstatus|].
  apply Hfree.
Defined.

(** X15: after any sequence of [open_position] and [close_position] calls
    on a fresh engine with a non-zero initial capital, the books agree: the
    initial capital is unchanged; the total capital is the initial capital
    plus the recorded profits of the closed trades, added in the order of
    closing; the running profit of the statistics is their sum from zero;
    and the equity curve starts at the initial capital, has exactly one
    point per closed trade after that, and ends at the total capital. *)
Theorem ledger_books_balance c t calls :
  (c =? 0)%float = false →
  let e := after_all (init c t) calls in
  initial_capital e = c ∧
  total_capital e = fold_left PrimFloat.add (closed_profits e) c ∧
  total_profit_loss (stats e)
    = fold_left PrimFloat.add (closed_profits e) 0%float ∧
  length (closed_profits e) = length (closed_trades e) ∧
  length (equity_curve e) = S (length (closed_trades e)) ∧
  head (equity_curve e) = Some (mkPoint t c c) ∧
  equity <$> last (equity_curve e) = Some (total_capital e).
Proof.
  intros Hnz e.
  destruct (books_after_all calls (init c t) (sound_init c t) Hnz
                            (balanced_init c t))
    as (Hs & (B1 & B2 & B3 & B4) & Hic & Hpre).
  fold e in Hs, B1, B2, B3, B4, Hic, Hpre. cbn [init initial_capital] in Hic.
  split; [exact Hic|]. rewrite Hic in B1. split; [exact B1|].
  split; [exact B2|]. split.
  { apply closed_profits_length, Hs. }
  split; [exact B3|]. split; [|exact B4].
  destruct Hpre as [rest ->]. reflexivity.
Qed.

Lemma ledger_books_balance_witness :
  (3000 =? 0)%float = false ∧
  let e := after_all (init 3000 0%Z) example_calls in
  total_capital e = fold_left PrimFloat.add (closed_profits e) 3000%float ∧
  closed_profits e = [30; -29]%float ∧
  length (equity_curve e) = 3%nat.
Proof.
  split; [reflexivity|]. intros e.
  destruct (ledger_books_balance 3000 0%Z example_calls eq_refl)
    as (_ & H1 & _ & _ & H2 & _).
  fold e in H1, H2. split; [exact H1|].
  split; [vm_compute; reflexivity|]. rewrite H2. vm_compute. reflexivity.
Defined.

Lemma update_stats_again e e1 :
  _update_stats e = (e1, true) → _update_stats e1 = (e1, true).
Proof.
  unfold _update_stats. intros H.
  destruct (Py.truediv (total_capital e - initial_capital e) (initial_capital e))
    as [q|] eqn:Hq; [|discriminate].
  cbn [with_stats equity_curve] in H.
  destruct (equity_curve e) as [|pt curve] eqn:Hcurve.
  - injection H as <-. cbn [with_stats total_capital initial_capital
                             equity_curve stats refresh_capital
                             available_balance].
    rewrite Hq, Hcurve. destruct e as [? ? ? ? ? ? ? ? st ? ?]. destruct st.
    reflexivity.
  - destruct (compute_max_drawdown (map equity (pt :: curve))) as [dd|] eqn:Hdd;
      [|discriminate].
    injection H as <-. cbn [with_stats total_capital initial_capital
                             equity_curve stats refresh_capital
                             available_balance with_max_drawdown].
    rewrite Hq, Hcurve. cbn [with_stats equity_curve]. rewrite Hdd.
    destruct e as [? ? ? ? ? ? ? ? st ? ?]. destruct st. reflexivity.
Qed.

(** X16: when [get_stats] returns a report, reading the statistics again
    returns the same report and changes nothing; the first read leaves the
    balances, the trade objects, the active and closed trades and the
    equity curve as they were, and the report carries the trade counter
    and the rounded total capital and available balance of the engine. *)
Theorem stats_read_is_idempotent round e e1 d :
  get_stats round e = (e1, Some d) →
  get_stats round e1 = (e1, Some d) ∧
  available_balance e1 = available_balance e ∧
  total_capital e1 = total_capital e ∧
  store e1 = store e ∧
  active_positions e1 = active_positions e ∧
  closed_trades e1 = closed_trades e ∧
  equity_curve e1 = equity_curve e ∧
  sd_total_trades d = total_trades (stats e) ∧
  sd_current_capital d = round (total_capital e) 2%Z ∧
  sd_available_balance d = round (available_balance e) 2%Z.
Proof.
  unfold get_stats. intros H.
  destruct (_update_stats e) as [e' ok] eqn:Hstats.
  destruct ok; [|discriminate]. injection H as -> <-.
  rewrite (update_stats_again _ _ Hstats).
  apply update_stats_frame in Hstats
    as (_ & Hav & Htc & Hst & _ & Hac & Hcl & Heq & _ & _ & Htt & _ & _
        & _ & Hcc & Hab).
  cbn [stats_to_dict sd_total_trades sd_current_capital sd_available_balance].
  rewrite Hcc, Hab. auto 12.
Qed.

Lemma stats_read_is_idempotent_witness :
  let e := after_all (init 3000 0%Z) example_calls in
  let r := get_stats (λ x _, x) e in
  (∃ d, r = (r.1, Some d)) ∧
  get_stats (λ x _, x) r.1 = r ∧
  (sd_current_capital <$> r.2) = Some 3001%float.
Proof.
  intros e r.
  assert (H : ∃ d, r = (r.1, Some d)) by (vm_compute; eauto).
  split; [exact H|]. destruct H as [d Hd].
  destruct (stats_read_is_idempotent (λ x _, x) e r.1 d Hd) as (H1 & _).
  split; [rewrite H1; symmetry; exact Hd|]. vm_compute. reflexivity.
Defined.

(** X17: after any sequence of [open_position] and [close_position] calls
    on a fresh engine, [get_all_trades] for a symbol other than the empty
    string reports only trades of that symbol, and one report for every
    entry of the symbol's trade log: no entry of the log is lost or
    dangling. *)
Theorem trade_log_reports_trades_of_its_symbol round isoformat c t calls symbol :
  symbol ≠ EmptyString →
  let e := after_all (init c t) calls in
  Forall (λ d, d_symbol d = symbol)
         (get_all_trades round isoformat e symbol) ∧
  length (get_all_trades round isoformat e symbol)
    = length (default [] (trades e !! symbol)).
Proof.
  intros _ e.
  destruct (sound_after_all calls _ (sound_init c t)) as (_ & _ & S3 & _).
  fold e in S3. unfold get_all_trades, deref.
  destruct (trades e !! symbol) as [rs|] eqn:Hrs; cbn [from_option id];
    [|split; [constructor|reflexivity]].
  assert (H : ∀ r, r ∈ rs →
                ∃ tr, store e !! r = Some tr ∧ Engine.symbol tr = symbol)
    by (intros r Hin; exact (S3 _ _ _ Hrs Hin)).
  clear S3 Hrs. split.
  - induction rs as [|r rs IH]; [constructor|].
    cbn [omap list_omap].
    destruct (H r ltac:(apply list_elem_of_here)) as (tr & -> & Hsym).
    cbn. constructor; [exact Hsym|].
    apply IH. intros r' Hin. apply H, list_elem_of_further, Hin.
  - rewrite length_map. induction rs as [|r rs IH]; [reflexivity|].
    cbn [omap list_omap].
    destruct (H r ltac:(apply list_elem_of_here)) as (tr & -> & Hsym).
    cbn. f_equal. apply IH. intros r' Hin.
    apply H, list_elem_of_further, Hin.
Qed.

Lemma trade_log_reports_trades_of_its_symbol_witness :
  let e := after_all (init 3000 0%Z) example_calls in
  let iso : Time → string := λ _, "2024-01-01T00:00:00" in
  "BTCUSDT" ≠ EmptyString ∧
  Forall (λ d, d_symbol d = "BTCUSDT")
         (get_all_trades (λ x _, x) iso e "BTCUSDT") ∧
  length (get_all_trades (λ x _, x) iso e "BTCUSDT") = 2%nat.
Proof.
  intros e iso.
  assert (Hne : "BTCUSDT" ≠ EmptyString) by discriminate.
  destruct (trade_log_reports_trades_of_its_symbol
              (λ x _, x) iso 3000 0%Z example_calls "BTCUSDT" Hne)
    as (Hall & Hlen).
  split; [exact Hne|]. split; [exact Hall|].
  fold e in Hlen. rewrite Hlen. vm_compute. reflexivity.
Defined.

End LedgerFacts.

(** ** app.py: the signal loop *)

Module LoopFacts.

Import MACD Engine Loop.
Import SignalFacts RegistryFacts LedgerFacts.

Lemma open_position_active e client new_id now symbol side signal :
  let e' := (open_position e client new_id now symbol side signal).1 in
  active_positions e' = active_positions e ∨
  active_positions e' = <[symbol := length (store e)]> (active_positions e).
Proof.
  intros e'. subst e'.
  destruct (open_position_outcomes e client new_id now symbol side signal)
    as [Hp | (t & _ & _ & _ & Hac & _)]; [left|right; exact Hac].
  unfold portfolio in Hp. injection Hp as _ _ _ _ _ Hac _ _ _. exact Hac.
Qed.

Lemma close_position_active e client now now' symbol signal :
  let e' := (close_position e client now now' symbol signal).1 in
  active_positions e' = active_positions e ∨
  active_positions e' = delete symbol (active_positions e).
Proof.
  intros e'. subst e'.
  destruct (close_position_outcomes e client now now' symbol signal)
    as (_ & _ & _ & Hcases).
  destruct Hcases as
    [(_ & Hac & _)
    |[(r & trade & t' & _ & _ & _ & _ & Hac & _)
     |(r & trade & t' & pnl & _ & _ & _ & _ & _ & _ & Hac & _)]]; auto.
Qed.

(** The three things a turn can do to the active positions. *)
Lemma check_symbol_active round latest max_positions m e symbol o :
  let e' := (check_symbol round latest max_positions m e symbol o).1.2 in
  active_positions e' = active_positions e ∨
  (active_positions e !! symbol = None ∧
   (Z.of_nat (size (active_positions e)) < max_positions)%Z ∧
   active_positions e' = <[symbol := length (store e)]> (active_positions e)) ∨
  (is_Some (active_positions e !! symbol) ∧
   active_positions e' = delete symbol (active_positions e)).
Proof.
  intros e'. subst e'. unfold check_symbol.
  destruct (latest !! symbol) as [[kline|]|]; [|left; reflexivity..].
  destruct (Py.dict_get (Multi.strategies m) symbol) as [s|];
    [|left; reflexivity].
  destruct (add_kline round s _) as [s' [signal|]]; [|left; reflexivity].
  destruct (bool_decide (signal_type signal = GOLDEN_CROSS)
            && negb (bool_decide (is_Some (active_positions e !! symbol))))
    eqn:Hgold.
  - apply andb_true_iff in Hgold as [_ Hno].
    apply negb_true_iff, bool_decide_eq_false in Hno.
    destruct (Z.ltb_spec (Z.of_nat (size (active_positions e))) max_positions)
      as [Hlt|_]; [|left; reflexivity].
    cbn [fst snd].
    destruct (open_position_active e (client o) (new_id o) (open_clock o) symbol
                LONG (signal_type_str (signal_type signal))) as [H|H];
      [left; exact H|right; left].
    split; [|split; [exact Hlt|exact H]].
    apply eq_None_not_Some. exact Hno.
  - destruct (bool_decide (signal_type signal = DEAD_CROSS)
              && bool_decide (is_Some (active_positions e !! symbol)))
      eqn:Hdead; [|left; reflexivity].
    apply andb_true_iff in Hdead as [_ Has]. apply bool_decide_eq_true in Has.
    cbn [fst snd].
    destruct (close_position_active e (client o) (close_clock o)
                (close_clock' o) symbol (signal_type_str (signal_type signal)))
      as [H|H]; [left; exact H|right; right; split; [exact Has|exact H]].
Qed.

Lemma check_symbol_size round latest max_positions m e symbol o :
  (Z.of_nat (size (active_positions
                     (check_symbol round latest max_positions m e symbol o).1.2))
     ≤ Z.max (Z.of_nat (size (active_positions e))) max_positions)%Z.
Proof.
  destruct (check_symbol_active round latest max_positions m e symbol o)
    as [-> | [(Hnone & Hlt & ->) | (Hsome & ->)]].
  - lia.
  - rewrite map_size_insert_None by exact Hnone. lia.
  - rewrite map_size_delete_Some by exact Hsome. lia.
Qed.

Lemma check_symbols_size round latest max_positions symbols : ∀ m e outside i,
  (Z.of_nat (size (active_positions
                     (check_symbols round latest max_positions m e symbols
                                    outside i).2))
     ≤ Z.max (Z.of_nat (size (active_positions e))) max_positions)%Z.
Proof.
  induction symbols as [|symbol rest IH]; intros m e outside i.
  - cbn. lia.
  - cbn [check_symbols].
    pose proof (check_symbol_size round latest max_positions m e symbol
                                  (outside i)) as Hstep.
    destruct (check_symbol round latest max_positions m e symbol (outside i))
      as [[m' e'] ok]. cbn [fst snd] in Hstep.
    destruct ok; [|cbn [snd]; exact Hstep].
    etrans; [apply IH|]. lia.
Qed.

(** X18: one run of [strategy_check_signals] never leaves more active
    positions than the larger of the number it found and [max_positions],
    however many golden crosses the configured symbols show and whatever
    the exchange answers; and it changes nothing when the strategy is
    disabled. *)
Theorem signal_loop_respects_max_positions round config collector m e outside :
  let e' := (strategy_check_signals round config collector m e outside).2 in
  (Z.of_nat (size (active_positions e'))
     ≤ Z.max (Z.of_nat (size (active_positions e))) (max_positions config))%Z ∧
  (enabled config = false →
     strategy_check_signals round config collector m e outside = (m, e)).
Proof.
  intros e'. subst e'. unfold strategy_check_signals.
  destruct (enabled config).
  - split; [apply check_symbols_size|discriminate].
  - cbn. split; [lia|reflexivity].
Qed.

Lemma signal_loop_respects_max_positions_witness :
  let config := mkConfig false ["BTCUSDT"] 3 in
  enabled config = false ∧
  strategy_check_signals (λ x _, x) config (Collector.init 30)
                         Multi.example_registry example_open_engine
                         (λ _, example_outside 0%Z)
    = (Multi.example_registry, example_open_engine).
Proof.
  intros config.
  assert (H : enabled config = false) by reflexivity.
  destruct (signal_loop_respects_max_positions
              (λ x _, x) config (Collector.init 30) Multi.example_registry
              example_open_engine (λ _, example_outside 0%Z)) as (_ & Hoff).
  split; [exact H|exact (Hoff H)].
Defined.

(** X19: one turn of the signal loop never replaces a position.  A
    position that was active is afterwards the same trade, or is gone when
    the turn was for its symbol; a position that appears is for the symbol
    of the turn, is a new trade object, and appears only when the number
    of active positions was below [max_positions]. *)
Theorem signal_loop_turn_never_replaces_a_position
    round latest max_positions m e symbol o :
  let e' := (check_symbol round latest max_positions m e symbol o).1.2 in
  (∀ other r,
     active_positions e !! other = Some r →
     active_positions e' !! other = Some r ∨
     (other = symbol ∧ active_positions e' !! other = None)) ∧
  (∀ other r,
     active_positions e !! other = None →
     active_positions e' !! other = Some r →
     other = symbol ∧ r = length (store e) ∧
     (Z.of_nat (size (active_positions e)) < max_positions)%Z).
Proof.
  intros e'. subst e'.
  destruct (check_symbol_active round latest max_positions m e symbol o)
    as [-> | [(Hnone & Hlt & ->) | (Hsome & ->)]]; split; intros other r H.
  - left. exact H.
  - intros H'. congruence.
  - left. rewrite lookup_insert_ne; [exact H|]. congruence.
  - destruct (decide (symbol = other)) as [<-|Hne].
    + rewrite lookup_insert_eq. intros [= <-]. auto.
    + rewrite lookup_insert_ne by exact Hne. congruence.
  - destruct (decide (symbol = other)) as [<-|Hne].
    + right. rewrite lookup_delete_eq. auto.
    + left. rewrite lookup_delete_ne by exact Hne. exact H.
  - intros H'. apply lookup_delete_Some in H' as [_ H']. congruence.
Qed.

Lemma signal_loop_turn_never_replaces_a_position_witness :
  let m := fold_left (λ m k, (Multi.update_kline (λ x _, x) m "BTCUSDT" k).1)
                     (take 13 example_bars) Multi.init in
  let e := Engine.init 3000 0%Z in
  let first :=
    check_symbol (λ x _, x) example_latest 3 m e "BTCUSDT" (example_outside 0%Z) in
  let second :=
    check_symbol (λ x _, x) example_latest 3 first.1.1 first.1.2 "BTCUSDT"
                 (example_outside 1%Z) in
  active_positions e !! "BTCUSDT" = None ∧
  active_positions first.1.2 !! "BTCUSDT" = Some 0%nat ∧
  (Z.of_nat (size (active_positions e)) < 3)%Z ∧
  (active_positions second.1.2 !! "BTCUSDT" = Some 0%nat ∨
   "BTCUSDT" = "BTCUSDT" ∧ active_positions second.1.2 !! "BTCUSDT" = None).
Proof.
  intros m e first second.
  assert (H0 : active_positions e !! "BTCUSDT" = None) by reflexivity.
  assert (H1 : active_positions first.1.2 !! "BTCUSDT" = Some 0%nat)
    by (vm_compute; reflexivity).
  destruct (signal_loop_turn_never_replaces_a_position
              (λ x _, x) example_latest 3 m e "BTCUSDT" (example_outside 0%Z))
    as (_ & Hnew).
  destruct (Hnew _ _ H0 H1) as (_ & _ & Hlt).
  destruct (signal_loop_turn_never_replaces_a_position
              (λ x _, x) example_latest 3 first.1.1 first.1.2 "BTCUSDT"
              (example_outside 1%Z))
    as (Hkeep & _).
  split; [exact H0|]. split; [exact H1|]. split; [exact Hlt|].
  exact (Hkeep _ _ H1).
Defined.

Lemma check_symbol_feeds round latest max_positions m e symbol o bar s :
  latest !! symbol = Some (Some bar) →
  Multi.get_strategy m symbol = Some s →
  ∃ s',
    Multi.get_strategy
      (check_symbol round latest max_positions m e symbol o).1.1 symbol
      = Some s' ∧
    klines_history s'
      = klines_history s
          ++ [mkKline (clock o) (Collector.open bar) (Collector.high bar)
                      (Collector.low bar) (Collector.close bar)
                      (Collector.volume bar)] ∧
    ∀ other, other ≠ symbol →
      Multi.get_strategy
        (check_symbol round latest max_positions m e symbol o).1.1 other
        = Multi.get_strategy m other.
Proof.
  unfold Multi.get_strategy, check_symbol. intros -> ->.
  destruct (add_kline_shape round s
              (mkKline (clock o) (Collector.open bar) (Collector.high bar)
                       (Collector.low bar) (Collector.close bar)
                       (Collector.volume bar)))
    as (news & Hk & _).
  destruct (add_kline round s _) as [s' out]. cbn [fst] in Hk.
  exists s'.
  assert (Hm : ∀ (e' : TradingEngine) (ok : bool),
    Py.dict_get
      (Multi.strategies
         (Multi.mkMulti (Py.dict_set (Multi.strategies m) symbol s'), e', ok).1.1)
      symbol = Some s' ∧
    ∀ other, other ≠ symbol →
      Py.dict_get
        (Multi.strategies
           (Multi.mkMulti (Py.dict_set (Multi.strategies m) symbol s'), e', ok).1.1)
        other = Py.dict_get (Multi.strategies m) other).
  { intros e' ok. cbn [fst Multi.strategies].
    split; [apply dict_get_set_eq|].
    intros other Hne. apply dict_get_set_ne, not_eq_sym, Hne. }
  destruct out as [signal|];
    repeat case_match;
    (split; [apply Hm|split; [exact Hk|apply Hm]]).
Qed.

(** X20: a turn of the signal loop for a symbol that has a stored bar and
    a strategy appends that bar, stamped with the clock of the turn, to
    the history of the strategy, whatever the turn then does with the
    signal.  The loop does not remember which bar it fed: two turns that
    see the same stored bar append it twice.  The strategies of the other
    symbols are untouched. *)
Theorem signal_loop_feeds_latest_bar_every_turn
    round latest max_positions m e symbol o o' bar s :
  latest !! symbol = Some (Some bar) →
  Multi.get_strategy m symbol = Some s →
  let fed clock :=
    mkKline clock (Collector.open bar) (Collector.high bar)
            (Collector.low bar) (Collector.close bar) (Collector.volume bar) in
  let first := check_symbol round latest max_positions m e symbol o in
  let second :=
    check_symbol round latest max_positions first.1.1 first.1.2 symbol o' in
  (∃ s1, Multi.get_strategy first.1.1 symbol = Some s1 ∧
         klines_history s1 = klines_history s ++ [fed (clock o)]) ∧
  (∃ s2, Multi.get_strategy second.1.1 symbol = Some s2 ∧
         klines_history s2
           = klines_history s ++ [fed (clock o); fed (clock o')]) ∧
  (∀ other, other ≠ symbol →
     Multi.get_strategy second.1.1 other = Multi.get_strategy m other).
Proof.
  intros Hbar Hs fed first second.
  destruct (check_symbol_feeds round latest max_positions m e symbol o bar s
              Hbar Hs) as (s1 & H1 & Hk1 & Hf1).
  fold first in H1, Hf1.
  destruct (check_symbol_feeds round latest max_positions first.1.1 first.1.2
              symbol o' bar s1 Hbar H1) as (s2 & H2 & Hk2 & Hf2).
  fold second in H2, Hf2.
  split; [exists s1; auto|]. split.
  - exists s2. split; [exact H2|]. rewrite Hk2, Hk1, <- app_assoc. reflexivity.
  - intros other Hne. rewrite Hf2, Hf1 by exact Hne. reflexivity.
Qed.

Lemma signal_loop_feeds_latest_bar_every_turn_witness :
  let bar := Collector.mkBar 0 100 105 100 105 0 0 in
  let m := (Multi.add_symbol Multi.init "BTCUSDT").1 in
  let e := Engine.init 3000 0%Z in
  let first :=
    check_symbol (λ x _, x) example_latest 3 m e "BTCUSDT" (example_outside 7%Z) in
  let second :=
    check_symbol (λ x _, x) example_latest 3 first.1.1 first.1.2 "BTCUSDT"
                 (example_outside 8%Z) in
  example_latest !! "BTCUSDT" = Some (Some bar) ∧
  Multi.get_strategy m "BTCUSDT" = Some default_strategy ∧
  ∃ s2, Multi.get_strategy second.1.1 "BTCUSDT" = Some s2 ∧
        klines_history s2
          = [mkKline 7%Z 100 105 100 105 0; mkKline 8%Z 100 105 100 105 0].
Proof.
  intros bar m e first second.
  assert (Hbar : example_latest !! "BTCUSDT" = Some (Some bar))
    by (vm_compute; reflexivity).
  assert (Hs : Multi.get_strategy m "BTCUSDT" = Some default_strategy)
    by reflexivity.
  destruct (signal_loop_feeds_latest_bar_every_turn
              (λ x _, x) example_latest 3 m e "BTCUSDT" (example_outside 7%Z)
              (example_outside 8%Z) bar default_strategy Hbar Hs)
    as (_ & (s2 & H2 & Hk) & _).
  split; [exact Hbar|]. split; [exact Hs|].
  exists s2. split; [exact H2|]. exact Hk.
Defined.

End LoopFacts.

(** ** trading_engine.py: the reports *)

Module ReportFacts.

Import Engine EngineFacts LedgerFacts.

Lemma limited_subseteq {A} (l : list A) limit x :
  x ∈ Py.limited l limit → x ∈ l.
Proof.
  unfold Py.limited, Py.last_slice. intros H.
  repeat case_match; try exact H;
    (eapply subseteq_drop; exact H).
Qed.

Lemma deref_total e rs :
  (∀ r, r ∈ rs → is_Some (store e !! r)) →
  length (deref e rs) = length rs.
Proof.
  unfold deref. induction rs as [|r rs IH]; intros H; [reflexivity|].
  cbn [omap list_omap].
  destruct (H r ltac:(apply list_elem_of_here)) as [t ->]. cbn. f_equal.
  apply IH. intros r' Hin. apply H, list_elem_of_further, Hin.
Qed.

(** X21: after any sequence of [open_position] and [close_position] calls
    on a fresh engine the reports cover the ledger: every trade that
    [get_closed_trades] reports, under any limit, has status closed; without
    a limit it reports one trade per closed trade; and
    [get_active_positions] reports exactly the active positions, each as a
    trade of its own symbol. *)
Theorem reports_cover_the_ledger round isoformat c t calls :
  let e := after_all (init c t) calls in
  (∀ limit,
     Forall (λ d, d_status d = "closed")
            (get_closed_trades round isoformat e limit)) ∧
  length (get_closed_trades round isoformat e None)
    = length (closed_trades e) ∧
  (∀ symbol,
     d_symbol <$> get_active_positions round isoformat e !! symbol
       = const symbol <$> active_positions e !! symbol).
Proof.
  intros e.
  destruct (sound_after_all calls _ (sound_init c t)) as (_ & S2 & _ & S4 & _).
  fold e in S2, S4.
  split; [|split].
  - intros limit. unfold get_closed_trades, deref.
    apply Forall_forall. intros d Hd.
    apply list_elem_of_fmap in Hd as (tr & -> & Hin).
    apply list_elem_of_omap in Hin as (r & Hr & Hlook).
    apply limited_subseteq in Hr.
    destruct (S4 r Hr) as ((tr' & Htr' & Hst) & _).
    rewrite Htr' in Hlook. injection Hlook as <-.
    cbn. rewrite Hst. reflexivity.
  - unfold get_closed_trades. rewrite length_map. cbn [Py.limited].
    apply deref_total. intros r Hr.
    destruct (S4 r Hr) as ((tr & -> & _) & _). eauto.
  - intros symbol. unfold get_active_positions. rewrite lookup_omap.
    destruct (active_positions e !! symbol) as [r|] eqn:Hr; [|reflexivity].
    destruct (S2 _ _ Hr) as (tr & Htr & Hsym). cbn. rewrite Htr. cbn.
    rewrite Hsym. reflexivity.
Qed.

End ReportFacts.

(** ** app.py: stopping the strategy *)

Module StopFacts.

Import MACD Engine Loop.
Import LedgerFacts.

Lemma close_position_frame e client now now' symbol signal :
  let e' := (close_position e client now now' symbol signal).1 in
  trades e' = trades e ∧
  length (store e') = length (store e) ∧
  ((active_positions e' = active_positions e ∧
    closed_trades e' = closed_trades e) ∨
   (∃ r, active_positions e !! symbol = Some r ∧
         active_positions e' = delete symbol (active_positions e) ∧
         closed_trades e' = closed_trades e ++ [r])).
Proof.
  intros e'. subst e'.
  destruct (close_position_outcomes e client now now' symbol signal)
    as (_ & Htr & _ & Hcases).
  split; [exact Htr|].
  destruct Hcases as
    [(Hst & Hac & Hcl & _)
    |[(r & trade & t' & _ & _ & _ & Hst & Hac & Hcl & _)
     |(r & trade & t' & pnl & Hr & _ & _ & _ & _ & Hst & Hac & Hcl & _)]].
  - split; [rewrite Hst; reflexivity|]. left. auto.
  - split; [rewrite Hst; apply length_insert|]. left. auto.
  - split; [rewrite Hst; apply length_insert|]. right. eauto.
Qed.

Lemma close_all_frame outside keys : ∀ e i,
  let e' := close_all e keys outside i in
  (∀ symbol r, active_positions e' !! symbol = Some r →
     active_positions e !! symbol = Some r) ∧
  (∀ symbol, symbol ∉ keys →
     active_positions e' !! symbol = active_positions e !! symbol) ∧
  (length (closed_trades e') + size (active_positions e')
     = length (closed_trades e) + size (active_positions e))%nat ∧
  closed_trades e `prefix_of` closed_trades e' ∧
  trades e' = trades e ∧
  length (store e') = length (store e).
Proof.
  induction keys as [|symbol keys IH]; intros e i; cbn [close_all].
  - repeat split; auto.
  - set (e1 := (close_position e (client (outside i)) (close_clock (outside i))
                               (close_clock' (outside i)) symbol EmptyString).1).
    destruct (IH e1 (S i)) as (I1 & I2 & I3 & I4 & I5 & I6).
    destruct (close_position_frame e (client (outside i))
                (close_clock (outside i)) (close_clock' (outside i)) symbol
                EmptyString) as (Htr & Hst & Hcases).
    fold e1 in Htr, Hst, Hcases.
    rewrite I5, I6, Htr, Hst, I3.
    destruct Hcases as [(Hac & Hcl) | (r & Hr & Hac & Hcl)]; rewrite Hac, Hcl in *.
    + split; [exact I1|]. split.
      { intros s Hs. apply I2. intros Hin. apply Hs, list_elem_of_further, Hin. }
      auto.
    + split.
      { intros s r' H. apply I1 in H.
        apply lookup_delete_Some in H as [_ H]. exact H. }
      split.
      { intros s Hs. rewrite I2.
        - apply lookup_delete_ne. intros ->. apply Hs, list_elem_of_here.
        - intros Hin. apply Hs, list_elem_of_further, Hin. }
      split.
      { rewrite length_app. cbn [length].
        rewrite map_size_delete_Some by (rewrite Hr; eauto).
        assert (size (active_positions e) ≠ 0%nat).
        { intros H0. apply map_size_empty_inv in H0. rewrite H0 in Hr.
          rewrite lookup_empty in Hr. discriminate. }
        lia. }
      split; [|auto].
      etrans; [|exact I4]. apply prefix_app_r. reflexivity.
Qed.

(** X22: [stop_strategy] disables the strategy, so that a later
    [strategy_check_signals] changes nothing, and it only closes: whatever
    the exchange answers, every position active afterwards was active
    before as the same trade, a symbol outside the snapshot keeps its
    position, every position that disappeared is one more closed trade,
    the closed trades recorded before stay in front, and neither a trade
    log nor the number of trade objects changes. *)
Theorem stop_strategy_only_closes round config collector m e keys outside outside' :
  let stopped := stop_strategy config e keys outside in
  enabled stopped.1 = false ∧
  strategy_check_signals round stopped.1 collector m stopped.2 outside'
    = (m, stopped.2) ∧
  (∀ symbol r, active_positions stopped.2 !! symbol = Some r →
     active_positions e !! symbol = Some r) ∧
  (∀ symbol, symbol ∉ keys →
     active_positions stopped.2 !! symbol = active_positions e !! symbol) ∧
  (length (closed_trades stopped.2) + size (active_positions stopped.2)
     = length (closed_trades e) + size (active_positions e))%nat ∧
  closed_trades e `prefix_of` closed_trades stopped.2 ∧
  trades stopped.2 = trades e ∧
  length (store stopped.2) = length (store e).
Proof.
  intros stopped. subst stopped. unfold stop_strategy. cbn [fst snd enabled].
  split; [reflexivity|]. split; [reflexivity|].
  apply close_all_frame.
Qed.

Lemma stop_strategy_only_closes_witness :
  let e := after_all (Engine.init 3000 0%Z) (take 3 example_calls) in
  let stopped :=
    stop_strategy (mkConfig true ["BTCUSDT"] 3) e ["BTCUSDT"]
                  (λ _, example_outside 9%Z) in
  ("ETHUSDT" ∉ ["BTCUSDT"]) ∧
  active_positions stopped.2 !! "ETHUSDT" = active_positions e !! "ETHUSDT" ∧
  active_positions e !! "BTCUSDT" = Some 1%nat ∧
  active_positions stopped.2 = ∅ ∧
  closed_trades stopped.2 = [0%nat; 1%nat].
Proof.
  intros e stopped.
  assert (Hout : "ETHUSDT" ∉ ["BTCUSDT"]).
  { intros H. apply list_elem_of_singleton in H. discriminate. }
  destruct (stop_strategy_only_closes
              (λ x _, x) (mkConfig true ["BTCUSDT"] 3) (Collector.init 30)
              Multi.init e ["BTCUSDT"] (λ _, example_outside 9%Z)
              (λ _, example_outside 9%Z))
    as (_ & _ & _ & Hframe & _).
  split; [exact Hout|]. split; [exact (Hframe _ Hout)|].
  split; [vm_compute; reflexivity|].
  split; vm_compute; reflexivity.
Defined.

End StopFacts.

(** ** The history accessors under every limit *)

Module LimitFacts.

Import AccessorFacts LedgerFacts.

Lemma reports_of_deref round isoformat e rs :
  (∀ r, r ∈ rs → is_Some (Engine.store e !! r)) →
  Engine.reports_of round isoformat e rs
    (map (Engine.to_dict round isoformat) (Engine.deref e rs)).
Proof.
  unfold Engine.reports_of, Engine.deref.
  induction rs as [|r rs IH]; intros H; [constructor|].
  cbn [omap list_omap].
  destruct (H r ltac:(apply list_elem_of_here)) as [t Ht]. rewrite Ht.
  cbn. constructor; [eauto|].
  apply IH. intros r' Hin. apply H, list_elem_of_further, Hin.
Qed.

Lemma closed_trades_reported round isoformat c t calls limit :
  let e := Engine.after_all (Engine.init c t) calls in
  Engine.reports_of round isoformat e
    (Py.limited (Engine.closed_trades e) limit)
    (Engine.get_closed_trades round isoformat e limit).
Proof.
  intros e. unfold Engine.get_closed_trades.
  apply reports_of_deref. intros r Hr.
  destruct (sound_after_all calls _ (sound_init c t)) as (_ & _ & _ & S4 & _).
  fold e in S4.
  assert (Hin : r ∈ Engine.closed_trades e).
  { revert Hr. unfold Py.limited, Py.last_slice.
    repeat case_match; auto; apply subseteq_drop. }
  destruct (S4 r Hin) as ((tr & -> & _) & _). eauto.
Qed.

(** C10, as the code has it: each history accessor (bars, MACD signals,
    closed trades) called with limit 0 returns what it returns without a
    limit, the whole history, which is not empty when the history is not.
    A positive limit [n] returns the last [n] entries, all of them when
    there are fewer.  A negative limit truncates as well: [-n] returns the
    history without its first [n] entries, nothing when there are [n] or
    fewer.  For the closed trades, of an engine reached from a fresh one by
    [open_position] and [close_position] calls, the entries are the
    reports of the trades, one per trade and in order. *)
Theorem limit_zero_is_no_limit_and_other_limits_truncate :
  (∀ c symbol,
     Collector.get_klines c symbol (Some 0%Z) = Collector.history c symbol ∧
     Collector.get_klines c symbol None = Collector.history c symbol) ∧
  (∀ s,
     MACD.get_macd_history s (Some 0%Z) = MACD.macd_history s ∧
     MACD.get_macd_history s None = MACD.macd_history s) ∧
  (∀ round isoformat c t calls,
     let e := Engine.after_all (Engine.init c t) calls in
     Engine.reports_of round isoformat e (Engine.closed_trades e)
       (Engine.get_closed_trades round isoformat e (Some 0%Z)) ∧
     Engine.get_closed_trades round isoformat e None
       = Engine.get_closed_trades round isoformat e (Some 0%Z)) ∧
  (∀ c symbol,
     Collector.history c symbol ≠ [] →
     Collector.get_klines c symbol (Some 0%Z) ≠ []) ∧
  (∀ s,
     MACD.macd_history s ≠ [] → MACD.get_macd_history s (Some 0%Z) ≠ []) ∧
  (∀ round isoformat c t calls,
     let e := Engine.after_all (Engine.init c t) calls in
     Engine.closed_trades e ≠ [] →
     Engine.get_closed_trades round isoformat e (Some 0%Z) ≠ []) ∧
  (∀ c symbol n,
     (0 < n)%Z →
     Collector.get_klines c symbol (Some n)
       = drop (length (Collector.history c symbol) - Z.to_nat n)
              (Collector.history c symbol)) ∧
  (∀ s n,
     (0 < n)%Z →
     MACD.get_macd_history s (Some n)
       = drop (length (MACD.macd_history s) - Z.to_nat n)
              (MACD.macd_history s)) ∧
  (∀ round isoformat c t calls n,
     let e := Engine.after_all (Engine.init c t) calls in
     (0 < n)%Z →
     Engine.reports_of round isoformat e
       (drop (length (Engine.closed_trades e) - Z.to_nat n)
             (Engine.closed_trades e))
       (Engine.get_closed_trades round isoformat e (Some n))) ∧
  (∀ c symbol n,
     (n < 0)%Z →
     Collector.get_klines c symbol (Some n)
       = drop (Z.to_nat (- n)) (Collector.history c symbol)) ∧
  (∀ s n,
     (n < 0)%Z →
     MACD.get_macd_history s (Some n)
       = drop (Z.to_nat (- n)) (MACD.macd_history s)) ∧
  (∀ round isoformat c t calls n,
     let e := Engine.after_all (Engine.init c t) calls in
     (n < 0)%Z →
     Engine.reports_of round isoformat e
       (drop (Z.to_nat (- n)) (Engine.closed_trades e))
       (Engine.get_closed_trades round isoformat e (Some n))).
Proof.
  split; [intros; apply limited_zero|].
  split; [intros; apply limited_zero|].
  split.
  { intros round isoformat c t calls e. split; [|reflexivity].
    exact (closed_trades_reported round isoformat c t calls (Some 0%Z)). }
  split; [intros c symbol H; exact H|].
  split; [intros s H; exact H|].
  split.
  { intros round isoformat c t calls e Hne Hnil.
    pose proof (closed_trades_reported round isoformat c t calls (Some 0%Z))
      as Hrep.
    fold e in Hrep. cbv zeta in Hrep. rewrite Hnil in Hrep.
    apply Forall2_nil_inv_r in Hrep. apply Hne. exact Hrep. }
  split; [intros c symbol n Hn; apply limited_positive, Hn|].
  split; [intros s n Hn; apply limited_positive, Hn|].
  split.
  { intros round isoformat c t calls n e Hn.
    rewrite <- (limited_positive _ n Hn).
    exact (closed_trades_reported round isoformat c t calls (Some n)). }
  split; [intros c symbol n Hn; apply limited_negative, Hn|].
  split; [intros s n Hn; apply limited_negative, Hn|].
  intros round isoformat c t calls n e Hn.
  rewrite <- (limited_negative _ n Hn).
  exact (closed_trades_reported round isoformat c t calls (Some n)).
Qed.

Lemma limit_zero_is_no_limit_and_other_limits_truncate_witness :
  let c := Collector.run (Collector.init 30)
                         (Collector.example_ticks "BTCUSDT") in
  let s := (MACD.feed (λ x _, x) MACD.default_strategy MACD.example_bars).1 in
  let e := Engine.after_all (Engine.init 3000 0%Z) Engine.example_calls in
  let iso : Time → string := λ _, "2024-01-01T00:00:00" in
  let closed limit :=
    Engine.d_trade_id <$> Engine.get_closed_trades (λ x _, x) iso e limit in
  (Collector.history c "BTCUSDT" ≠ [] ∧ MACD.macd_history s ≠ [] ∧
   Engine.closed_trades e ≠ [] ∧ (0 < 2)%Z ∧ (-2 < 0)%Z) ∧
  Collector.get_klines c "BTCUSDT" (Some 0%Z) ≠ [] ∧
  Engine.get_closed_trades (λ x _, x) iso e (Some 0%Z) ≠ [] ∧
  length (MACD.get_macd_history s (Some 0%Z)) = 5%nat ∧
  MACD.signal_type <$> MACD.get_macd_history s (Some 2%Z)
    = [MACD.NONE; MACD.DEAD_CROSS] ∧
  MACD.signal_type <$> MACD.get_macd_history s (Some (-2)%Z)
    = [MACD.GOLDEN_CROSS; MACD.NONE; MACD.DEAD_CROSS] ∧
  closed (Some 0%Z) = ["a1b2c3d4"; "e5f6a7b8"] ∧
  closed (Some 1%Z) = ["e5f6a7b8"] ∧
  closed (Some (-1)%Z) = ["e5f6a7b8"].
Proof.
  intros c s e iso closed.
  assert (H : Collector.history c "BTCUSDT" ≠ [] ∧ MACD.macd_history s ≠ [] ∧
              Engine.closed_trades e ≠ [] ∧ (0 < 2)%Z ∧ (-2 < 0)%Z).
  { split; [vm_compute; discriminate|]. split; [vm_compute; discriminate|].
    split; [vm_compute; discriminate|]. lia. }
  split; [exact H|].
  destruct H as (Hc & Hs & He & Hpos & Hneg).
  destruct limit_zero_is_no_limit_and_other_limits_truncate
    as (_ & Hzero & _ & Hbars & _ & Hclosed & _ & Hlast & _ & _ & Hdrop & _).
  split; [exact (Hbars c "BTCUSDT" Hc)|].
  split; [exact (Hclosed (λ x _, x) iso 3000%float 0%Z Engine.example_calls He)|].
  split; [rewrite (proj1 (Hzero s)); vm_compute; reflexivity|].
  split; [rewrite (Hlast s 2%Z Hpos); vm_compute; reflexivity|].
  split; [rewrite (Hdrop s (-2)%Z Hneg); vm_compute; reflexivity|].
  split; [vm_compute; reflexivity|].
  split; vm_compute; reflexivity.
Defined.

(** C10 as stated fails: a limit that is not positive can truncate.  Of
    the five signals of the example, limit -2 returns the last three. *)
Lemma only_positive_limit_truncates_counterexample :
  ¬ (∀ (s : MACD.MACDStrategy) (limit : option Z),
       MACD.get_macd_history s limit ≠ MACD.macd_history s →
       ∃ n, limit = Some n ∧ (0 < n)%Z).
Proof.
  intros claim.
  destruct (claim (MACD.feed (λ x _, x) MACD.default_strategy
                             MACD.example_bars).1 (Some (-2)%Z))
    as (n & Hn & Hpos).
  - intros H. apply (f_equal length) in H. vm_compute in H. discriminate.
  - injection Hn as <-. lia.
Qed.

End LimitFacts.
